(** * lidbox end-to-end commands (lidbox/commands/e2e.py)

    A shallow embedding of the data-ingestion layer of the lidbox
    experiment runner: manifest parsing, utterance registry construction,
    backend dispatch, config fingerprinting, the on-disk cache marker,
    label one-hot encoding and the feature-extraction call of the
    prediction command.

    Python values are modelled as follows.
    - [str] is [string]; a string is the UTF-8 byte sequence of the text,
      so [str.encode("utf-8")] is the identity and code-point order is
      byte order.
    - a raised exception is the left injection of [result].
    - a [dict] with string keys is an association list in insertion
      order; [collections.OrderedDict] likewise.
    - a [set] of strings is a [gset string].
    - the filesystem is a [gmap] from paths to file contents. *)

From Stdlib Require Import ZArith List Lia Ascii String Permutation.
From stdpp Require Import gmap strings list fin_maps pretty sorting.

Local Open Scope string_scope.
Local Open Scope Z_scope.

(** ** Exceptions and the error monad *)

Inductive exception : Type :=
| KeyError (key : string)
| AssertionError (msg : string)
| ValueError (msg : string)
| TypeError (msg : string)
| NameError (name : string)
| FileNotFoundError (path : string)
| InvalidArgumentError (msg : string).

Definition result (A : Type) : Type := exception + A.

Definition Ok {A} (a : A) : result A := inr a.
Definition Raise {A} (e : exception) : result A := inl e.

Definition rbind {A B} (m : result A) (k : A → result B) : result B :=
  match m with
  | inl e => inl e
  | inr a => k a
  end.

Notation "'try' x <- m ; k" := (rbind m (fun x => k))
  (at level 10, x name, m at level 100, k at level 200, only parsing).
Notation "'try' ' p <- m ; k" := (rbind m (fun x => match x with p => k end))
  (at level 10, p pattern, m at level 100, k at level 200, only parsing).

Definition raises {A} (m : result A) : Prop := ∃ e, m = inl e.
Definition returns {A} (m : result A) : Prop := ∃ a, m = inr a.

(** [assert cond, msg] *)
Definition assert (cond : bool) (msg : string) : result unit :=
  if cond then Ok tt else Raise (AssertionError msg).

(** Left-to-right loop with early exit on the first exception. *)
Fixpoint foldM {A S} (f : S → A → result S) (s : S) (l : list A) : result S :=
  match l with
  | [] => Ok s
  | x :: l' => try s' <- f s x; foldM f s' l'
  end.

(** ** Python strings *)

Definition newline : string := String (ascii_of_nat 10) EmptyString.

(** [sep.join(parts)] *)
Fixpoint str_join (sep : string) (parts : list string) : string :=
  match parts with
  | [] => EmptyString
  | [p] => p
  | p :: ps => p +:+ sep +:+ str_join sep ps
  end.

Definition startswith_char (c : ascii) (s : string) : bool :=
  match s with
  | String c' _ => Ascii.eqb c c'
  | EmptyString => false
  end.

Fixpoint endswith_char (c : ascii) (s : string) : bool :=
  match s with
  | EmptyString => false
  | String c' EmptyString => Ascii.eqb c c'
  | String _ s' => endswith_char c s'
  end.

Definition str_is_empty (s : string) : bool :=
  match s with EmptyString => true | _ => false end.

(** ** Dictionaries with string keys *)

Section Dict.
Context {V : Type}.

Fixpoint dict_get (d : list (string * V)) (k : string) : option V :=
  match d with
  | [] => None
  | (k', v) :: d' => if String.eqb k k' then Some v else dict_get d' k
  end.

(** [d[k]] *)
Definition getitem (d : list (string * V)) (k : string) : result V :=
  match dict_get d k with
  | Some v => Ok v
  | None => Raise (KeyError k)
  end.

(** [k in d] *)
Definition contains (d : list (string * V)) (k : string) : bool :=
  match dict_get d k with Some _ => true | None => false end.

(** [d[k] = v]: an existing key keeps its position, a new key goes last. *)
Fixpoint setitem (d : list (string * V)) (k : string) (v : V) : list (string * V) :=
  match d with
  | [] => [(k, v)]
  | (k', v') :: d' =>
      if String.eqb k k' then (k', v) :: d' else (k', v') :: setitem d' k v
  end.

(** [list(d.keys())] *)
Definition keys (d : list (string * V)) : list string := map fst d.
End Dict.

(** ** JSON values and [json.dumps] *)

(** The values a YAML configuration holds.  A float is carried by the text
    [float.__repr__] gives for it, which is what [json.dumps] emits. *)
#[warnings="-register-all"]
Inductive json : Type :=
| JNull
| JBool (b : bool)
| JInt (z : Z)
| JFloat (repr : string)
| JStr (s : string)
| JList (l : list json)
| JDict (d : list (string * json)).

Definition hex_digit (n : nat) : ascii :=
  match n with
  | 0 => "0" | 1 => "1" | 2 => "2" | 3 => "3" | 4 => "4" | 5 => "5"
  | 6 => "6" | 7 => "7" | 8 => "8" | 9 => "9" | 10 => "a" | 11 => "b"
  | 12 => "c" | 13 => "d" | 14 => "e" | _ => "f"
  end%char%nat.

Definition dquote : string := String (ascii_of_nat 34) EmptyString.
Definition backslash : string := String (ascii_of_nat 92) EmptyString.

(** [json.encoder.ESCAPE_DCT] as used with [ensure_ascii=False]: the
    backslash, the double quote and the control characters below 0x20. *)
Definition escape_char (c : ascii) : string :=
  let n := nat_of_ascii c in
  if Nat.eqb n 92 then backslash +:+ backslash
  else if Nat.eqb n 34 then backslash +:+ dquote
  else if Nat.eqb n 10 then backslash +:+ "n"
  else if Nat.eqb n 13 then backslash +:+ "r"
  else if Nat.eqb n 9 then backslash +:+ "t"
  else if Nat.eqb n 8 then backslash +:+ "b"
  else if Nat.eqb n 12 then backslash +:+ "f"
  else if Nat.ltb n 32 then
    backslash +:+ "u00"
    +:+ String (hex_digit (n / 16)) (String (hex_digit (n mod 16)) EmptyString)
  else String c EmptyString.

Fixpoint escape (s : string) : string :=
  match s with
  | EmptyString => EmptyString
  | String c s' => escape_char c +:+ escape s'
  end.

Definition encode_str (s : string) : string := dquote +:+ escape s +:+ dquote.

(** Stable insertion sort of rendered items by key, as [sorted(dct.items())]
    orders the items of a dict whose keys are distinct strings. *)
Fixpoint insert_by_key (kv : string * string) (l : list (string * string))
  : list (string * string) :=
  match l with
  | [] => [kv]
  | kv' :: l' =>
      if String.leb (fst kv) (fst kv') then kv :: l
      else kv' :: insert_by_key kv l'
  end.

Definition sort_by_key (l : list (string * string)) : list (string * string) :=
  foldr insert_by_key [] l.

(** [json.dumps(v, ensure_ascii=False, sort_keys=True)] with the default
    separators [", "] and [": "].  The members of an object are rendered and
    then ordered by key; the order depends on the keys only. *)
Fixpoint dumps (v : json) : string :=
  match v with
  | JNull => "null"
  | JBool true => "true"
  | JBool false => "false"
  | JInt z => pretty z
  | JFloat r => r
  | JStr s => encode_str s
  | JList l => "[" +:+ str_join ", " (map dumps l) +:+ "]"
  | JDict d =>
      let items := map (fun kv => (fst kv, dumps (snd kv))) d in
      "{" +:+ str_join ", "
                (map (fun kv => encode_str (fst kv) +:+ ": " +:+ snd kv)
                     (sort_by_key items))
          +:+ "}"
  end.

(** ** [hashlib.md5] (RFC 1321)

    32-bit words are [Z] reduced modulo 2^32. *)

Module MD5.
Definition w32 (x : Z) : Z := x mod 2 ^ 32.

Definition rotl32 (x c : Z) : Z :=
  w32 (Z.lor (Z.shiftl x c) (Z.shiftr x (32 - c))).

Definition not32 (x : Z) : Z := Z.lxor x 0xFFFFFFFF.

Definition shifts : list Z :=
  [7; 12; 17; 22; 7; 12; 17; 22; 7; 12; 17; 22; 7; 12; 17; 22;
   5; 9; 14; 20; 5; 9; 14; 20; 5; 9; 14; 20; 5; 9; 14; 20;
   4; 11; 16; 23; 4; 11; 16; 23; 4; 11; 16; 23; 4; 11; 16; 23;
   6; 10; 15; 21; 6; 10; 15; 21; 6; 10; 15; 21; 6; 10; 15; 21].

Definition K : list Z :=
  [0xd76aa478; 0xe8c7b756; 0x242070db; 0xc1bdceee;
   0xf57c0faf; 0x4787c62a; 0xa8304613; 0xfd469501;
   0x698098d8; 0x8b44f7af; 0xffff5bb1; 0x895cd7be;
   0x6b901122; 0xfd987193; 0xa679438e; 0x49b40821;
   0xf61e2562; 0xc040b340; 0x265e5a51; 0xe9b6c7aa;
   0xd62f105d; 0x02441453; 0xd8a1e681; 0xe7d3fbc8;
   0x21e1cde6; 0xc33707d6; 0xf4d50d87; 0x455a14ed;
   0xa9e3e905; 0xfcefa3f8; 0x676f02d9; 0x8d2a4c8a;
   0xfffa3942; 0x8771f681; 0x6d9d6122; 0xfde5380c;
   0xa4beea44; 0x4bdecfa9; 0xf6bb4b60; 0xbebfbc70;
   0x289b7ec6; 0xeaa127fa; 0xd4ef3085; 0x04881d05;
   0xd9d4d039; 0xe6db99e5; 0x1fa27cf8; 0xc4ac5665;
   0xf4292244; 0x432aff97; 0xab9423a7; 0xfc93a039;
   0x655b59c3; 0x8f0ccc92; 0xffeff47d; 0x85845dd1;
   0x6fa87e4f; 0xfe2ce6e0; 0xa3014314; 0x4e0811a1;
   0xf7537e82; 0xbd3af235; 0x2ad7d2bb; 0xeb86d391].

Definition bytes_of_string (s : string) : list Z :=
  map (fun c => Z.of_nat (nat_of_ascii c)) (list_ascii_of_string s).

(** [n] bytes of [x], least significant first. *)
Fixpoint le_bytes (n : nat) (x : Z) : list Z :=
  match n with
  | O => []
  | S n' => x mod 256 :: le_bytes n' (x / 256)
  end.

Definition pad (msg : list Z) : list Z :=
  let len := Z.of_nat (length msg) in
  let zeros := Z.to_nat ((55 - len) mod 64) in
  msg ++ [0x80] ++ replicate zeros 0 ++ le_bytes 8 ((8 * len) mod 2 ^ 64).

Fixpoint le_word (bs : list Z) : Z :=
  match bs with
  | [] => 0
  | b :: bs' => b + 256 * le_word bs'
  end.

(** Consecutive groups of [k] elements; [fuel] bounds the number of groups. *)
Fixpoint chunks {A} (fuel k : nat) (l : list A) : list (list A) :=
  match fuel, l with
  | O, _ | _, [] => []
  | S fuel', _ => take k l :: chunks fuel' k (drop k l)
  end.

Definition words_of_block (block : list Z) : list Z :=
  map le_word (chunks 16 4 block).

Definition round (M : list Z) (st : Z * Z * Z * Z) (i : Z) : Z * Z * Z * Z :=
  let '(A, B, C, D) := st in
  let '(F, g) :=
    if i <? 16 then (Z.lor (Z.land B C) (Z.land (not32 B) D), i)
    else if i <? 32 then
      (Z.lor (Z.land D B) (Z.land (not32 D) C), (5 * i + 1) mod 16)
    else if i <? 48 then (Z.lxor (Z.lxor B C) D, (3 * i + 5) mod 16)
    else (Z.lxor C (Z.lor B (not32 D)), (7 * i) mod 16) in
  let F := w32 (F + A + nth (Z.to_nat i) K 0 + nth (Z.to_nat g) M 0) in
  (D, w32 (B + rotl32 F (nth (Z.to_nat i) shifts 0)), B, C).

Definition process_block (st : Z * Z * Z * Z) (block : list Z) : Z * Z * Z * Z :=
  let '(a0, b0, c0, d0) := st in
  let '(A, B, C, D) :=
    fold_left (round (words_of_block block)) (map Z.of_nat (seq 0 64)) st in
  (w32 (a0 + A), w32 (b0 + B), w32 (c0 + C), w32 (d0 + D)).

Definition digest (msg : list Z) : list Z :=
  let padded := pad msg in
  let '(a, b, c, d) :=
    fold_left process_block (chunks (length padded) 64 padded)
              (0x67452301, 0xefcdab89, 0x98badcfe, 0x10325476) in
  le_bytes 4 a ++ le_bytes 4 b ++ le_bytes 4 c ++ le_bytes 4 d.

Definition hex_of_byte (b : Z) : string :=
  String (hex_digit (Z.to_nat (b / 16)))
         (String (hex_digit (Z.to_nat (b mod 16))) EmptyString).

(** [hashlib.md5(data).hexdigest()] *)
Definition hexdigest (data : string) : string :=
  foldr (fun b acc => hex_of_byte b +:+ acc) EmptyString
        (digest (bytes_of_string data)).
End MD5.

(** [v[k]] on a configuration value. *)
Definition json_getitem (v : json) (k : string) : result json :=
  match v with
  | JDict d => getitem d k
  | _ => Raise (TypeError "indices must be integers")
  end.

(** [dict(v)] of a configuration value that is a mapping. *)
Definition json_dict (v : json) : result (list (string * json)) :=
  match v with
  | JDict d => Ok d
  | _ => Raise (TypeError "object is not a mapping")
  end.

(** [v == s] for a string [s]. *)
Definition json_eq_str (v : json) (s : string) : bool :=
  match v with
  | JStr s' => String.eqb s' s
  | _ => false
  end.

(** ** Config fingerprint *)

(** [config_checksum(config, datagroup_key)].  The [print] and [yaml_pprint]
    calls only write to standard output; [datagroup_key] is not used. *)
Definition config_checksum (config : list (string * json)) (datagroup_key : string)
  : result (string * string) :=
  try features <- getitem config "features";
  try datasets <- getitem config "datasets";
  let md5input := JDict [("features", features); ("datasets", datasets)] in
  let json_str := dumps md5input +:+ newline in
  Ok (json_str, MD5.hexdigest json_str).

(** ** [os.path.join] (posixpath) *)

Definition join_step (path b : string) : string :=
  if startswith_char "/" b then b
  else if str_is_empty path || endswith_char "/" path then path +:+ b
  else path +:+ "/" +:+ b.

Definition os_path_join (a : string) (p : list string) : string :=
  fold_left join_step p a.

(** A path component that [os.path.join] appends after one separator:
    not empty, not absolute. *)
Definition relative_component (s : string) : Prop :=
  str_is_empty s = false ∧ startswith_char "/" s = false.

(** ** Feature cache location and marker file *)

(** The part of the merged datagroup configuration the cache code reads:
    [ds_config.get("persistent_features_cache", True)], any truthy value
    counting as [true]. *)
Definition features_cache_dir (cache_dir : string) (persistent_features_cache : bool)
  : string :=
  if persistent_features_cache then os_path_join cache_dir ["features"]
  else "/tmp/tensorflow-cache".

(** A path component must be a [str]. *)
Definition as_path_component (v : json) : result string :=
  match v with
  | JStr s => Ok s
  | _ => Raise (TypeError "expected str, bytes or os.PathLike object")
  end.

(** [Train.train], lines 332-341; [feat_config] is
    [experiment_config["features"]]. *)
Definition Train_features_cache_path (cache_dir : string) (persistent : bool)
    (datagroup_key : string) (feat_config : json) (conf_checksum : string)
  : result string :=
  let features_cache_dir := features_cache_dir cache_dir persistent in
  try ty <- json_getitem feat_config "type";
  try ty <- as_path_component ty;
  Ok (os_path_join features_cache_dir [datagroup_key; ty; conf_checksum]).

(** The marker step shared by both commands:
[[
  if not os.path.exists(features_cache_path + ".md5sum-input"):
      with open(features_cache_path + ".md5sum-input", "w") as f:
          print(conf_json, file=f, end='')
]]
    [print(x, file=f, end=e)] writes [str(x)] followed by [e]. *)
Definition print_to_string (parts : list string) (sep end_ : string) : string :=
  str_join sep parts +:+ end_.

Definition write_marker (fs : gmap string string) (features_cache_path : string)
    (conf_json : string) : gmap string string :=
  let marker := features_cache_path +:+ ".md5sum-input" in
  match fs !! marker with
  | Some _ => fs
  | None => <[marker := print_to_string [conf_json] " " EmptyString]> fs
  end.


(** The cache bookkeeping of one datagroup in [Train.train]: the
    fingerprint (line 324), the cache location (lines 332-341) and the
    marker (lines 343-345).  The result is the filesystem afterwards and
    [features_cache_path]. *)
Definition Train_cache_step (fs : gmap string string) (cache_dir : string)
    (persistent : bool) (experiment_config : list (string * json))
    (datagroup_key : string) : result (gmap string string * string) :=
  try feat_config <- getitem experiment_config "features";
  try '(conf_json, conf_checksum) <- config_checksum experiment_config datagroup_key;
  try features_cache_path <-
    Train_features_cache_path cache_dir persistent datagroup_key feat_config
                              conf_checksum;
  Ok (write_marker fs features_cache_path conf_json, features_cache_path).

(** ** Manifest parser *)

(** The ASCII characters [str.strip] removes. *)
Definition is_space (c : ascii) : bool :=
  let n := nat_of_ascii c in
  ((9 <=? n) && (n <=? 13) || (28 <=? n) && (n <=? 32))%nat.

(** Text-mode iteration over a file ends a line at a line feed or a
    carriage return. *)
Definition is_linebreak (c : ascii) : bool :=
  let n := nat_of_ascii c in ((n =? 10) || (n =? 13))%nat.

Fixpoint lstrip (s : string) : string :=
  match s with
  | String c s' => if is_space c then lstrip s' else s
  | EmptyString => EmptyString
  end.

Fixpoint rstrip (s : string) : string :=
  match s with
  | EmptyString => EmptyString
  | String c s' =>
      let r := rstrip s' in
      if is_space c && str_is_empty r then EmptyString else String c r
  end.

Definition strip (s : string) : string := rstrip (lstrip s).

(** [s.split(c)] for a one-character separator: the pieces between
    separators, empty pieces included. *)
Fixpoint split_on (p : ascii → bool) (s : string) : list string :=
  match s with
  | EmptyString => [EmptyString]
  | String c s' =>
      if p c then EmptyString :: split_on p s'
      else match split_on p s' with
           | [] => [String c EmptyString]
           | w :: ws => String c w :: ws
           end
  end.

Definition is_blank (c : ascii) : bool := Ascii.eqb c " ".

(** [parse_space_separated(path)], the generator run to its end. *)
Definition parse_space_separated (fs : gmap string string) (path : string)
  : result (list (list string)) :=
  match fs !! path with
  | None => Raise (FileNotFoundError path)
  | Some content =>
      Ok (map (split_on is_blank)
              (filter (fun l => negb (str_is_empty l))
                      (map strip (split_on is_linebreak content))))
  end.

(** ** Configuration read by [extract_features] *)

(** One entry of [ds_config["datagroups"]]; an absent optional key is [None]. *)
Record datagroup : Type := {
  dg_path : string;
  dg_utt2path : option string;
  dg_utt2label : option string;
  dg_utt2dur : option string;
  dg_seg2utt : option string;
  dg_shuffle_utt2path : option bool;
}.

(** One entry of the [datasets] list. *)
Record ds_config : Type := {
  ds_key : string;
  ds_labels : list string;
  ds_datagroups : list (string * datagroup);
}.

(** The command-line arguments [extract_features] reads. *)
Record args : Type := {
  verbosity : Z;
  shuffle_utt2path : bool;
  file_limit : option Z;
}.

(** [d.get(k, default)] on an optional field. *)
Definition get_default {A} (o : option A) (d : A) : A :=
  match o with Some a => a | None => d end.

(** [l[:n]] *)
Definition slice_to {A} (l : list A) (n : Z) : list A :=
  if 0 <=? n then take (Z.to_nat n) l
  else take (Z.to_nat (Z.of_nat (length l) + n)) l.

(** [d.pop(k)]: the value and the dict without the key. *)
Fixpoint dict_remove {V} (d : list (string * V)) (k : string) : list (string * V) :=
  match d with
  | [] => []
  | (k', v) :: d' => if String.eqb k k' then d' else (k', v) :: dict_remove d' k
  end.

Definition dict_pop {V} (d : list (string * V)) (k : string)
  : result (V * list (string * V)) :=
  try v <- getitem d k; Ok (v, dict_remove d k).

(** [collections.OrderedDict(row[:2] for row in rows)]: the slice of a
    one-field row has one item, which the constructor rejects. *)
Definition pairs_of_rows (rows : list (list string)) : result (list (string * string)) :=
  foldM (fun d row =>
           match row with
           | k :: v :: _ => Ok (setitem d k v)
           | _ => Raise (ValueError "dictionary update sequence element has length 1; 2 is required")
           end) [] rows.

(** The manifest locations of a datagroup (lines 147-148, 163, 213). *)
Definition utt2path_path (dg : datagroup) : string :=
  os_path_join (dg_path dg) [get_default (dg_utt2path dg) "utt2path"].
Definition utt2label_path (dg : datagroup) : string :=
  os_path_join (dg_path dg) [get_default (dg_utt2label dg) "utt2label"].
Definition utt2dur_path (dg : datagroup) : string :=
  os_path_join (dg_path dg) [get_default (dg_utt2dur dg) "utt2dur"].
Definition seg2utt_path (dg : datagroup) : string :=
  os_path_join (dg_path dg) ["segmented"; get_default (dg_seg2utt dg) "seg2utt"].

(** ** Utterance registry and backend dispatch *)

Section Registry.
(** Python floats: [float(s)], which fails on text that is not a number,
    and the constant [-1.0]. *)
Variable float : Type.
Variable float_of_string : string → option float.
Variable minus_one : float.

(** The reordering [random.shuffle] applies to the utterance list, given
    the state of the generator when it is called. *)
Variable random_shuffle : list string → list string.

(** A value of [utt2meta]. *)
Record meta : Type := {
  label : string;
  dataset : string;
  duration_sec : float;
}.

(** The three [tf_data] entry points with the arguments of their call
    sites. *)
Inductive feature_source : Type :=
| parse_sparsespeech_features
    (config : list (string * json)) (enc_path feat_path : json)
    (seg2utt utt2label : list (string * string))
| parse_kaldi_features
    (utterance_list : list string) (kaldi_feats_scp : json)
    (utt2label : list (string * string)) (expected_shape : json)
    (feat_conf : list (string * json))
| extract_features_from_paths
    (config : list (string * json)) (paths : list string)
    (paths_meta : list (string * string * string * float))
    (datagroup_key : string) (trim_audio debug_squeeze_last_dim : bool)
    (verbosity : Z).

Definition dup_label_msg (utt : string) : string :=
  "duplicate utterance id found when parsing labels: '" +:+ utt +:+ "'".
Definition dup_path_msg (utt : string) : string :=
  "duplicate utterance id found when parsing paths: '" +:+ utt +:+ "'".
Definition dur_msg (utt : string) : string :=
  "utterance id without label found when parsing durations: '" +:+ utt +:+ "'".
Definition mismatch_msg : string :=
  "Mismatching sets of utterances in utt2path and utt2meta, the utterance ids must be exactly the same".

Definition unpack_error : exception :=
  ValueError "not enough values to unpack (expected at least 2)".

(** Body of the loop over [utt2label] rows (lines 157-162). *)
Definition label_step (enabled_labels : gset string) (key : string)
    (st : gset string * list (string * meta)) (row : list string)
  : result (gset string * list (string * meta)) :=
  let '(skipped_utterances, utt2meta) := st in
  match row with
  | utt :: label :: _ =>
      if negb (bool_decide (label ∈ enabled_labels)) then
        Ok ({[utt]} ∪ skipped_utterances, utt2meta)
      else
        try _ <- assert (negb (contains utt2meta utt)) (dup_label_msg utt);
        Ok (skipped_utterances,
            setitem utt2meta utt
              {| label := label; dataset := key; duration_sec := minus_one |})
  | _ => Raise unpack_error
  end.

(** Body of the loop over [utt2dur] rows (lines 167-169). *)
Definition duration_step (utt2meta : list (string * meta)) (row : list string)
  : result (list (string * meta)) :=
  match row with
  | utt :: duration :: _ =>
      try _ <- assert (contains utt2meta utt) (dur_msg utt);
      match float_of_string duration, dict_get utt2meta utt with
      | Some d, Some m =>
          Ok (setitem utt2meta utt
                {| label := label m; dataset := dataset m; duration_sec := d |})
      | None, _ => Raise (ValueError "could not convert string to float")
      | _, None => Raise (KeyError utt)
      end
  | _ => Raise unpack_error
  end.

(** Body of the loop over [utt2path] rows (lines 175-179). *)
Definition path_step (skipped_utterances : gset string)
    (utt2path : list (string * string)) (row : list string)
  : result (list (string * string)) :=
  match row with
  | utt :: path :: _ =>
      if bool_decide (utt ∈ skipped_utterances) then Ok utt2path
      else
        try _ <- assert (negb (contains utt2path utt)) (dup_path_msg utt);
        Ok (setitem utt2path utt path)
  | _ => Raise unpack_error
  end.

(** The variables that live across iterations of the loop over datasets:
    the two ordered dicts and the variables the loop body assigns, of which
    [datagroup] is kept; they are unbound until the first iteration. *)
Definition merge_state : Type :=
  list (string * string) * list (string * meta) * option datagroup.

(** Body of the loop over [datasets] (lines 143-179). *)
Definition dataset_step (fs : gmap string string) (datagroup_key : string)
    (st : merge_state) (ds : ds_config) : result merge_state :=
  let '(utt2path, utt2meta, _) := st in
  try dg <- getitem (ds_datagroups ds) datagroup_key;
  let enabled_labels : gset string := list_to_set (ds_labels ds) in
  try rows <- parse_space_separated fs (utt2label_path dg);
  try '(skipped_utterances, utt2meta) <-
    foldM (label_step enabled_labels (ds_key ds)) (∅, utt2meta) rows;
  try utt2meta <-
    match fs !! utt2dur_path dg with
    | Some _ =>
        try rows <- parse_space_separated fs (utt2dur_path dg);
        foldM duration_step utt2meta rows
    | None => Ok utt2meta
    end;
  try rows <- parse_space_separated fs (utt2path_path dg);
  try utt2path <- foldM (path_step skipped_utterances) utt2path rows;
  Ok (utt2path, utt2meta, Some dg).

Definition merge_datasets (fs : gmap string string) (datagroup_key : string)
    (datasets : list ds_config) : result merge_state :=
  foldM (dataset_step fs datagroup_key) ([], [], None) datasets.

(** A read, after the loop over datasets, of a variable that only the loop
    body assigns: the name is bound once the body has run. *)
Definition bound_after_loop (name : string) (dg : option datagroup)
  : result datagroup :=
  match dg with
  | Some d => Ok d
  | None => Raise (NameError name)
  end.

(** Lines 180-182: above verbosity 1 the totals are printed, and the second
    line reads [skipped_utterances]. *)
Definition report_totals (a : args) (dg : option datagroup) : result unit :=
  if 1 <? verbosity a then
    try _ <- bound_after_loop "skipped_utterances" dg; Ok tt
  else Ok tt.

(** [set(utt2path) == set(utt2meta)] *)
Definition same_key_sets {A B} (d1 : list (string * A)) (d2 : list (string * B)) : bool :=
  bool_decide ((list_to_set (keys d1) : gset string) = list_to_set (keys d2)).

(** Lines 184-196: the consistency check, the optional shuffle and the
    optional truncation of the utterance list. *)
Definition select_utterances (a : args) (st : merge_state) : result (list string) :=
  let '(utt2path, utt2meta, dg) := st in
  try _ <- assert (same_key_sets utt2path utt2meta) mismatch_msg;
  let utterance_list := keys utt2path in
  try shuffle <-
    (if shuffle_utt2path a then Ok true
     else try dg <- bound_after_loop "datagroup" dg;
          Ok (get_default (dg_shuffle_utt2path dg) false));
  let utterance_list :=
    if shuffle : bool then random_shuffle utterance_list else utterance_list in
  Ok (match file_limit a with
      | Some n => if n =? 0 then utterance_list else slice_to utterance_list n
      | None => utterance_list
      end).

(** Lines 200-205. *)
Definition collect_paths (utt2path : list (string * string))
    (utt2meta : list (string * meta)) (utterance_list : list string)
  : result (list string * list (string * string * string * float)) :=
  foldM (fun acc utt =>
           let '(paths, paths_meta) := acc in
           try path <- getitem utt2path utt;
           try m <- getitem utt2meta utt;
           Ok ((paths ++ [path])%list,
               (paths_meta ++ [(utt, label m, dataset m, duration_sec m)])%list))
        ([], []) utterance_list.

(** The registry: everything [extract_features] computes before it
    selects a backend (lines 136-211). *)
Definition build_registry (fs : gmap string string) (a : args)
    (datasets : list ds_config) (datagroup_key : string)
  : result (list string * list string
            * list (string * string * string * float) * option datagroup) :=
  try st <- merge_datasets fs datagroup_key datasets;
  let '(utt2path, utt2meta, dg) := st in
  try _ <- report_totals a dg;
  try utterance_list <- select_utterances a st;
  try '(paths, paths_meta) <- collect_paths utt2path utt2meta utterance_list;
  Ok (utterance_list, paths, paths_meta, dg).

(** Lines 212-242.  Both precomputed-feature branches evaluate the name
    [utt2label], which no scope of the method binds, as the last argument
    of their call. *)
Definition dispatch (fs : gmap string string) (a : args)
    (config : list (string * json)) (datagroup_key : string)
    (trim_audio debug_squeeze_last_dim : bool)
    (utterance_list paths : list string)
    (paths_meta : list (string * string * string * float))
    (dg : option datagroup) : result feature_source :=
  try ty <- getitem config "type";
  if json_eq_str ty "sparsespeech" then
    try dg <- bound_after_loop "datagroup" dg;
    try rows <- parse_space_separated fs (seg2utt_path dg);
    try seg2utt <- pairs_of_rows rows;
    try sp <- getitem config "sparsespeech_paths";
    try out <- json_getitem sp "output";
    try enc_path <- json_getitem out datagroup_key;
    try sp <- getitem config "sparsespeech_paths";
    try inp <- json_getitem sp "input";
    try feat_path <- json_getitem inp datagroup_key;
    Raise (NameError "utt2label")
  else
    try ty <- getitem config "type";
    if json_eq_str ty "kaldi" then
      try dgs <- getitem config "datagroups";
      try feat_conf <- json_getitem dgs datagroup_key;
      try feat_conf <- json_dict feat_conf;
      try '(kaldi_feats_scp, feat_conf) <- dict_pop feat_conf "features_path";
      try '(expected_shape, feat_conf) <- dict_pop feat_conf "shape";
      Raise (NameError "utt2label")
    else
      Ok (extract_features_from_paths config paths paths_meta datagroup_key
            trim_audio debug_squeeze_last_dim (verbosity a)).

(** [E2EBase.extract_features(datasets, config, datagroup_key, trim_audio,
    debug_squeeze_last_dim)] *)
Definition extract_features (fs : gmap string string) (a : args)
    (datasets : list ds_config) (config : list (string * json))
    (datagroup_key : string) (trim_audio debug_squeeze_last_dim : bool)
  : result feature_source :=
  try '(utterance_list, paths, paths_meta, dg) <-
    build_registry fs a datasets datagroup_key;
  dispatch fs a config datagroup_key trim_audio debug_squeeze_last_dim
           utterance_list paths paths_meta dg.
(** The shuffle decision of line 186, given the datagroup the loop over
    datasets left in its variable. *)
Definition shuffle_enabled (a : args) (dg : option datagroup) : bool :=
  shuffle_utt2path a
  || match dg with
     | Some g => get_default (dg_shuffle_utt2path g) false
     | None => false
     end.

(** The order in effect before truncation. *)
Definition order_in_effect (a : args) (dg : option datagroup)
    (manifest_order : list string) : list string :=
  if shuffle_enabled a dg then random_shuffle manifest_order else manifest_order.

(** The utterance id of an element of [paths_meta]. *)
Definition meta_id (x : string * string * string * float) : string := x.1.1.1.

(** Both dicts of a merge state hold every key once. *)
Definition keys_distinct (st : merge_state) : Prop :=
  NoDup (keys st.1.1) ∧ NoDup (keys st.1.2).
End Registry.

Arguments meta_id {float} x.
Arguments keys_distinct {float} st.

(** ** Label encoding (TensorFlow operations used by [make_label2onehot]) *)

Module tf.
(** A rank-1 tensor is a list of its entries; the entries of a one-hot
    tensor are the floats 0.0 and 1.0, written [0] and [1]. *)
Definition vector : Type := list Z.

(** [tf.range(n)] *)
Definition range (n : nat) : list Z := map Z.of_nat (seq 0 n).

(** [tf.one_hot(indices, depth)]: an index outside [0, depth) gives a row
    of zeros. *)
Definition one_hot (indices : list Z) (depth : nat) : list vector :=
  map (fun i => map (fun j => if i =? j then 1 else 0) (range depth)) indices.

(** [tf.lookup.StaticHashTable(KeyValueTensorInitializer(keys, values),
    default_value)] *)
Record StaticHashTable : Type := {
  initializer : list (string * Z);
  default_value : Z;
}.

Definition lookup (t : StaticHashTable) (key : string) : Z :=
  get_default (dict_get (initializer t) key) (default_value t).

(** [t[i]] for a scalar index on the first axis: a negative index counts
    from the end, an index outside the axis is an error. *)
Definition getitem {A} (t : list A) (i : Z) : result A :=
  let n := Z.of_nat (length t) in
  let j := if i <? 0 then i + n else i in
  match (if (0 <=? j) && (j <? n) then t !! Z.to_nat j else None) with
  | Some row => Ok row
  | None => Raise (InvalidArgumentError "slice index out of bounds")
  end.

(** [tf.size(t)] of a rank-1 tensor. *)
Definition size (t : vector) : Z := Z.of_nat (length t).

(** [tf.zeros(n)] for a scalar shape. *)
Definition zeros (n : Z) : result vector :=
  if n <? 0 then Raise (InvalidArgumentError "dimension must be >= 0")
  else Ok (replicate (Z.to_nat n) 0).

(** [tf.concat(values, axis, name="concat")] on rank-1 tensors.  The
    parameter [axis] has no default: [None] is a call that passes only
    [values]. *)
Definition concat (values : list vector) (axis : option Z) : result vector :=
  match axis with
  | None => Raise (TypeError "concat() missing 1 required positional argument: 'axis'")
  | Some ax =>
      if (ax =? 0) || (ax =? -1) then Ok (List.concat values)
      else Raise (InvalidArgumentError "concat dimension out of range")
  end.
End tf.

(** [make_label2onehot(labels)].  The table is modelled for a vocabulary of
    distinct labels: TensorFlow refuses a repeated key when the table is
    built. *)
Definition make_label2onehot (labels : list string)
  : tf.StaticHashTable * list tf.vector :=
  let labels_enum := tf.range (length labels) in
  let label2int :=
    {| tf.initializer := zip labels labels_enum;
       tf.default_value := Z.of_nat (length labels) |} in
  let OH := tf.one_hot labels_enum (length labels) in
  (label2int, OH).

(** The closure [label2onehot] that [Train.train] and [Predict.predict]
    define from [experiment.get("onehot_dims")] (lines 292-300, 555-563). *)
Definition label2onehot (labels : list string) (onehot_dims : option Z)
    (label : string) : result tf.vector :=
  let '(label2int, OH) := make_label2onehot labels in
  match onehot_dims with
  | Some dims =>
      if dims =? 0 then tf.getitem OH (tf.lookup label2int label)
      else
        try o <- tf.getitem OH (tf.lookup label2int label);
        try z <- tf.zeros (dims - tf.size o);
        tf.concat [o; z] None
  | None => tf.getitem OH (tf.lookup label2int label)
  end.

(** ** Calls of [extract_features] *)

(** The parameters of [E2EBase.extract_features] after [self] (line 134);
    none of them has a default. *)
Definition extract_features_parameters : list string :=
  ["datasets"; "config"; "datagroup_key"; "trim_audio"; "debug_squeeze_last_dim"].

(** The parameters a call leaves without a value: those past its positional
    arguments that none of its keywords names. *)
Definition missing_arguments (parameters : list string) (positional : nat)
    (keywords : list string) : list string :=
  filter (fun p => p ∉ keywords) (drop positional parameters).

(** Binding of the arguments of a call to the parameters of a function
    whose parameters have no defaults.  A keyword that names no parameter or
    a parameter already given by position, a positional argument too many
    and a parameter left without a value are each a [TypeError], raised
    before the body runs.  The message here names the kind of mismatch and
    the parameters concerned. *)
Definition bind_arguments {V} (parameters : list string) (positional : list V)
    (keywords : list (string * V)) : result (list (string * V)) :=
  let by_position := zip parameters positional in
  if existsb (fun k => bool_decide (k ∉ parameters)) (keys keywords) then
    Raise (TypeError "unexpected keyword argument")
  else if existsb (contains by_position) (keys keywords) then
    Raise (TypeError "multiple values for argument")
  else if (length parameters <? length positional)%nat then
    Raise (TypeError "too many positional arguments")
  else
    match missing_arguments parameters (length positional) (keys keywords) with
    | [] => Ok (by_position ++ keywords)%list
    | missing =>
        Raise (TypeError ("missing required positional arguments: "
                          +:+ str_join ", " missing))
    end.

(** ** [Predict.predict] from the feature extraction on *)

Section Predict.
Context {features outputs : Type}.

(** The body of [extract_features] on its bound arguments, and the
    statements of lines 581-648, which consume the dataset it returns: the
    fingerprint, the cache location and its marker, the trials file, the
    predictions of the model and the scores file. *)
Variable extract_features_body : list (string * json) → result features.
Variable lines_581_648 : features → result outputs.

(** Lines 575-648:
[[
  features = self.extract_features(
      feat_config,
      "test",
      trim_audio=False,
      debug_squeeze_last_dim=(ds_config["input_shape"][-1] == 1),
  )
]]
    followed by lines 581-648.  Python evaluates the arguments before it
    binds them: [debug_squeeze_last_dim] is the outcome of the expression
    [ds_config["input_shape"][-1] == 1]. *)
Definition Predict_from_line_575 (feat_config : json)
    (debug_squeeze_last_dim : result json) : result outputs :=
  try debug_squeeze_last_dim <- debug_squeeze_last_dim;
  try arguments <-
    bind_arguments extract_features_parameters
      [feat_config; JStr "test"]
      [("trim_audio", JBool false);
       ("debug_squeeze_last_dim", debug_squeeze_last_dim)];
  try features <- extract_features_body arguments;
  lines_581_648 features.
End Predict.

(** ** The utterance ids the manifests define

    What the merging loop collects, read off the manifests: per dataset,
    the ids of the label rows with an enabled label, the ids of the label
    rows it rejects, and the ids of the path rows that are not rejected. *)

Definition manifest_rows (fs : gmap string string) (path : string) : list (list string) :=
  match parse_space_separated fs path with
  | inr rows => rows
  | inl _ => []
  end.

Definition kept_label_ids (labels : list string) (rows : list (list string)) : list string :=
  omap (fun row => match row with
                   | utt :: l :: _ => if bool_decide (l ∈ labels) then Some utt else None
                   | _ => None
                   end) rows.

Definition rejected_label_ids (labels : list string) (rows : list (list string))
  : list string :=
  omap (fun row => match row with
                   | utt :: l :: _ => if bool_decide (l ∈ labels) then None else Some utt
                   | _ => None
                   end) rows.

Definition kept_path_ids (skipped : gset string) (rows : list (list string)) : list string :=
  omap (fun row => match row with
                   | utt :: _ :: _ => if bool_decide (utt ∈ skipped) then None else Some utt
                   | _ => None
                   end) rows.

Definition dataset_label_defs (fs : gmap string string) (datagroup_key : string)
    (ds : ds_config) : list string :=
  match dict_get (ds_datagroups ds) datagroup_key with
  | Some dg => kept_label_ids (ds_labels ds) (manifest_rows fs (utt2label_path dg))
  | None => []
  end.

Definition dataset_path_defs (fs : gmap string string) (datagroup_key : string)
    (ds : ds_config) : list string :=
  match dict_get (ds_datagroups ds) datagroup_key with
  | Some dg =>
      kept_path_ids
        (list_to_set (rejected_label_ids (ds_labels ds)
                        (manifest_rows fs (utt2label_path dg))))
        (manifest_rows fs (utt2path_path dg))
  | None => []
  end.

(** Every definition of an id by a label manifest, in reading order, and
    likewise for the path manifests. *)
Definition label_defs (fs : gmap string string) (datagroup_key : string)
    (datasets : list ds_config) : list string :=
  concat (map (dataset_label_defs fs datagroup_key) datasets).

Definition path_defs (fs : gmap string string) (datagroup_key : string)
    (datasets : list ds_config) : list string :=
  concat (map (dataset_path_defs fs datagroup_key) datasets).

Definition label_ids (fs : gmap string string) (datagroup_key : string)
    (datasets : list ds_config) : gset string :=
  list_to_set (label_defs fs datagroup_key datasets).

Definition path_ids (fs : gmap string string) (datagroup_key : string)
    (datasets : list ds_config) : gset string :=
  list_to_set (path_defs fs datagroup_key datasets).


(** ** Example inputs *)

Module Examples.
Definition experiment_config : list (string * json) :=
  [("experiment", JDict [("name", JStr "xvector"); ("batch_size", JInt 32)]);
   ("features", JDict [("type", JStr "mfcc"); ("window", JFloat "0.025")]);
   ("datasets", JList [JDict [("key", JStr "d1");
                              ("labels", JList [JStr "en"; JStr "fr"])]]);
   ("dataset", JDict [("key", JStr "d1");
                      ("labels", JList [JStr "en"; JStr "fr"; JStr "de"])])].

(** The same experiment with other hyperparameters and key order. *)
Definition experiment_config' : list (string * json) :=
  [("datasets", JList [JDict [("key", JStr "d1");
                              ("labels", JList [JStr "en"; JStr "fr"])]]);
   ("experiment", JDict [("name", JStr "lstm"); ("batch_size", JInt 64);
                         ("onehot_dims", JInt 5)]);
   ("features", JDict [("type", JStr "mfcc"); ("window", JFloat "0.025")])].

Definition conf_json : string :=
  "{" +:+ dquote +:+ "datasets" +:+ dquote +:+ ": [{" +:+ dquote +:+ "key"
  +:+ dquote +:+ ": " +:+ dquote +:+ "d1" +:+ dquote +:+ ", " +:+ dquote
  +:+ "labels" +:+ dquote +:+ ": [" +:+ dquote +:+ "en" +:+ dquote +:+ ", "
  +:+ dquote +:+ "fr" +:+ dquote +:+ "]}], " +:+ dquote +:+ "features"
  +:+ dquote +:+ ": {" +:+ dquote +:+ "type" +:+ dquote +:+ ": " +:+ dquote
  +:+ "mfcc" +:+ dquote +:+ ", " +:+ dquote +:+ "window" +:+ dquote
  +:+ ": 0.025}}" +:+ newline.

Definition conf_checksum : string := "da6ed033e74b17e361fefa6b970117dc".

Definition cache_path : string :=
  "/cache/features/train/mfcc/da6ed033e74b17e361fefa6b970117dc".

Definition train_dg : datagroup :=
  {| dg_path := "/data/train"; dg_utt2path := None; dg_utt2label := None;
     dg_utt2dur := None; dg_seg2utt := None; dg_shuffle_utt2path := None |}.

Definition shuffled_dg : datagroup :=
  {| dg_path := "/data/train"; dg_utt2path := None; dg_utt2label := None;
     dg_utt2dur := None; dg_seg2utt := None; dg_shuffle_utt2path := Some true |}.

(** A dataset whose enabled label set is [{en}]. *)
Definition d1 : ds_config :=
  {| ds_key := "d1"; ds_labels := ["en"]; ds_datagroups := [("train", train_dg)] |}.

Definition d5 : ds_config :=
  {| ds_key := "d5"; ds_labels := ["en"; "fr"];
     ds_datagroups := [("train", shuffled_dg)] |}.

Definition lines (ls : list string) : string :=
  foldr (fun l rest => l +:+ newline +:+ rest) EmptyString ls.

Definition files (utt2label utt2path : list string) : gmap string string :=
  <["/data/train/utt2label" := lines utt2label]>
    (<["/data/train/utt2path" := lines utt2path]> ∅).

Definition plain_args : args :=
  {| verbosity := 0; shuffle_utt2path := false; file_limit := None |}.

Definition limit_args (n : Z) : args :=
  {| verbosity := 0; shuffle_utt2path := false; file_limit := Some n |}.

Definition mfcc : list (string * json) := [("type", JStr "mfcc")].

(** Floats as their text; the shuffle that reverses the list. *)
Definition float_of_string (s : string) : option string := Some s.
Definition minus_one : string := "-1.0".
Definition reversing_shuffle (l : list string) : list string := reverse l.

Abbreviation merge := (merge_datasets string float_of_string minus_one).
Abbreviation registry :=
  (build_registry string float_of_string minus_one reversing_shuffle).
Abbreviation extract :=
  (extract_features string float_of_string minus_one reversing_shuffle).

(** The metadata of an [en] utterance of [d1] without a duration. *)
Definition unknown : meta string :=
  {| label := "en"; dataset := "d1"; duration_sec := "-1.0" |}.

End Examples.

(** ** Where a registry entry comes from *)

(** Some dataset of the run has, in the label manifest of the datagroup, a
    row that gives [utt] the label [l]; [l] is one of its enabled labels
    and [key] is its key. *)
Definition labelled_by (fs : gmap string string) (datagroup_key : string)
    (datasets : list ds_config) (utt l key : string) : Prop :=
  ∃ ds dg rest,
    ds ∈ datasets ∧ dict_get (ds_datagroups ds) datagroup_key = Some dg ∧
    (utt :: l :: rest) ∈ manifest_rows fs (utt2label_path dg) ∧
    l ∈ ds_labels ds ∧ key = ds_key ds.

(** Some dataset of the run has, in the path manifest of the datagroup, a
    row that gives [utt] the path [path]. *)
Definition located_by (fs : gmap string string) (datagroup_key : string)
    (datasets : list ds_config) (utt path : string) : Prop :=
  ∃ ds dg rest,
    ds ∈ datasets ∧ dict_get (ds_datagroups ds) datagroup_key = Some dg ∧
    (utt :: path :: rest) ∈ manifest_rows fs (utt2path_path dg).

(** Every value of [utt2path] and of [utt2meta] is backed by a manifest
    row. *)
Definition backed_by_rows {float : Type} (fs : gmap string string)
    (datagroup_key : string) (datasets : list ds_config)
    (st : merge_state float) : Prop :=
  (∀ utt path, dict_get st.1.1 utt = Some path →
               located_by fs datagroup_key datasets utt path) ∧
  (∀ utt x, dict_get st.1.2 utt = Some x →
            labelled_by fs datagroup_key datasets utt (label float x)
                        (dataset float x)).

(** Every value of [utt2meta] has the duration [d]. *)
Definition durations_are {float : Type} (d : float)
    (m : list (string * meta float)) : Prop :=
  ∀ utt x, dict_get m utt = Some x → duration_sec float x = d.

(** ** Prediction: utterance selection *)

(** [Predict.predict], lines 540-547: both manifests are read into ordered
    dicts, a later row replacing an earlier one with the same id. *)
Definition Predict_manifests (fs : gmap string string) (dg : datagroup)
  : result (list (string * string) * list (string * string)) :=
  try rows <- parse_space_separated fs (utt2path_path dg);
  try utt2path <- pairs_of_rows rows;
  try rows <- parse_space_separated fs (utt2label_path dg);
  try utt2label <- pairs_of_rows rows;
  Ok (utt2path, utt2label).

(** Body of the loop of lines 567-572. *)
Definition Predict_select_step (utt2path utt2label : list (string * string))
    (labels_set : gset string) (acc : list string * list (string * string))
    (utt : string) : result (list string * list (string * string)) :=
  let '(paths, paths_meta) := acc in
  try label <- getitem utt2label utt;
  if negb (bool_decide (label ∈ labels_set)) then Ok acc
  else
    try path <- getitem utt2path utt;
    Ok ((paths ++ [path])%list, (paths_meta ++ [(utt, label)])%list).

(** [Predict.predict], lines 548-553 and 564-572: the utterance list is the
    key order of [utt2path], truncated by the file limit; utterances whose
    label is outside the vocabulary are left out. *)
Definition Predict_select (a : args) (utt2path utt2label : list (string * string))
    (int2label : list string) : result (list string * list (string * string)) :=
  let utterance_list := keys utt2path in
  let utterance_list :=
    match file_limit a with
    | Some n => if n =? 0 then utterance_list else slice_to utterance_list n
    | None => utterance_list
    end in
  let labels_set : gset string := list_to_set int2label in
  foldM (Predict_select_step utt2path utt2label labels_set) ([], []) utterance_list.

(** The entry of [paths_meta] that the selection loop makes of [utt], if
    any: the utterance with its label, when the label is in the vocabulary. *)
Definition Predict_kept (utt2label : list (string * string)) (int2label : list string)
    (utt : string) : option (string * string) :=
  match dict_get utt2label utt with
  | Some l => if bool_decide (l ∈ int2label) then Some (utt, l) else None
  | None => None
  end.

(** ** Model callbacks ([E2EBase.create_model]) *)

(** [E2EBase.get_checkpoint_dir] *)
Definition get_checkpoint_dir (cache_dir model_id : string) : string :=
  let model_cache_dir := os_path_join cache_dir [model_id] in
  os_path_join model_cache_dir ["checkpoints"].

(** [dict(d, **e)]: the items of [d], updated and extended by those of [e]. *)
Definition dict_update {V} (d e : list (string * V)) : list (string * V) :=
  fold_left (fun acc kv => setitem acc kv.1 kv.2) e d.

(** The keys of the experiment configuration that [create_model] reads, an
    absent key being [None]; "tensorboard" and "checkpoints" hold
    mappings. *)
Record model_config : Type := {
  mc_tensorboard : option (list (string * json));
  mc_checkpoints : option (list (string * json));
  mc_early_stopping : option json;
  mc_other_callbacks : option json;
}.

Definition default_checkpoint_format : string := "epoch{epoch:06d}.hdf5".

(** [create_model], lines 102-124: the keyword arguments prepared for
    [models.KerasWrapper], together with the "checkpoints" mapping as the
    call leaves it in the caller's configuration (its "format" key is
    popped).  [now] is the value of [now_str()]. *)
Definition callbacks_kwargs (cache_dir model_id now : string) (config : model_config)
  : result (list (string * json) * option (list (string * json))) :=
  let model_cache_dir := os_path_join cache_dir [model_id] in
  let tensorboard_log_dir := os_path_join model_cache_dir ["tensorboard"; "logs"] in
  let tensorboard_dir := os_path_join tensorboard_log_dir [now] in
  let default_tensorboard_config :=
    [("log_dir", JStr tensorboard_dir); ("profile_batch", JInt 0);
     ("histogram_freq", JInt 1)] in
  let tensorboard_config :=
    dict_update default_tensorboard_config (get_default (mc_tensorboard config) []) in
  let checkpoint_dir := get_checkpoint_dir cache_dir model_id in
  try '(checkpoint_format, checkpoints) <-
    match mc_checkpoints config with
    | Some c =>
        if contains c "format" then
          try '(f, c') <- dict_pop c "format"; Ok (f, Some c')
        else Ok (JStr default_checkpoint_format, Some c)
    | None => Ok (JStr default_checkpoint_format, None)
    end;
  try checkpoint_format <- as_path_component checkpoint_format;
  let default_checkpoints_config :=
    [("filepath", JStr (os_path_join checkpoint_dir [checkpoint_format]))] in
  let checkpoints_config :=
    dict_update default_checkpoints_config (get_default checkpoints []) in
  Ok ([("checkpoints", JDict checkpoints_config);
       ("early_stopping", get_default (mc_early_stopping config) JNull);
       ("tensorboard", JDict tensorboard_config);
       ("other_callbacks", get_default (mc_other_callbacks config) (JList []))],
      checkpoints).

(** ** Vocabulary of a training run with a dataset file *)

Fixpoint insert_sorted (x : string) (l : list string) : list string :=
  match l with
  | [] => [x]
  | y :: l' => if String.leb x y then x :: l else y :: insert_sorted x l'
  end.

(** [sorted(l)] on strings. *)
Definition sorted (l : list string) : list string := foldr insert_sorted [] l.

(** [sorted(set(l))]: the set is iterated in some order of its own. *)
Definition sorted_set (l : list string) : list string :=
  sorted (elements (list_to_set l : gset string)).

(** [Train.train], lines 288-289: the datasets of the dataset file whose key
    the experiment enables, and the labels of the run. *)
Definition select_datasets (dataset_config : list ds_config) (enabled : list string)
  : list ds_config :=
  filter (fun d => ds_key d ∈ enabled) dataset_config.

Definition Train_labels (dataset_config : list ds_config) (enabled : list string)
  : list string :=
  sorted_set (concat (map ds_labels (select_datasets dataset_config enabled))).

(** ** Settings of one datagroup *)

(** [**v]: the value that is unpacked must be a mapping. *)
Definition as_mapping (v : json) : result (list (string * json)) :=
  match v with
  | JDict d => Ok d
  | _ => Raise (TypeError "argument after ** must be a mapping")
  end.

(** [del d[k]] *)
Definition dict_del {V} (d : list (string * V)) (k : string)
  : result (list (string * V)) :=
  if contains d k then Ok (dict_remove d k) else Raise (KeyError k).

(** [Train.train], lines 319-320, and [Predict.predict], lines 534-535:
[[
  ds_config = dict(training_config, **training_config[ds])
  del ds_config["train"], ds_config["validation"]
]]
    The lines up to the [pop] of "datagroup" only read [ds_config]. *)
Definition split_config (training_config : list (string * json)) (ds : string)
  : result (list (string * json)) :=
  try section <- getitem training_config ds;
  try section <- as_mapping section;
  let ds_config := dict_update training_config section in
  try ds_config <- dict_del ds_config "train";
  dict_del ds_config "validation".

(** The truth value of a configuration value in a condition. *)
Definition truthy (v : json) : bool :=
  match v with
  | JNull => false
  | JBool b => b
  | JInt z => negb (z =? 0)
  | JFloat repr => negb (String.eqb repr "0.0" || String.eqb repr "-0.0")
  | JStr s => negb (str_is_empty s)
  | JList [] => false
  | JList (_ :: _) => true
  | JDict [] => false
  | JDict (_ :: _) => true
  end.

(** [ds_config.get("persistent_features_cache", True)] as a condition
    (lines 332 and 593). *)
Definition persistent_features_cache (ds_config : list (string * json)) : bool :=
  match dict_get ds_config "persistent_features_cache" with
  | Some v => truthy v
  | None => true
  end.

(** An experiment section whose validation datagroup overrides two
    experiment-level settings, and one without a validation section. *)
Definition example_training_config : list (string * json) :=
  [("name", JStr "m");
   ("persistent_features_cache", JBool true);
   ("batch_size", JInt 32);
   ("train", JDict [("datagroup", JStr "train")]);
   ("validation",
    JDict [("datagroup", JStr "dev"); ("batch_size", JInt 64);
           ("persistent_features_cache", JInt 0)])].

Definition example_validation_section : list (string * json) :=
  [("datagroup", JStr "dev"); ("batch_size", JInt 64);
   ("persistent_features_cache", JInt 0)].

Definition example_validation_settings : list (string * json) :=
  [("name", JStr "m");
   ("persistent_features_cache", JInt 0);
   ("batch_size", JInt 64);
   ("datagroup", JStr "dev")].

Definition example_config_without_validation : list (string * json) :=
  [("name", JStr "m"); ("train", JDict [("datagroup", JStr "train")])].

(** * Properties *)

(** ** Fingerprint *)

Lemma rbind_Ok {A B} (m : result A) (k : A → result B) (b : B) :
  rbind m k = Ok b → ∃ a, m = Ok a ∧ k a = Ok b.
Proof. destruct m as [e|a]; simpl; [discriminate | eauto]. Qed.

Lemma getitem_dict_get {V} (d : list (string * V)) (k : string) (v : V) :
  getitem d k = Ok v ↔ dict_get d k = Some v.
Proof.
  unfold getitem. destruct (dict_get d k); split; intros H;
    try discriminate; inversion H; reflexivity.
Qed.

(** C1: two configurations with equal values under the keys "features" and
    "datasets" get the same canonical JSON and the same digest from
    [config_checksum], whatever the other keys hold and whatever datagroup
    key is passed. *)
Theorem config_checksum_only_reads_features_and_datasets
    (C1 C2 : list (string * json)) (k k' : string) :
  dict_get C1 "features" = dict_get C2 "features" →
  dict_get C1 "datasets" = dict_get C2 "datasets" →
  config_checksum C1 k = config_checksum C2 k'.
Proof.
  intros Hf Hd. unfold config_checksum, getitem. rewrite Hf, Hd. reflexivity.
Qed.

Lemma config_checksum_only_reads_features_and_datasets_witness :
  config_checksum Examples.experiment_config "train"
  = config_checksum Examples.experiment_config' "validation".
Proof.
  apply config_checksum_only_reads_features_and_datasets; reflexivity.
Defined.

Example config_checksum_example :
  config_checksum Examples.experiment_config "train"
  = Ok (Examples.conf_json, Examples.conf_checksum).
Proof. vm_compute. reflexivity. Qed.

(** ** Cache marker *)

Lemma endswith_char_app (c : ascii) (s : string) :
  endswith_char c (s +:+ String c EmptyString) = true.
Proof.
  induction s as [|a s IH].
  - simpl. apply Ascii.eqb_refl.
  - change (String a s +:+ String c EmptyString)
      with (String a (s +:+ String c EmptyString)).
    destruct (s +:+ String c EmptyString) eqn:E; [|exact IH].
    destruct s; discriminate.
Qed.

Lemma append_empty_r (s : string) : s +:+ EmptyString = s.
Proof.
  induction s as [|c s IH]; [reflexivity|].
  change (String c (s +:+ EmptyString) = String c s). now rewrite IH.
Qed.

Lemma write_marker_new (fs : gmap string string) (path conf_json : string) :
  fs !! (path +:+ ".md5sum-input") = None →
  write_marker fs path conf_json !! (path +:+ ".md5sum-input") = Some conf_json.
Proof.
  intros Hnew. unfold write_marker. rewrite Hnew, lookup_insert_eq.
  unfold print_to_string. simpl. f_equal. apply append_empty_r.
Qed.

Lemma write_marker_existing (fs : gmap string string) (path conf_json old : string) :
  fs !! (path +:+ ".md5sum-input") = Some old →
  write_marker fs path conf_json = fs.
Proof. intros Hold. unfold write_marker. now rewrite Hold. Qed.

(** C8, as the code has it: for a newly created cache entry the marker file
    holds exactly the canonical JSON whose MD5 digest is the fingerprint.
    That text is the sorted-key serialisation of the two subtrees followed
    by one line feed, so the marker ends with that line feed; the [print]
    that writes it adds nothing after it. *)
Theorem marker_holds_canonical_json
    (fs fs' : gmap string string) (cache_dir : string) (persistent : bool)
    (config : list (string * json)) (datagroup_key path : string) :
  Train_cache_step fs cache_dir persistent config datagroup_key = Ok (fs', path) →
  fs !! (path +:+ ".md5sum-input") = None →
  ∃ features datasets conf_json,
    dict_get config "features" = Some features ∧
    dict_get config "datasets" = Some datasets ∧
    conf_json
      = dumps (JDict [("features", features); ("datasets", datasets)]) +:+ newline ∧
    config_checksum config datagroup_key = Ok (conf_json, MD5.hexdigest conf_json) ∧
    fs' !! (path +:+ ".md5sum-input") = Some conf_json ∧
    endswith_char (ascii_of_nat 10) conf_json = true.
Proof.
  intros Hstep Hnew. unfold Train_cache_step in Hstep.
  apply rbind_Ok in Hstep as (feat_config & Hfeat & Hstep).
  apply rbind_Ok in Hstep as ([conf_json sum] & Hsum & Hstep).
  apply rbind_Ok in Hstep as (p & Hpath & Hstep).
  inversion Hstep; subst fs' p; clear Hstep.
  unfold config_checksum in Hsum |- *.
  apply getitem_dict_get in Hfeat. unfold getitem in Hsum |- *.
  rewrite Hfeat in Hsum |- *. simpl in Hsum |- *.
  destruct (dict_get config "datasets") as [datasets|] eqn:Hd; [|discriminate].
  simpl in Hsum |- *. inversion Hsum; subst conf_json sum; clear Hsum.
  exists feat_config, datasets. eexists. repeat split.
  - now apply write_marker_new.
  - apply endswith_char_app.
Qed.

Example Train_cache_step_example (fs : gmap string string) :
  Train_cache_step fs "/cache" true Examples.experiment_config "train"
  = Ok (write_marker fs Examples.cache_path Examples.conf_json, Examples.cache_path).
Proof.
  unfold Train_cache_step. rewrite config_checksum_example.
  replace (getitem Examples.experiment_config "features")
    with (Ok (JDict [("type", JStr "mfcc"); ("window", JFloat "0.025")]))
    by reflexivity.
  cbn [rbind Ok].
  replace (Train_features_cache_path _ _ _ _ _) with (Ok Examples.cache_path)
    by (vm_compute; reflexivity).
  reflexivity.
Qed.

Lemma marker_holds_canonical_json_witness :
  ∃ features datasets conf_json,
    dict_get Examples.experiment_config "features" = Some features ∧
    dict_get Examples.experiment_config "datasets" = Some datasets ∧
    conf_json
      = dumps (JDict [("features", features); ("datasets", datasets)]) +:+ newline ∧
    config_checksum Examples.experiment_config "train"
      = Ok (conf_json, MD5.hexdigest conf_json) ∧
    write_marker ∅ Examples.cache_path Examples.conf_json
      !! (Examples.cache_path +:+ ".md5sum-input") = Some conf_json ∧
    endswith_char (ascii_of_nat 10) conf_json = true.
Proof.
  apply (marker_holds_canonical_json ∅ _ "/cache" true
           Examples.experiment_config "train" Examples.cache_path).
  - apply Train_cache_step_example.
  - apply lookup_empty.
Defined.

(** C8 as stated fails: the marker written for a new cache entry ends with
    a line break. *)
Lemma marker_ends_with_line_break :
  ∃ fs' path content,
    Train_cache_step ∅ "/cache" true Examples.experiment_config "train"
      = Ok (fs', path) ∧
    fs' !! (path +:+ ".md5sum-input") = Some content ∧
    content = Examples.conf_json ∧
    endswith_char (ascii_of_nat 10) content = true.
Proof.
  exists (write_marker ∅ Examples.cache_path Examples.conf_json),
    Examples.cache_path, Examples.conf_json.
  split; [apply Train_cache_step_example|].
  split; [apply write_marker_new, lookup_empty|].
  split; [reflexivity | vm_compute; reflexivity].
Qed.

(** ** The feature-extraction call of the prediction command *)

(** The call of line 575 gives two arguments by position and two by
    keyword, which leaves [datagroup_key] without a value. *)
Lemma Predict_call_misses_datagroup_key {V} (feat_config test trim squeeze : V) :
  bind_arguments extract_features_parameters [feat_config; test]
    [("trim_audio", trim); ("debug_squeeze_last_dim", squeeze)]
  = Raise (TypeError "missing required positional arguments: datagroup_key").
Proof. reflexivity. Qed.

(** From line 575 on, a prediction run raises: the exception of the
    argument expression, or the [TypeError] of the call. *)
Lemma Predict_raises_at_line_575 {features outputs : Type}
    (extract_features_body : list (string * json) → result features)
    (lines_581_648 : features → result outputs)
    (feat_config : json) (debug_squeeze_last_dim : result json) :
  Predict_from_line_575 extract_features_body lines_581_648 feat_config
                        debug_squeeze_last_dim
  = Raise match debug_squeeze_last_dim with
          | inl e => e
          | inr _ =>
              TypeError "missing required positional arguments: datagroup_key"
          end.
Proof.
  unfold Predict_from_line_575.
  destruct debug_squeeze_last_dim as [e|squeeze]; [reflexivity|].
  cbn [rbind Ok]. now rewrite Predict_call_misses_datagroup_key.
Qed.

(** ** Cache location *)

Lemma endswith_char_nonempty_app (c : ascii) (s t : string) :
  t ≠ EmptyString → endswith_char c (s +:+ t) = endswith_char c t.
Proof.
  intros Ht. induction s as [|a s IH]; [reflexivity|].
  change (String a s +:+ t) with (String a (s +:+ t)).
  destruct (s +:+ t) eqn:E; [|exact IH].
  destruct s; [|discriminate]. simpl in E. contradiction.
Qed.

Lemma join_step_relative (path b : string) :
  str_is_empty path = false → endswith_char "/" path = false →
  relative_component b →
  join_step path b = path +:+ "/" +:+ b.
Proof.
  intros Hne Hend [_ Hrel]. unfold join_step. now rewrite Hrel, Hne, Hend.
Qed.

(** C9: the training path places the cache of a datagroup at
    cache_root / datagroup_key / feature_type / digest.  The prediction path
    computes no cache location: its run raises at the call of
    [extract_features] of line 575, before lines 593-603, whatever the
    statements after the call are. *)
Theorem cache_location
    {features outputs : Type}
    (cache_dir : string) (persistent : bool) (datagroup_key ty : string)
    (feat_config : json) (conf_checksum : string)
    (extract_features_body : list (string * json) → result features)
    (lines_581_648 : features → result outputs)
    (debug_squeeze_last_dim : result json) :
  json_getitem feat_config "type" = Ok (JStr ty) →
  let cache_root := features_cache_dir cache_dir persistent in
  Train_features_cache_path cache_dir persistent datagroup_key feat_config
                            conf_checksum
  = Ok (os_path_join cache_root [datagroup_key; ty; conf_checksum]) ∧
  Predict_from_line_575 extract_features_body lines_581_648 feat_config
                        debug_squeeze_last_dim
  = Raise match debug_squeeze_last_dim with
          | inl e => e
          | inr _ =>
              TypeError "missing required positional arguments: datagroup_key"
          end.
Proof.
  intros Hty cache_root. split; [|apply Predict_raises_at_line_575].
  unfold Train_features_cache_path. rewrite Hty. reflexivity.
Qed.

Lemma cache_location_witness :
  Train_features_cache_path "/cache" true "train"
    (JDict [("type", JStr "mfcc"); ("window", JFloat "0.025")])
    Examples.conf_checksum
  = Ok "/cache/features/train/mfcc/da6ed033e74b17e361fefa6b970117dc" ∧
  Predict_from_line_575 (fun _ => Ok tt) (fun _ => Ok "/cache/features/test")
    (JDict [("type", JStr "mfcc"); ("window", JFloat "0.025")])
    (Ok (JBool false))
  = Raise (TypeError "missing required positional arguments: datagroup_key").
Proof.
  apply (cache_location "/cache" true "train" "mfcc"
           (JDict [("type", JStr "mfcc"); ("window", JFloat "0.025")])
           Examples.conf_checksum (fun _ => Ok tt)
           (fun _ => Ok "/cache/features/test") (Ok (JBool false))).
  reflexivity.
Defined.

(** With plain components the training location is the four parts joined by
    single separators. *)
Lemma Train_features_cache_path_plain
    (cache_dir : string) (persistent : bool) (datagroup_key ty : string)
    (feat_config : json) (conf_checksum : string) :
  json_getitem feat_config "type" = Ok (JStr ty) →
  let cache_root := features_cache_dir cache_dir persistent in
  str_is_empty cache_root = false → endswith_char "/" cache_root = false →
  relative_component datagroup_key → endswith_char "/" datagroup_key = false →
  relative_component ty → endswith_char "/" ty = false →
  relative_component conf_checksum →
  Train_features_cache_path cache_dir persistent datagroup_key feat_config
                            conf_checksum
  = Ok (cache_root +:+ "/" +:+ datagroup_key +:+ "/" +:+ ty +:+ "/" +:+ conf_checksum).
Proof.
  intros Hty cache_root Hne Hend Hk Hkend Ht Htend Hc.
  unfold Train_features_cache_path. rewrite Hty. cbn [rbind Ok as_path_component].
  fold cache_root. unfold os_path_join. cbn [fold_left]. f_equal.
  assert (Hnonempty : ∀ s t, str_is_empty t = false → str_is_empty (s +:+ t) = false).
  { intros s t Hs. destruct s; [exact Hs | reflexivity]. }
  assert (Hslash : ∀ s t, str_is_empty t = false → endswith_char "/" t = false →
                          endswith_char "/" (s +:+ "/" +:+ t) = false).
  { intros s t Hs He. rewrite endswith_char_nonempty_app by discriminate.
    change ("/" +:+ t) with (String "/" t). destruct t; [discriminate | exact He]. }
  rewrite (join_step_relative cache_root) by assumption.
  rewrite (join_step_relative (cache_root +:+ "/" +:+ datagroup_key));
    [| apply Hnonempty; reflexivity | apply Hslash; [apply Hk | assumption] | assumption].
  rewrite join_step_relative;
    [| apply Hnonempty; reflexivity | apply Hslash; [apply Ht | assumption] | assumption].
  assert (Hassoc : ∀ a b c : string, (a +:+ b) +:+ c = a +:+ (b +:+ c)).
  { intros a b c. induction a as [|x a IH]; [reflexivity|].
    change (String x ((a +:+ b) +:+ c) = String x (a +:+ (b +:+ c))). now rewrite IH. }
  now rewrite !Hassoc.
Qed.

(** ** Label encoding *)

Lemma dict_get_zip_absent (labels : list string) (values : list Z) (label : string) :
  label ∉ labels → dict_get (zip labels values) label = None.
Proof.
  revert values. induction labels as [|l labels IH]; intros values Hnotin.
  - reflexivity.
  - destruct values as [|v values]; [reflexivity|]. simpl.
    destruct (String.eqb label l) eqn:E.
    + apply String.eqb_eq in E. subst l. exfalso. apply Hnotin. left.
    + apply IH. intros Hin. apply Hnotin. now right.
Qed.

Lemma one_hot_length (indices : list Z) (depth : nat) :
  length (tf.one_hot indices depth) = length indices.
Proof. unfold tf.one_hot. apply length_map. Qed.

Lemma range_length (n : nat) : length (tf.range n) = n.
Proof. unfold tf.range. now rewrite length_map, length_seq. Qed.

Lemma getitem_past_the_end {A} (t : list A) :
  tf.getitem t (Z.of_nat (length t))
  = Raise (InvalidArgumentError "slice index out of bounds").
Proof.
  unfold tf.getitem.
  destruct (Z.ltb_spec (Z.of_nat (length t)) 0) as [Hneg|_]; [lia|].
  now rewrite Z.ltb_irrefl, andb_false_r.
Qed.

(** C5: with the vocabulary [en, fr, de] and no [onehot_dims], [fr] is
    encoded as [0,1,0].  With [onehot_dims = 5] the encoder does not return
    the padded vector for [en]: its call of [tf.concat] passes no axis and
    raises. *)
Theorem label2onehot_examples :
  label2onehot ["en"; "fr"; "de"] None "fr" = Ok [0; 1; 0] ∧
  label2onehot ["en"; "fr"; "de"] (Some 5) "en"
  = Raise (TypeError "concat() missing 1 required positional argument: 'axis'").
Proof. split; vm_compute; reflexivity. Qed.

(** The operands [tf.concat] receives in that call are the one-hot row and
    the zero padding. *)
Example onehot_dims_operands :
  let '(label2int, OH) := make_label2onehot ["en"; "fr"; "de"] in
  tf.getitem OH (tf.lookup label2int "en") = Ok [1; 0; 0] ∧
  tf.zeros (5 - tf.size [1; 0; 0]) = Ok [0; 0] ∧
  tf.concat [[1; 0; 0]; [0; 0]] (Some 0) = Ok [1; 0; 0; 0; 0].
Proof. repeat split; vm_compute; reflexivity. Qed.

(** C6: for a vocabulary of distinct labels, a label outside it is looked
    up as the index one past the last label, the one-hot table has no row
    at that index, and the encoder raises on it, with or without
    [onehot_dims]. *)
Theorem unknown_label_is_out_of_range
    (labels : list string) (label : string) (onehot_dims : option Z) :
  NoDup labels → labels ≠ [] → label ∉ labels →
  let '(label2int, OH) := make_label2onehot labels in
  tf.lookup label2int label = Z.of_nat (length labels) ∧
  tf.getitem OH (Z.of_nat (length labels))
  = Raise (InvalidArgumentError "slice index out of bounds") ∧
  label2onehot labels onehot_dims label
  = Raise (InvalidArgumentError "slice index out of bounds").
Proof.
  intros _ _ Hnotin. unfold label2onehot, make_label2onehot.
  assert (Hlookup :
    tf.lookup {| tf.initializer := zip labels (tf.range (length labels));
                 tf.default_value := Z.of_nat (length labels) |} label
    = Z.of_nat (length labels)).
  { unfold tf.lookup. cbn [tf.initializer tf.default_value].
    now rewrite dict_get_zip_absent. }
  assert (Hrow :
    tf.getitem (tf.one_hot (tf.range (length labels)) (length labels))
               (Z.of_nat (length labels))
    = Raise (InvalidArgumentError "slice index out of bounds")).
  { rewrite <- (range_length (length labels)) at 3.
    rewrite <- (one_hot_length _ (length labels)). apply getitem_past_the_end. }
  split; [exact Hlookup|]. split; [exact Hrow|].
  rewrite Hlookup, Hrow.
  destruct onehot_dims as [dims|]; [destruct (dims =? 0)|]; reflexivity.
Qed.

Lemma unknown_label_is_out_of_range_witness :
  let '(label2int, OH) := make_label2onehot ["en"; "fr"; "de"] in
  tf.lookup label2int "es" = 3 ∧
  tf.getitem OH 3 = Raise (InvalidArgumentError "slice index out of bounds") ∧
  label2onehot ["en"; "fr"; "de"] None "es"
  = Raise (InvalidArgumentError "slice index out of bounds").
Proof.
  apply (unknown_label_is_out_of_range ["en"; "fr"; "de"] "es" None).
  - apply (bool_decide_unpack _). vm_compute. exact I.
  - discriminate.
  - rewrite !elem_of_cons, elem_of_nil. intros [H|[H|[H|H]]]; try discriminate H.
    exact H.
Defined.

(** ** Scores file *)

(** C7: no prediction run reaches the scores writer of lines 640-646.
    From line 575 on the run raises, whatever the statements after the call
    of [extract_features] are: the call leaves [datagroup_key] without a
    value, a [TypeError], unless the expression of its last argument has
    raised before. *)
Theorem scores_are_never_written
    {features outputs : Type}
    (extract_features_body : list (string * json) → result features)
    (lines_581_648 : features → result outputs)
    (feat_config : json) (debug_squeeze_last_dim : result json) :
  Predict_from_line_575 extract_features_body lines_581_648 feat_config
                        debug_squeeze_last_dim
  = Raise match debug_squeeze_last_dim with
          | inl e => e
          | inr _ =>
              TypeError "missing required positional arguments: datagroup_key"
          end.
Proof. apply Predict_raises_at_line_575. Qed.

(** ** Registry construction *)

Lemma foldM_app {A S} (f : S → A → result S) (s : S) (l1 l2 : list A) :
  foldM f s (l1 ++ l2) = rbind (foldM f s l1) (fun s' => foldM f s' l2).
Proof.
  revert s. induction l1 as [|x l1 IH]; intros s; simpl; [reflexivity|].
  destruct (f s x) as [e|s']; simpl; [reflexivity | apply IH].
Qed.

Lemma foldM_invariant {A S} (P : S → Prop) (f : S → A → result S) (l : list A) :
  (∀ s x s', P s → f s x = Ok s' → P s') →
  ∀ s s', P s → foldM f s l = Ok s' → P s'.
Proof.
  intros Hstep. induction l as [|x l IH]; intros s s' Hs Hfold; simpl in Hfold.
  - injection Hfold as <-. exact Hs.
  - apply rbind_Ok in Hfold as (s1 & Hf & Hfold). eauto.
Qed.

Lemma assert_Ok (cond : bool) (msg : string) (u : unit) :
  assert cond msg = Ok u → cond = true.
Proof. destruct cond; [reflexivity | discriminate]. Qed.

Section DictFacts.
Context {V : Type}.
Implicit Types (d : list (string * V)) (k : string) (v : V).

Lemma contains_keys d k : contains d k = true ↔ k ∈ keys d.
Proof.
  unfold contains, keys. induction d as [|[k' v'] d IH]; simpl.
  - split; [discriminate | intros H; now apply elem_of_nil in H].
  - destruct (String.eqb k k') eqn:E.
    + apply String.eqb_eq in E. subst. split; [intros _; left | reflexivity].
    + apply String.eqb_neq in E. rewrite IH, elem_of_cons. tauto.
Qed.

Lemma not_contains_keys d k : contains d k = false ↔ k ∉ keys d.
Proof.
  rewrite <- contains_keys. destruct (contains d k); split; congruence.
Qed.

Lemma keys_setitem_new d k v :
  contains d k = false → keys (setitem d k v) = (keys d ++ [k])%list.
Proof.
  unfold contains, keys. induction d as [|[k' v'] d IH]; simpl; [reflexivity|].
  destruct (String.eqb k k'); [discriminate|]. intros H. simpl. now rewrite IH.
Qed.

Lemma keys_setitem_old d k v :
  contains d k = true → keys (setitem d k v) = keys d.
Proof.
  unfold contains, keys. induction d as [|[k' v'] d IH]; simpl; [discriminate|].
  destruct (String.eqb k k'); [reflexivity|]. intros H. simpl. now rewrite IH.
Qed.

Lemma getitem_keys d k : k ∈ keys d → ∃ v, getitem d k = Ok v.
Proof.
  intros Hin. apply contains_keys in Hin. unfold contains, getitem in *.
  destruct (dict_get d k); [eauto | discriminate].
Qed.
End DictFacts.

Lemma json_eq_str_false (v : json) (s : string) :
  v ≠ JStr s → json_eq_str v s = false.
Proof.
  intros Hne. destruct v; try reflexivity. simpl.
  apply String.eqb_neq. congruence.
Qed.

Section RegistryFacts.
Context {float : Type}.
Variable float_of_string : string → option float.
Variable minus_one : float.
Variable random_shuffle : list string → list string.

Local Abbreviation build_registry' :=
  (build_registry float float_of_string minus_one random_shuffle).
Local Abbreviation extract_features' :=
  (extract_features float float_of_string minus_one random_shuffle).
Local Abbreviation merge_datasets' :=
  (merge_datasets float float_of_string minus_one).
Local Abbreviation dataset_step' := (dataset_step float float_of_string minus_one).
Local Abbreviation label_step' := (label_step float minus_one).
Local Abbreviation duration_step' := (duration_step float float_of_string).
Local Abbreviation select_utterances' := (select_utterances float random_shuffle).
Local Abbreviation order_in_effect' := (order_in_effect random_shuffle).

(** *** The three manifest loops *)

Lemma label_loop_keys (labels : list string) (key : string)
    (rows : list (list string)) :
  ∀ (skipped skipped' : gset string) (m m' : list (string * meta float)),
    foldM (label_step' (list_to_set labels) key) (skipped, m) rows
    = Ok (skipped', m') →
    keys m' = (keys m ++ kept_label_ids labels rows)%list ∧
    skipped' = skipped ∪ list_to_set (rejected_label_ids labels rows).
Proof.
  induction rows as [|row rows IH]; intros skipped skipped' m m' Hfold.
  - injection Hfold as <- <-. simpl. rewrite app_nil_r. split; [reflexivity|].
    now rewrite (right_id_L ∅ (∪)).
  - simpl in Hfold. apply rbind_Ok in Hfold as ([sk1 m1] & Hstep & Hfold).
    apply IH in Hfold as [Hkeys Hskipped].
    destruct row as [|utt [|l rest]]; try discriminate Hstep.
    unfold label_step in Hstep. unfold kept_label_ids, rejected_label_ids.
    cbn [omap list_omap]. fold (kept_label_ids labels rows).
    fold (rejected_label_ids labels rows).
    rewrite (bool_decide_ext (l ∈ (list_to_set labels : gset string)) (l ∈ labels))
      in Hstep by apply elem_of_list_to_set.
    destruct (bool_decide (l ∈ labels)); cbn [negb] in Hstep.
    + apply rbind_Ok in Hstep as (u & Hassert & Hstep).
      apply assert_Ok in Hassert. apply negb_true_iff in Hassert.
      inversion Hstep; subst sk1 m1; clear Hstep.
      rewrite keys_setitem_new in Hkeys by assumption.
      rewrite <- app_assoc in Hkeys. split; [exact Hkeys | exact Hskipped].
    + inversion Hstep; subst sk1 m1; clear Hstep.
      split; [exact Hkeys|]. rewrite Hskipped. cbn [list_to_set].
      now rewrite (comm_L (∪) {[utt]} skipped), (assoc_L (∪)).
Qed.

Lemma duration_loop_keys (rows : list (list string)) :
  ∀ m m' : list (string * meta float),
    foldM duration_step' m rows = Ok m' → keys m' = keys m.
Proof.
  induction rows as [|row rows IH]; intros m m' Hfold.
  - now inversion Hfold.
  - simpl in Hfold. apply rbind_Ok in Hfold as (m1 & Hstep & Hfold).
    rewrite (IH _ _ Hfold). clear IH Hfold.
    destruct row as [|utt [|duration rest]]; try discriminate Hstep.
    unfold duration_step in Hstep.
    apply rbind_Ok in Hstep as (u & Hassert & Hstep). apply assert_Ok in Hassert.
    destruct (float_of_string duration); [|discriminate Hstep].
    destruct (dict_get m utt); [|discriminate Hstep].
    inversion Hstep; subst m1. now apply keys_setitem_old.
Qed.

Lemma path_loop_keys (skipped : gset string) (rows : list (list string)) :
  ∀ p p' : list (string * string),
    foldM (path_step skipped) p rows = Ok p' →
    keys p' = (keys p ++ kept_path_ids skipped rows)%list.
Proof.
  induction rows as [|row rows IH]; intros p p' Hfold.
  - inversion Hfold; subst. simpl. now rewrite app_nil_r.
  - simpl in Hfold. apply rbind_Ok in Hfold as (p1 & Hstep & Hfold).
    rewrite (IH _ _ Hfold). clear IH Hfold.
    destruct row as [|utt [|path rest]]; try discriminate Hstep.
    unfold path_step in Hstep. unfold kept_path_ids. cbn [omap list_omap].
    fold (kept_path_ids skipped rows).
    destruct (bool_decide (utt ∈ skipped)).
    + now inversion Hstep.
    + apply rbind_Ok in Hstep as (u & Hassert & Hstep).
      apply assert_Ok in Hassert. apply negb_true_iff in Hassert.
      inversion Hstep; subst p1.
      rewrite keys_setitem_new by assumption. now rewrite <- app_assoc.
Qed.

Lemma manifest_rows_parsed (fs : gmap string string) (path : string)
    (rows : list (list string)) :
  parse_space_separated fs path = Ok rows → manifest_rows fs path = rows.
Proof. intros H. unfold manifest_rows. now rewrite H. Qed.

(** *** The loop over datasets *)

Lemma dataset_step_keys (fs : gmap string string) (datagroup_key : string)
    (ds : ds_config) (p p' : list (string * string))
    (m m' : list (string * meta float)) (dg dg' : option datagroup) :
  dataset_step' fs datagroup_key (p, m, dg) ds = Ok (p', m', dg') →
  keys m' = (keys m ++ dataset_label_defs fs datagroup_key ds)%list ∧
  keys p' = (keys p ++ dataset_path_defs fs datagroup_key ds)%list ∧
  is_Some dg'.
Proof.
  intros Hstep. unfold dataset_step in Hstep.
  apply rbind_Ok in Hstep as (g & Hdg & Hstep).
  apply rbind_Ok in Hstep as (lrows & Hlrows & Hstep).
  apply rbind_Ok in Hstep as ([skipped m1] & Hlabels & Hstep).
  apply rbind_Ok in Hstep as (m2 & Hdur & Hstep).
  apply rbind_Ok in Hstep as (prows & Hprows & Hstep).
  apply rbind_Ok in Hstep as (p1 & Hpaths & Hstep).
  inversion Hstep; subst p1 m2 dg'; clear Hstep.
  apply getitem_dict_get in Hdg.
  unfold dataset_label_defs, dataset_path_defs. rewrite Hdg.
  rewrite (manifest_rows_parsed _ _ _ Hlrows), (manifest_rows_parsed _ _ _ Hprows).
  apply label_loop_keys in Hlabels as [Hkeys Hskipped].
  rewrite union_empty_l_L in Hskipped. subst skipped.
  apply path_loop_keys in Hpaths.
  assert (Hm : keys m' = keys m1).
  { destruct (fs !! utt2dur_path g); [|now inversion Hdur].
    apply rbind_Ok in Hdur as (drows & _ & Hdur).
    now apply duration_loop_keys in Hdur. }
  rewrite Hm, Hkeys. eauto.
Qed.

Lemma merge_keys_from (fs : gmap string string) (datagroup_key : string)
    (datasets : list ds_config) :
  ∀ (p p' : list (string * string)) (m m' : list (string * meta float))
    (dg dg' : option datagroup),
    foldM (dataset_step' fs datagroup_key) (p, m, dg) datasets = Ok (p', m', dg') →
    keys m' = (keys m ++ label_defs fs datagroup_key datasets)%list ∧
    keys p' = (keys p ++ path_defs fs datagroup_key datasets)%list ∧
    (datasets ≠ [] → is_Some dg').
Proof.
  induction datasets as [|ds datasets IH]; intros p p' m m' dg dg' Hfold.
  - inversion Hfold; subst. unfold label_defs, path_defs. simpl.
    rewrite !app_nil_r. split; [reflexivity|]. split; [reflexivity|]. congruence.
  - simpl in Hfold. apply rbind_Ok in Hfold as ([[p1 m1] dg1] & Hstep & Hfold).
    apply (dataset_step_keys _ _ _ _ _ _ _ dg) in Hstep as (Hm1 & Hp1 & Hdg1).
    pose proof Hfold as Hrest. apply IH in Hfold as (Hm & Hp & Hdg).
    unfold label_defs, path_defs in *. cbn [map concat].
    rewrite Hm, Hp, Hm1, Hp1, <- !app_assoc.
    split; [reflexivity|]. split; [reflexivity|]. intros _. destruct datasets as [|ds' datasets'].
    + inversion Hrest. now subst.
    + now apply Hdg.
Qed.

(** A successful merge has collected exactly the ids the manifests define,
    in reading order, and each of them once. *)
Lemma merge_keys (fs : gmap string string) (datagroup_key : string)
    (datasets : list ds_config) (p : list (string * string))
    (m : list (string * meta float)) (dg : option datagroup) :
  merge_datasets' fs datagroup_key datasets = Ok (p, m, dg) →
  keys m = label_defs fs datagroup_key datasets ∧
  keys p = path_defs fs datagroup_key datasets.
Proof.
  intros Hmerge. apply merge_keys_from in Hmerge as (Hm & Hp & _). auto.
Qed.

(** *** Keys are never repeated *)

Lemma NoDup_keys_setitem {V} (d : list (string * V)) (k : string) (v : V) :
  NoDup (keys d) → NoDup (keys (setitem d k v)).
Proof.
  intros Hd. destruct (contains d k) eqn:E.
  - now rewrite keys_setitem_old.
  - rewrite keys_setitem_new by assumption. apply NoDup_app.
    split; [exact Hd|]. split; [|apply NoDup_singleton].
    intros x Hx Hk. apply list_elem_of_singleton in Hk. subst x.
    now apply not_contains_keys in E.
Qed.

Lemma label_step_NoDup (enabled : gset string) (key : string)
    (st st' : gset string * list (string * meta float)) (row : list string) :
  NoDup (keys st.2) → label_step' enabled key st row = Ok st' → NoDup (keys st'.2).
Proof.
  destruct st as [sk m], st' as [sk' m']. cbn [snd]. intros Hm Hstep.
  destruct row as [|utt [|l rest]]; try discriminate Hstep.
  unfold label_step in Hstep. destruct (negb _).
  - now injection Hstep as <- <-.
  - apply rbind_Ok in Hstep as (u & _ & Hstep). injection Hstep as <- <-.
    now apply NoDup_keys_setitem.
Qed.

Lemma duration_step_NoDup (m m' : list (string * meta float)) (row : list string) :
  NoDup (keys m) → duration_step' m row = Ok m' → NoDup (keys m').
Proof.
  intros Hm Hstep. destruct row as [|utt [|duration rest]]; try discriminate Hstep.
  unfold duration_step in Hstep. apply rbind_Ok in Hstep as (u & _ & Hstep).
  destruct (float_of_string duration); [|discriminate Hstep].
  destruct (dict_get m utt); [|discriminate Hstep].
  injection Hstep as <-. now apply NoDup_keys_setitem.
Qed.

Lemma path_step_NoDup (skipped : gset string) (p p' : list (string * string))
    (row : list string) :
  NoDup (keys p) → path_step skipped p row = Ok p' → NoDup (keys p').
Proof.
  intros Hp Hstep. destruct row as [|utt [|path rest]]; try discriminate Hstep.
  unfold path_step in Hstep. destruct (bool_decide _).
  - now injection Hstep as <-.
  - apply rbind_Ok in Hstep as (u & _ & Hstep). injection Hstep as <-.
    now apply NoDup_keys_setitem.
Qed.

Lemma dataset_step_NoDup (fs : gmap string string) (datagroup_key : string)
    (st st' : merge_state float) (ds : ds_config) :
  keys_distinct st → dataset_step' fs datagroup_key st ds = Ok st' →
  keys_distinct st'.
Proof.
  destruct st as [[p m] dg], st' as [[p' m'] dg']. intros [Hp Hm] Hstep.
  unfold dataset_step in Hstep.
  apply rbind_Ok in Hstep as (g & _ & Hstep).
  apply rbind_Ok in Hstep as (lrows & _ & Hstep).
  apply rbind_Ok in Hstep as ([skipped m1] & Hlabels & Hstep).
  apply rbind_Ok in Hstep as (m2 & Hdur & Hstep).
  apply rbind_Ok in Hstep as (prows & _ & Hstep).
  apply rbind_Ok in Hstep as (p1 & Hpaths & Hstep).
  injection Hstep as <- <- <-. cbn [fst snd] in *.
  apply (foldM_invariant (λ s, NoDup (keys s.2))) in Hlabels;
    [|intros; eapply label_step_NoDup; eassumption|exact Hm].
  apply (foldM_invariant (λ s, NoDup (keys s))) in Hpaths;
    [|intros; eapply path_step_NoDup; eassumption|exact Hp].
  split; [exact Hpaths|]. cbn [snd] in Hlabels.
  destruct (fs !! utt2dur_path g); [|now injection Hdur as <-].
  apply rbind_Ok in Hdur as (drows & _ & Hdur).
  apply (foldM_invariant (λ s, NoDup (keys s))) in Hdur;
    [exact Hdur|intros; eapply duration_step_NoDup; eassumption|exact Hlabels].
Qed.

(** R2 on a successful merge: no id is defined twice by the label
    manifests, and none by the path manifests. *)
Lemma merge_defs_distinct (fs : gmap string string) (datagroup_key : string)
    (datasets : list ds_config) (st : merge_state float) :
  merge_datasets' fs datagroup_key datasets = Ok st →
  NoDup (label_defs fs datagroup_key datasets) ∧
  NoDup (path_defs fs datagroup_key datasets).
Proof.
  intros Hmerge. destruct st as [[p m] dg].
  destruct (merge_keys _ _ _ _ _ _ Hmerge) as [<- <-].
  apply (foldM_invariant keys_distinct) in Hmerge.
  - destruct Hmerge. auto.
  - intros s x s' Hs Hstep. eapply dataset_step_NoDup; eassumption.
  - split; apply NoDup_nil_2.
Qed.


(** *** Selection of the utterance list *)

Lemma collect_paths_from (p : list (string * string))
    (m : list (string * meta float)) (utts : list string) :
  ∀ paths0 metas0 paths metas,
    foldM (fun acc utt =>
             let '(paths, paths_meta) := acc in
             rbind (getitem p utt) (fun path =>
             rbind (getitem m utt) (fun x =>
             Ok ((paths ++ [path])%list,
                 (paths_meta ++ [(utt, label float x, dataset float x,
                                  duration_sec float x)])%list))))
          (paths0, metas0) utts = Ok (paths, metas) →
    ∃ paths1 metas1,
      paths = (paths0 ++ paths1)%list ∧ metas = (metas0 ++ metas1)%list ∧
      map meta_id metas1 = utts ∧ map Some paths1 = map (dict_get p) utts.
Proof.
  induction utts as [|utt utts IH]; intros paths0 metas0 paths metas Hfold.
  - injection Hfold as <- <-. exists [], []. now rewrite !app_nil_r.
  - simpl in Hfold. apply rbind_Ok in Hfold as ([paths1 metas1] & Hstep & Hfold).
    apply rbind_Ok in Hstep as (path & Hpath & Hstep).
    apply rbind_Ok in Hstep as (x & Hx & Hstep). injection Hstep as <- <-.
    apply IH in Hfold as (paths2 & metas2 & -> & -> & Hids & Hpaths).
    exists (path :: paths2), ((utt, label float x, dataset float x,
                               duration_sec float x) :: metas2).
    rewrite <- !app_assoc. repeat split.
    + simpl. now rewrite Hids.
    + simpl. apply getitem_dict_get in Hpath. now rewrite Hpath, Hpaths.
Qed.

Lemma collect_paths_Ok (p : list (string * string))
    (m : list (string * meta float)) (utts paths : list string)
    (metas : list (string * string * string * float)) :
  collect_paths float p m utts = Ok (paths, metas) →
  map meta_id metas = utts ∧ map Some paths = map (dict_get p) utts.
Proof.
  intros H. apply collect_paths_from in H as (paths1 & metas1 & -> & -> & H).
  exact H.
Qed.

Lemma collect_paths_raises_KeyError (p : list (string * string))
    (m : list (string * meta float)) (utts : list string) (e : exception) :
  collect_paths float p m utts = Raise e → ∃ k, e = KeyError k.
Proof.
  unfold collect_paths. generalize (@nil string, @nil (string * string * string * float)).
  induction utts as [|utt utts IH]; intros [paths0 metas0] Hfold;
    [discriminate|].
  simpl in Hfold. unfold getitem at 1 in Hfold.
  destruct (dict_get p utt); [|injection Hfold as <-; eauto].
  cbn [rbind Ok] in Hfold. unfold getitem at 1 in Hfold.
  destruct (dict_get m utt); [|injection Hfold as <-; eauto].
  cbn [rbind Ok] in Hfold. eapply IH. exact Hfold.
Qed.

Lemma collect_paths_returns (p : list (string * string))
    (m : list (string * meta float)) (utts : list string) :
  utts ⊆ keys p → utts ⊆ keys m → returns (collect_paths float p m utts).
Proof.
  unfold collect_paths. generalize (@nil string, @nil (string * string * string * float)).
  induction utts as [|utt utts IH]; intros [paths0 metas0] Hp Hm;
    [eexists; reflexivity|].
  simpl.
  destruct (getitem_keys p utt) as [path ->]; [apply Hp; left|].
  destruct (getitem_keys m utt) as [x ->]; [apply Hm; left|].
  cbn [rbind Ok]. apply IH; intros u Hu; [apply Hp | apply Hm]; now right.
Qed.

Lemma select_utterances_Ok (a : args) (p : list (string * string))
    (m : list (string * meta float)) (dg : option datagroup)
    (utterance_list : list string) :
  select_utterances' a (p, m, dg) = Ok utterance_list →
  same_key_sets p m = true ∧
  utterance_list
  = match file_limit a with
    | Some n => if n =? 0 then order_in_effect' a dg (keys p)
                else slice_to (order_in_effect' a dg (keys p)) n
    | None => order_in_effect' a dg (keys p)
    end.
Proof.
  unfold select_utterances, order_in_effect, shuffle_enabled. intros H.
  apply rbind_Ok in H as (u & Hassert & H). apply assert_Ok in Hassert.
  split; [exact Hassert|].
  apply rbind_Ok in H as (shuffle & Hshuffle & H). injection H as <-.
  destruct (shuffle_utt2path a); cbn [orb].
  - now injection Hshuffle as <-.
  - destruct dg as [g|]; [|discriminate Hshuffle]. now injection Hshuffle as <-.
Qed.

Lemma select_utterances_returns (a : args) (p : list (string * string))
    (m : list (string * meta float)) (dg : option datagroup) :
  same_key_sets p m = true → shuffle_utt2path a = true ∨ is_Some dg →
  returns (select_utterances' a (p, m, dg)).
Proof.
  intros Hsame Hdg. unfold select_utterances. rewrite Hsame. cbn [assert rbind Ok].
  destruct (shuffle_utt2path a); [eexists; reflexivity|].
  destruct Hdg as [Hdg|[g ->]]; [discriminate|]. eexists; reflexivity.
Qed.

Lemma report_totals_bound (a : args) (dg : option datagroup) :
  is_Some dg → report_totals a dg = Ok tt.
Proof. intros [g ->]. unfold report_totals. now destruct (1 <? verbosity a). Qed.

Lemma report_totals_raises (a : args) (dg : option datagroup) (e : exception) :
  report_totals a dg = Raise e → e = NameError "skipped_utterances".
Proof.
  unfold report_totals. destruct (1 <? verbosity a); [|discriminate].
  destruct dg; [discriminate|]. now injection 1 as <-.
Qed.

Lemma slice_to_subseteq {A} (l : list A) (n : Z) : slice_to l n ⊆ l.
Proof. unfold slice_to. destruct (0 <=? n); apply subseteq_take. Qed.

Lemma build_registry_merged (fs : gmap string string) (a : args)
    (datasets : list ds_config) (datagroup_key : string)
    (p : list (string * string)) (m : list (string * meta float))
    (dg : option datagroup) :
  merge_datasets' fs datagroup_key datasets = Ok (p, m, dg) →
  build_registry' fs a datasets datagroup_key
  = rbind (report_totals a dg) (fun _ =>
    rbind (select_utterances' a (p, m, dg)) (fun utterance_list =>
    rbind (collect_paths float p m utterance_list) (fun x =>
    Ok (utterance_list, x.1, x.2, dg)))).
Proof.
  intros Hmerge. unfold build_registry. rewrite Hmerge. cbn [rbind Ok].
  destruct (report_totals a dg) as [e|u]; [reflexivity|]. cbn [rbind].
  destruct (select_utterances' a (p, m, dg)) as [e|ul]; [reflexivity|].
  cbn [rbind]. now destruct (collect_paths float p m ul) as [e|[paths metas]].
Qed.

(** The registry is built whenever the merge succeeds on at least one
    dataset, the two id sets agree and the shuffle only reorders. *)
Lemma build_registry_returns (fs : gmap string string) (a : args)
    (datasets : list ds_config) (datagroup_key : string)
    (st : merge_state float) :
  merge_datasets' fs datagroup_key datasets = Ok st →
  datasets ≠ [] →
  label_ids fs datagroup_key datasets = path_ids fs datagroup_key datasets →
  (∀ l, random_shuffle l ≡ₚ l) →
  returns (build_registry' fs a datasets datagroup_key).
Proof.
  destruct st as [[p m] dg]. intros Hmerge Hne Hids Hperm.
  rewrite (build_registry_merged _ _ _ _ _ _ _ Hmerge).
  destruct (merge_keys _ _ _ _ _ _ Hmerge) as [Hm Hp].
  assert (Hsame : same_key_sets p m = true).
  { unfold same_key_sets. apply bool_decide_eq_true.
    rewrite Hm, Hp. symmetry. exact Hids. }
  apply merge_keys_from in Hmerge as (_ & _ & Hdg). specialize (Hdg Hne).
  rewrite (report_totals_bound a dg Hdg). cbn [rbind Ok].
  destruct (select_utterances_returns a p m dg Hsame (or_intror Hdg)) as [ul Hul].
  rewrite Hul. cbn [rbind].
  apply select_utterances_Ok in Hul as [_ Hul].
  assert (Hsub : ul ⊆ keys p).
  { assert (Horder : order_in_effect' a dg (keys p) ⊆ keys p).
    { unfold order_in_effect. destruct (shuffle_enabled a dg); [|reflexivity].
      intros u Hu. now rewrite Hperm in Hu. }
    subst ul. destruct (file_limit a) as [n|]; [|exact Horder].
    destruct (n =? 0); [exact Horder|].
    etransitivity; [apply slice_to_subseteq | exact Horder]. }
  destruct (collect_paths_returns p m ul Hsub) as [[paths metas] ->].
  - intros u Hu. apply Hsub in Hu.
    unfold same_key_sets in Hsame. apply bool_decide_eq_true in Hsame.
    apply (elem_of_list_to_set (C := gset string)).
    rewrite <- Hsame. now apply elem_of_list_to_set.
  - eexists; reflexivity.
Qed.

(** *** The claims about registry construction *)

(** What the consistency check of line 184 decides, after a merging pass
    that completed. *)
Lemma merged_registry_id_sets
    (fs : gmap string string) (a : args) (datasets : list ds_config)
    (datagroup_key : string) (p : list (string * string))
    (m : list (string * meta float)) (dg : option datagroup) :
  merge_datasets' fs datagroup_key datasets = Ok (p, m, dg) →
  list_to_set (keys m) = label_ids fs datagroup_key datasets ∧
  list_to_set (keys p) = path_ids fs datagroup_key datasets ∧
  (build_registry' fs a datasets datagroup_key
     = Raise (AssertionError mismatch_msg)
   ↔ label_ids fs datagroup_key datasets ≠ path_ids fs datagroup_key datasets) ∧
  (returns (build_registry' fs a datasets datagroup_key) →
   label_ids fs datagroup_key datasets = path_ids fs datagroup_key datasets) ∧
  (∀ utt, utt ∈ path_defs fs datagroup_key datasets →
          utt ∉ label_defs fs datagroup_key datasets →
          build_registry' fs a datasets datagroup_key
          = Raise (AssertionError mismatch_msg)).
Proof.
  intros Hmerge. destruct (merge_keys _ _ _ _ _ _ Hmerge) as [Hm Hp].
  assert (Hbound :
    (list_to_set (keys m) : gset string) ≠ list_to_set (keys p) → is_Some dg).
  { intros Hne. apply merge_keys_from in Hmerge as (_ & _ & Hdg). apply Hdg.
    intros ->. apply Hne. now rewrite Hm, Hp. }
  unfold label_ids, path_ids. rewrite <- Hm, <- Hp.
  split; [reflexivity|]. split; [reflexivity|].
  rewrite (build_registry_merged _ _ _ _ _ _ _ Hmerge).
  assert (Hdiffer :
    (list_to_set (keys m) : gset string) ≠ list_to_set (keys p) →
    rbind (report_totals a dg) (fun _ =>
      rbind (select_utterances' a (p, m, dg)) (fun utterance_list =>
      rbind (collect_paths float p m utterance_list) (fun x =>
      Ok (utterance_list, x.1, x.2, dg))))
    = Raise (AssertionError mismatch_msg)).
  { intros Hne. rewrite (report_totals_bound a dg (Hbound Hne)). cbn [rbind Ok].
    unfold select_utterances, same_key_sets.
    rewrite bool_decide_eq_false_2; [reflexivity | congruence]. }
  assert (Hequal :
    (list_to_set (keys m) : gset string) = list_to_set (keys p) →
    rbind (report_totals a dg) (fun _ =>
      rbind (select_utterances' a (p, m, dg)) (fun utterance_list =>
      rbind (collect_paths float p m utterance_list) (fun x =>
      Ok (utterance_list, x.1, x.2, dg))))
    ≠ Raise (AssertionError mismatch_msg)).
  { intros Heq Hraise.
    destruct (report_totals a dg) as [e|u] eqn:Htotals.
    { apply report_totals_raises in Htotals. subst e. discriminate Hraise. }
    cbn [rbind] in Hraise.
    unfold select_utterances, same_key_sets in Hraise.
    rewrite bool_decide_eq_true_2 in Hraise by congruence.
    cbn [assert rbind Ok] in Hraise.
    destruct (shuffle_utt2path a); cbn [rbind Ok] in Hraise.
    - match type of Hraise with
      | rbind (collect_paths _ _ _ ?ul) _ = _ =>
          destruct (collect_paths float p m ul) as [e|x] eqn:E
      end; [|discriminate Hraise].
      apply collect_paths_raises_KeyError in E as [k ->]. discriminate Hraise.
    - destruct dg as [g|]; [|discriminate Hraise].
      cbn [bound_after_loop rbind Ok] in Hraise.
      match type of Hraise with
      | rbind (collect_paths _ _ _ ?ul) _ = _ =>
          destruct (collect_paths float p m ul) as [e|x] eqn:E
      end; [|discriminate Hraise].
      apply collect_paths_raises_KeyError in E as [k ->]. discriminate Hraise. }
  split; [|split].
  - split.
    + intros Hraise Heq. now apply Hequal in Hraise.
    + exact Hdiffer.
  - intros [r Hr].
    destruct (decide ((list_to_set (keys m) : gset string) = list_to_set (keys p)))
      as [Heq|Hne]; [exact Heq|].
    rewrite (Hdiffer Hne) in Hr. discriminate Hr.
  - intros utt Hin Hnotin. apply Hdiffer. intros Heq.
    apply Hnotin. apply (elem_of_list_to_set (C := gset string)).
    rewrite Heq. now apply elem_of_list_to_set.
Qed.

(** C2, as the code has it: when the merging pass over the manifests
    raises nothing of its own, the ids kept from the label manifests and
    the ids kept from the path manifests are what the two dicts hold;
    registry construction then raises the mismatch assertion exactly when
    the two sets differ, and returns only when they are equal.  In
    particular an id of a path manifest that no label manifest defines
    makes it raise. *)
Theorem registry_checks_id_sets
    (fs : gmap string string) (a : args) (datasets : list ds_config)
    (datagroup_key : string) (p : list (string * string))
    (m : list (string * meta float)) (dg : option datagroup) :
  merge_datasets' fs datagroup_key datasets = Ok (p, m, dg) →
  list_to_set (keys m) = label_ids fs datagroup_key datasets ∧
  list_to_set (keys p) = path_ids fs datagroup_key datasets ∧
  (build_registry' fs a datasets datagroup_key
     = Raise (AssertionError mismatch_msg)
   ↔ label_ids fs datagroup_key datasets ≠ path_ids fs datagroup_key datasets) ∧
  (returns (build_registry' fs a datasets datagroup_key) →
   label_ids fs datagroup_key datasets = path_ids fs datagroup_key datasets) ∧
  (∀ utt, utt ∈ path_defs fs datagroup_key datasets →
          utt ∉ label_defs fs datagroup_key datasets →
          build_registry' fs a datasets datagroup_key
          = Raise (AssertionError mismatch_msg)).
Proof. apply merged_registry_id_sets. Qed.

(** A path row whose id no label row defines is fatal, whether or not the
    merging pass completes. *)
Lemma missing_label_row_is_fatal
    (fs : gmap string string) (a : args) (datasets : list ds_config)
    (datagroup_key utt : string) :
  utt ∈ path_defs fs datagroup_key datasets →
  utt ∉ label_defs fs datagroup_key datasets →
  raises (build_registry' fs a datasets datagroup_key).
Proof.
  intros Hin Hnotin.
  destruct (merge_datasets' fs datagroup_key datasets) as [e|[[p m] dg]] eqn:Hmerge.
  - exists e. unfold build_registry. now rewrite Hmerge.
  - destruct (merged_registry_id_sets fs a _ _ _ _ _ Hmerge) as (_ & _ & _ & _ & H).
    eexists. now apply (H utt).
Qed.


(** C4: with a file limit [N > 0], the utterance list of the registry is
    the first [N] ids of the order in effect after the optional shuffle:
    of the shuffled list when shuffling is enabled, of manifest order
    otherwise; the registry's metadata carries exactly these ids, in this
    order. *)
Theorem truncation_follows_shuffle
    (fs : gmap string string) (a : args) (datasets : list ds_config)
    (datagroup_key : string) (N : Z) (utterance_list paths : list string)
    (paths_meta : list (string * string * string * float))
    (dg : option datagroup) :
  file_limit a = Some N → 0 < N →
  build_registry' fs a datasets datagroup_key
  = Ok (utterance_list, paths, paths_meta, dg) →
  utterance_list
  = take (Z.to_nat N)
         (order_in_effect' a dg (path_defs fs datagroup_key datasets)) ∧
  map meta_id paths_meta = utterance_list ∧
  length paths = length utterance_list.
Proof.
  intros Hlimit HN Hbuild. unfold build_registry in Hbuild.
  apply rbind_Ok in Hbuild as ([[p m] dg0] & Hmerge & Hbuild).
  apply rbind_Ok in Hbuild as (u & _ & Hbuild).
  apply rbind_Ok in Hbuild as (ul & Hselect & Hbuild).
  apply rbind_Ok in Hbuild as ([paths0 metas0] & Hcollect & Hbuild).
  injection Hbuild as <- <- <- <-.
  destruct (merge_keys _ _ _ _ _ _ Hmerge) as [_ Hp].
  apply select_utterances_Ok in Hselect as [_ Hul].
  rewrite Hlimit, Hp in Hul.
  destruct (Z.eqb_spec N 0) as [->|_]; [lia|].
  unfold slice_to in Hul. destruct (Z.leb_spec 0 N) as [_|]; [|lia].
  apply collect_paths_Ok in Hcollect as [Hids Hpaths].
  split; [exact Hul|]. split; [exact Hids|].
  apply (f_equal length) in Hpaths. now rewrite !length_map in Hpaths.
Qed.

(** C10: when the configured type is neither "sparsespeech" nor "kaldi",
    [extract_features] fails exactly when registry construction fails, with
    the same exception, and otherwise selects the raw-audio backend on the
    registry's paths and metadata. *)
Theorem other_types_select_raw_audio
    (fs : gmap string string) (a : args) (datasets : list ds_config)
    (config : list (string * json)) (datagroup_key : string)
    (trim_audio debug_squeeze_last_dim : bool) (ty : json) :
  getitem config "type" = Ok ty →
  ty ≠ JStr "sparsespeech" → ty ≠ JStr "kaldi" →
  (∀ e, build_registry' fs a datasets datagroup_key = Raise e →
        extract_features' fs a datasets config datagroup_key trim_audio
                         debug_squeeze_last_dim = Raise e) ∧
  (∀ utterance_list paths paths_meta dg,
      build_registry' fs a datasets datagroup_key
      = Ok (utterance_list, paths, paths_meta, dg) →
      extract_features' fs a datasets config datagroup_key trim_audio
                       debug_squeeze_last_dim
      = Ok (extract_features_from_paths float config paths paths_meta
              datagroup_key trim_audio debug_squeeze_last_dim (verbosity a))).
Proof.
  intros Hty Hsparse Hkaldi. unfold extract_features. split.
  - intros e ->. reflexivity.
  - intros ul paths paths_meta dg ->. cbn [rbind Ok]. unfold dispatch.
    rewrite Hty. cbn [rbind Ok].
    now rewrite (json_eq_str_false _ _ Hsparse), (json_eq_str_false _ _ Hkaldi).
Qed.
End RegistryFacts.

Lemma other_types_select_raw_audio_witness :
  extract_features string Examples.float_of_string Examples.minus_one
    Examples.reversing_shuffle
    (Examples.files ["a en"; "b fr"] ["a /x"; "b /y"]) Examples.plain_args
    [Examples.d1] Examples.mfcc "train" false false
  = Ok (extract_features_from_paths string Examples.mfcc ["/x"]
          [("a", "en", "d1", "-1.0")] "train" false false 0).
Proof.
  refine (proj2 (other_types_select_raw_audio Examples.float_of_string
                   Examples.minus_one Examples.reversing_shuffle
                   (Examples.files ["a en"; "b fr"] ["a /x"; "b /y"])
                   Examples.plain_args [Examples.d1] Examples.mfcc "train"
                   false false (JStr "mfcc") _ _ _)
                ["a"] ["/x"] [("a", "en", "d1", "-1.0")]
                (Some Examples.train_dg) _).
  - reflexivity.
  - discriminate.
  - discriminate.
  - vm_compute. reflexivity.
Defined.

(** ** Registry construction on concrete manifests *)

(** The registry of the spec's example: [b] has a label that is not
    enabled and is left out. *)
Example registry_keeps_enabled_labels :
  Examples.registry (Examples.files ["a en"; "b fr"] ["a /x"; "b /y"])
                    Examples.plain_args [Examples.d1] "train"
  = Ok (["a"], ["/x"], [("a", "en", "d1", "-1.0")], Some Examples.train_dg).
Proof. vm_compute. reflexivity. Qed.

(** Five utterances, shuffled (here: reversed) and limited to two. *)
Example registry_shuffled_then_truncated :
  Examples.registry (Examples.files ["a en"; "b en"; "c fr"; "d en"; "e fr"]
                                    ["a /a"; "b /b"; "c /c"; "d /d"; "e /e"])
                    (Examples.limit_args 2) [Examples.d5] "train"
  = Ok (["e"; "d"], ["/e"; "/d"],
        [("e", "fr", "d5", "-1.0"); ("d", "en", "d5", "-1.0")],
        Some Examples.shuffled_dg).
Proof. vm_compute. reflexivity. Qed.

(** The two utterances kept are not the first two of manifest order. *)
Example truncation_is_not_a_manifest_prefix :
  take 2 (path_defs (Examples.files ["a en"; "b en"; "c fr"; "d en"; "e fr"]
                                    ["a /a"; "b /b"; "c /c"; "d /d"; "e /e"])
                    "train" [Examples.d5])
  = ["a"; "b"].
Proof. vm_compute. reflexivity. Qed.

Lemma registry_checks_id_sets_witness :
  Examples.registry (Examples.files ["a en"] ["a /x"; "b /y"])
    Examples.plain_args [Examples.d1] "train"
  = Raise (AssertionError mismatch_msg).
Proof.
  destruct (registry_checks_id_sets Examples.float_of_string Examples.minus_one
              Examples.reversing_shuffle
              (Examples.files ["a en"] ["a /x"; "b /y"]) Examples.plain_args
              [Examples.d1] "train" [("a", "/x"); ("b", "/y")]
              [("a", Examples.unknown)] (Some Examples.train_dg))
    as (_ & _ & _ & _ & Hmissing).
  - vm_compute. reflexivity.
  - apply (Hmissing "b").
    + replace (path_defs _ _ _) with ["a"; "b"] by (vm_compute; reflexivity).
      apply list_elem_of_In. simpl. auto.
    + replace (label_defs _ _ _) with ["a"] by (vm_compute; reflexivity).
      rewrite list_elem_of_In. simpl. intros [H|[]]. discriminate H.
Defined.

(** C2 as stated fails: a repeated path row raises although the ids kept
    from the label manifest and from the path manifest form the same set. *)
Lemma duplicate_path_raises_with_equal_id_sets :
  label_ids (Examples.files ["a en"] ["a /x"; "a /y"]) "train" [Examples.d1]
  = path_ids (Examples.files ["a en"] ["a /x"; "a /y"]) "train" [Examples.d1] ∧
  Examples.registry (Examples.files ["a en"] ["a /x"; "a /y"])
    Examples.plain_args [Examples.d1] "train"
  = Raise (AssertionError (dup_path_msg "a")).
Proof.
  split; [|vm_compute; reflexivity].
  unfold label_ids, path_ids.
  replace (label_defs _ _ _) with ["a"] by (vm_compute; reflexivity).
  replace (path_defs _ _ _) with ["a"; "a"] by (vm_compute; reflexivity).
  cbn [list_to_set]. now rewrite (assoc_L (∪)), (idemp_L (∪)).
Qed.



Lemma truncation_follows_shuffle_witness :
  ["e"; "d"]
  = take (Z.to_nat 2)
         (order_in_effect Examples.reversing_shuffle (Examples.limit_args 2)
            (Some Examples.shuffled_dg)
            (path_defs (Examples.files ["a en"; "b en"; "c fr"; "d en"; "e fr"]
                                       ["a /a"; "b /b"; "c /c"; "d /d"; "e /e"])
                       "train" [Examples.d5])) ∧
  map meta_id [("e", "fr", "d5", "-1.0"); ("d", "en", "d5", "-1.0")] = ["e"; "d"] ∧
  length ["/e"; "/d"] = length ["e"; "d"].
Proof.
  apply (truncation_follows_shuffle Examples.float_of_string Examples.minus_one
           Examples.reversing_shuffle _ (Examples.limit_args 2) [Examples.d5]
           "train" 2 ["e"; "d"] ["/e"; "/d"] _ (Some Examples.shuffled_dg)).
  - reflexivity.
  - lia.
  - apply registry_shuffled_then_truncated.
Defined.

(** ** Sanity checks of the library models *)

Example dumps_escapes :
  dumps (JList [JStr ("a" +:+ dquote +:+ "b" +:+ newline); JInt (-3); JNull;
                JBool true])
  = "[" +:+ dquote +:+ "a" +:+ backslash +:+ dquote +:+ "b" +:+ backslash +:+ "n"
    +:+ dquote +:+ ", -3, null, true]".
Proof. vm_compute. reflexivity. Qed.

Example md5_rfc1321_vectors :
  MD5.hexdigest EmptyString = "d41d8cd98f00b204e9800998ecf8427e" ∧
  MD5.hexdigest "abc" = "900150983cd24fb0d6963f7d28e17f72" ∧
  MD5.hexdigest "message digest" = "f96b697d7cb7938d525a2f31aaf161d0".
Proof. repeat split; vm_compute; reflexivity. Qed.

Example parse_space_separated_example :
  parse_space_separated
    (Examples.files ["a en"; "  "; "b  fr extra"] []) "/data/train/utt2label"
  = Ok [["a"; "en"]; ["b"; EmptyString; "fr"; "extra"]] ∧
  parse_space_separated ∅ "/data/train/utt2label"
  = Raise (FileNotFoundError "/data/train/utt2label").
Proof. split; vm_compute; reflexivity. Qed.

Example os_path_join_examples :
  os_path_join "/cache" ["features"] = "/cache/features" ∧
  os_path_join "/cache/" ["train"; "mfcc"] = "/cache/train/mfcc" ∧
  os_path_join "/cache" ["/abs"; "x"] = "/abs/x".
Proof. repeat split; vm_compute; reflexivity. Qed.

(** [Train.train] passes all five arguments by position (lines 325-331),
    which binds every parameter; [Predict.predict] passes two by position
    and two by keyword (lines 575-580), which leaves [datagroup_key] without
    a value. *)
Example extract_features_calls :
  missing_arguments extract_features_parameters 5 [] = [] ∧
  bind_arguments extract_features_parameters
    [JList []; JDict [("type", JStr "mfcc")]; JStr "train"; JBool false;
     JBool true] []
  = Ok [("datasets", JList []); ("config", JDict [("type", JStr "mfcc")]);
        ("datagroup_key", JStr "train"); ("trim_audio", JBool false);
        ("debug_squeeze_last_dim", JBool true)] ∧
  bind_arguments extract_features_parameters
    [JList []; JDict [("type", JStr "mfcc")]]
    [("datagroup_key", JStr "test"); ("trim_audio", JBool false);
     ("debug_squeeze_last_dim", JBool true)]
  = Ok [("datasets", JList []); ("config", JDict [("type", JStr "mfcc")]);
        ("datagroup_key", JStr "test"); ("trim_audio", JBool false);
        ("debug_squeeze_last_dim", JBool true)] ∧
  missing_arguments extract_features_parameters 2
    ["trim_audio"; "debug_squeeze_last_dim"] = ["datagroup_key"].
Proof. repeat split; vm_compute; reflexivity. Qed.

(** * Further properties *)

(** ** Strings *)

Lemma append_assoc (a b c : string) : (a +:+ b) +:+ c = a +:+ (b +:+ c).
Proof.
  induction a as [|x a IH]; [reflexivity|].
  change (String x ((a +:+ b) +:+ c) = String x (a +:+ (b +:+ c))). now rewrite IH.
Qed.

Lemma append_length (a b : string) :
  String.length (a +:+ b) = (String.length a + String.length b)%nat.
Proof.
  induction a as [|x a IH]; [reflexivity|].
  change (S (String.length (a +:+ b)) = S (String.length a + String.length b)).
  now rewrite IH.
Qed.

Lemma append_cancel_l (a b c : string) : a +:+ b = a +:+ c → b = c.
Proof.
  induction a as [|x a IH]; [trivial|].
  change (String x (a +:+ b) = String x (a +:+ c) → b = c).
  intros H. injection H as H. auto.
Qed.

Lemma append_cancel_r (a b c : string) : a +:+ c = b +:+ c → a = b.
Proof.
  revert b. induction a as [|x a IH]; intros [|y b] H.
  - reflexivity.
  - change (c = String y (b +:+ c)) in H.
    apply (f_equal String.length) in H. cbn [String.length] in H.
    rewrite append_length in H. lia.
  - change (String x (a +:+ c) = c) in H.
    apply (f_equal String.length) in H. cbn [String.length] in H.
    rewrite append_length in H. lia.
  - change (String x (a +:+ c) = String y (b +:+ c)) in H.
    injection H as -> H. f_equal. auto.
Qed.

(** ** The cache entry of a fingerprint *)

Lemma write_marker_lookup (fs : gmap string string) (path conf_json : string) :
  write_marker fs path conf_json !! (path +:+ ".md5sum-input")
  = Some (default conf_json (fs !! (path +:+ ".md5sum-input"))).
Proof.
  unfold write_marker. destruct (fs !! (path +:+ ".md5sum-input")) as [old|] eqn:E.
  - exact E.
  - rewrite lookup_insert_eq. unfold print_to_string. simpl.
    now rewrite append_empty_r.
Qed.

(** X1: the marker step never changes a file that exists: an existing marker
    keeps its contents, whatever canonical JSON the current run computed,
    and every other file is left alone. *)
Theorem write_marker_keeps_existing_files
    (fs : gmap string string) (path conf_json file old : string) :
  fs !! file = Some old →
  write_marker fs path conf_json !! file = Some old.
Proof.
  intros Hold. unfold write_marker.
  destruct (fs !! (path +:+ ".md5sum-input")) as [m|] eqn:E; [exact Hold|].
  rewrite lookup_insert_ne; [exact Hold|]. intros <-. congruence.
Qed.

Lemma write_marker_keeps_existing_files_witness :
  write_marker {[ "/cache/x.md5sum-input" := "old" ]} "/cache/x" "new"
    !! "/cache/x.md5sum-input" = Some "old".
Proof.
  apply write_marker_keeps_existing_files. apply lookup_singleton_eq.
Defined.

Lemma Train_cache_step_Ok (fs fs' : gmap string string) (cache_dir : string)
    (persistent : bool) (config : list (string * json)) (datagroup_key path : string) :
  Train_cache_step fs cache_dir persistent config datagroup_key = Ok (fs', path) →
  ∃ feat_config conf_json conf_checksum,
    getitem config "features" = Ok feat_config ∧
    config_checksum config datagroup_key = Ok (conf_json, conf_checksum) ∧
    Train_features_cache_path cache_dir persistent datagroup_key feat_config
                              conf_checksum = Ok path ∧
    fs' = write_marker fs path conf_json.
Proof.
  intros Hstep. unfold Train_cache_step in Hstep.
  apply rbind_Ok in Hstep as (feat_config & Hfeat & Hstep).
  apply rbind_Ok in Hstep as ([conf_json sum] & Hsum & Hstep).
  apply rbind_Ok in Hstep as (p & Hpath & Hstep).
  injection Hstep as <- <-. eauto 10.
Qed.

(** X2: a later run with the same cache directory, the same datagroup key
    and the same [persistent_features_cache] setting, whose configuration
    agrees with an earlier one on the "features" and "datasets" subtrees,
    resolves to the same cache location and leaves the filesystem as the
    earlier run left it: the cache entry is reused and its marker is not
    rewritten. *)
Theorem cache_entry_is_reused
    (fs fs' : gmap string string) (cache_dir : string) (persistent : bool)
    (config config' : list (string * json)) (datagroup_key path : string) :
  Train_cache_step fs cache_dir persistent config datagroup_key = Ok (fs', path) →
  dict_get config "features" = dict_get config' "features" →
  dict_get config "datasets" = dict_get config' "datasets" →
  Train_cache_step fs' cache_dir persistent config' datagroup_key = Ok (fs', path).
Proof.
  intros Hstep Hf Hd.
  apply Train_cache_step_Ok in Hstep
    as (feat_config & conf_json & sum & Hfeat & Hsum & Hpath & ->).
  unfold Train_cache_step.
  replace (getitem config' "features") with (getitem config "features")
    by (unfold getitem; now rewrite Hf).
  replace (config_checksum config' datagroup_key)
    with (config_checksum config datagroup_key)
    by (unfold config_checksum, getitem; now rewrite Hf, Hd).
  rewrite Hfeat, Hsum. cbn [rbind Ok]. rewrite Hpath. cbn [rbind Ok].
  f_equal. f_equal.
  pose proof (write_marker_lookup fs path conf_json) as Hmarker.
  unfold write_marker at 1. now rewrite Hmarker.
Qed.

Lemma cache_entry_is_reused_witness :
  Train_cache_step (write_marker ∅ Examples.cache_path Examples.conf_json)
    "/cache" true Examples.experiment_config' "train"
  = Ok (write_marker ∅ Examples.cache_path Examples.conf_json, Examples.cache_path).
Proof.
  apply (cache_entry_is_reused ∅ _ "/cache" true Examples.experiment_config).
  - apply Train_cache_step_example.
  - reflexivity.
  - reflexivity.
Defined.

(** ** Digests *)

Lemma hex_digit_not_slash (n : nat) : Ascii.eqb "/" (hex_digit n) = false.
Proof. do 16 (destruct n as [|n]; [reflexivity|]). reflexivity. Qed.

Lemma hexdigest_unfold (data : string) :
  ∃ a b c d,
    MD5.hexdigest data
    = foldr (fun x acc => MD5.hex_of_byte x +:+ acc) EmptyString
            (MD5.le_bytes 4 a ++ MD5.le_bytes 4 b ++ MD5.le_bytes 4 c
             ++ MD5.le_bytes 4 d)%list.
Proof.
  unfold MD5.hexdigest, MD5.digest.
  destruct (fold_left MD5.process_block _ _) as [[[a b] c] d]. eauto.
Qed.

(** A digest is 32 characters long and is a relative path component: it is
    not empty and does not start with a separator. *)
Lemma hexdigest_shape (data : string) :
  String.length (MD5.hexdigest data) = 32%nat ∧
  relative_component (MD5.hexdigest data).
Proof.
  destruct (hexdigest_unfold data) as (a & b & c & d & ->).
  split; [reflexivity|]. split; [reflexivity|].
  cbn [MD5.le_bytes app foldr]. unfold MD5.hex_of_byte at 1.
  apply hex_digit_not_slash.
Qed.

Lemma join_step_relative_cases (path b : string) :
  startswith_char "/" b = false →
  ∃ sep, join_step path b = path +:+ sep +:+ b.
Proof.
  intros Hb. unfold join_step. rewrite Hb.
  destruct (str_is_empty path || endswith_char "/" path).
  - exists EmptyString. reflexivity.
  - exists "/". reflexivity.
Qed.

(** X3: two different fingerprints never share a cache location, nor a
    marker file: with the other components fixed, the training cache path
    is injective in the digest. *)
Theorem cache_path_injective_in_digest
    (cache_dir : string) (persistent : bool) (datagroup_key : string)
    (feat_config : json) (data1 data2 path1 path2 : string) :
  Train_features_cache_path cache_dir persistent datagroup_key feat_config
    (MD5.hexdigest data1) = Ok path1 →
  Train_features_cache_path cache_dir persistent datagroup_key feat_config
    (MD5.hexdigest data2) = Ok path2 →
  MD5.hexdigest data1 ≠ MD5.hexdigest data2 →
  path1 ≠ path2 ∧ path1 +:+ ".md5sum-input" ≠ path2 +:+ ".md5sum-input".
Proof.
  intros H1 H2 Hne. unfold Train_features_cache_path in H1, H2.
  apply rbind_Ok in H1 as (ty & Hty & H1). rewrite Hty in H2. cbn [rbind Ok] in H2.
  apply rbind_Ok in H1 as (t & Ht & H1). rewrite Ht in H2. cbn [rbind Ok] in H2.
  injection H1 as <-. injection H2 as <-.
  unfold os_path_join. cbn [fold_left].
  set (prefix := join_step (join_step (features_cache_dir cache_dir persistent)
                                      datagroup_key) t).
  assert (Hsame : ∀ sep d1 d2, prefix +:+ sep +:+ d1 = prefix +:+ sep +:+ d2 → d1 = d2).
  { intros sep d1 d2 H. apply append_cancel_l in H. now apply append_cancel_l in H. }
  assert (Hjoin : ∃ sep, ∀ data,
    join_step prefix (MD5.hexdigest data) = prefix +:+ sep +:+ MD5.hexdigest data).
  { exists (if str_is_empty prefix || endswith_char "/" prefix
            then EmptyString else "/").
    intros data. unfold join_step.
    destruct (hexdigest_shape data) as [_ [_ ->]].
    now destruct (str_is_empty prefix || endswith_char "/" prefix). }
  destruct Hjoin as [sep Hjoin]. rewrite !Hjoin.
  split.
  - intros H. apply Hne. eapply Hsame. exact H.
  - intros H. apply append_cancel_r in H. apply Hne. eapply Hsame. exact H.
Qed.

Lemma cache_path_injective_in_digest_witness :
  "/cache/features/train/mfcc/d41d8cd98f00b204e9800998ecf8427e"
  ≠ "/cache/features/train/mfcc/900150983cd24fb0d6963f7d28e17f72" ∧
  "/cache/features/train/mfcc/d41d8cd98f00b204e9800998ecf8427e" +:+ ".md5sum-input"
  ≠ "/cache/features/train/mfcc/900150983cd24fb0d6963f7d28e17f72" +:+ ".md5sum-input".
Proof.
  apply (cache_path_injective_in_digest "/cache" true "train"
           (JDict [("type", JStr "mfcc")]) EmptyString "abc").
  - vm_compute. reflexivity.
  - vm_compute. reflexivity.
  - vm_compute. discriminate.
Defined.

(** ** Canonical JSON *)

Lemma ascii_compare_N (a b : ascii) :
  Ascii.compare a b = N.compare (N_of_ascii a) (N_of_ascii b).
Proof. reflexivity. Qed.

Lemma string_compare_Lt_trans (s1 : string) :
  ∀ s2 s3, String.compare s1 s2 = Lt → String.compare s2 s3 = Lt →
           String.compare s1 s3 = Lt.
Proof.
  induction s1 as [|c1 s1 IH]; intros [|c2 s2] [|c3 s3]; simpl; try easy.
  rewrite !ascii_compare_N.
  destruct (N.compare_spec (N_of_ascii c1) (N_of_ascii c2)) as [E12|L12|G12];
    try easy;
    destruct (N.compare_spec (N_of_ascii c2) (N_of_ascii c3)) as [E23|L23|G23];
    try easy; intros H12 H23.
  - rewrite E12, E23, N.compare_refl. eauto.
  - rewrite E12. now apply N.compare_lt_iff in L23 as ->.
  - rewrite <- E23. now apply N.compare_lt_iff in L12 as ->.
  - assert (L13 : (N_of_ascii c1 < N_of_ascii c3)%N) by lia.
    now apply N.compare_lt_iff in L13 as ->.
Qed.

Lemma string_leb_trans (s1 s2 s3 : string) :
  String.leb s1 s2 = true → String.leb s2 s3 = true → String.leb s1 s3 = true.
Proof.
  unfold String.leb.
  destruct (String.compare s1 s2) eqn:E12; try discriminate;
    destruct (String.compare s2 s3) eqn:E23; try discriminate; intros _ _.
  - apply String.compare_eq_iff in E23 as <-. now rewrite E12.
  - apply String.compare_eq_iff in E12 as ->. now rewrite E23.
  - apply String.compare_eq_iff in E23 as <-. now rewrite E12.
  - now rewrite (string_compare_Lt_trans _ _ _ E12 E23).
Qed.

Lemma string_leb_false (s1 s2 : string) :
  String.leb s1 s2 = false → String.leb s2 s1 = true.
Proof. intros H. destruct (String.leb_total s1 s2); congruence. Qed.

Lemma string_leb_strict (s1 s2 : string) :
  s1 ≠ s2 → String.leb s1 s2 = true → String.leb s2 s1 = false.
Proof.
  intros Hne H. destruct (String.leb s2 s1) eqn:E; [|reflexivity].
  exfalso. apply Hne. now apply String.leb_antisym.
Qed.

Lemma insert_by_key_comm (a b : string * string) (l : list (string * string)) :
  a.1 ≠ b.1 →
  insert_by_key a (insert_by_key b l) = insert_by_key b (insert_by_key a l).
Proof.
  intros Hne.
  induction l as [|y l IH]; simpl.
  - destruct (String.leb a.1 b.1) eqn:E.
    + now rewrite (string_leb_strict _ _ Hne E).
    + now rewrite (string_leb_false _ _ E).
  - destruct (String.leb b.1 y.1) eqn:Eb, (String.leb a.1 y.1) eqn:Ea; simpl.
    + rewrite Ea, Eb. destruct (String.leb a.1 b.1) eqn:E.
      * now rewrite (string_leb_strict _ _ Hne E).
      * now rewrite (string_leb_false _ _ E).
    + rewrite Eb. destruct (String.leb a.1 b.1) eqn:E.
      * rewrite (string_leb_trans _ _ _ E Eb) in Ea. discriminate.
      * now rewrite Ea.
    + rewrite Ea. destruct (String.leb b.1 a.1) eqn:E.
      * rewrite (string_leb_trans _ _ _ E Ea) in Eb. discriminate.
      * now rewrite Eb.
    + rewrite Ea, Eb. now rewrite IH.
Qed.

Lemma sort_by_key_Permutation (l l' : list (string * string)) :
  l ≡ₚ l' → NoDup (map fst l) → sort_by_key l = sort_by_key l'.
Proof.
  unfold sort_by_key. induction 1 as [|x l l' Hperm IH|x y l|l l' l'' H1 IH1 H2 IH2];
    intros Hnodup; simpl.
  - reflexivity.
  - apply NoDup_cons in Hnodup as [_ Hnodup]. now rewrite IH.
  - apply insert_by_key_comm. simpl in Hnodup.
    apply NoDup_cons in Hnodup as [Hnotin _]. intros Heq. apply Hnotin.
    rewrite Heq. left.
  - rewrite IH1 by assumption. apply IH2.
    assert (Hkeys : map fst l ≡ₚ map fst l') by now apply Permutation_map.
    now rewrite <- Hkeys.
Qed.

Lemma dumps_JDict (d : list (string * json)) :
  dumps (JDict d)
  = "{" +:+ str_join ", "
              (map (fun kv => encode_str kv.1 +:+ ": " +:+ kv.2)
                   (sort_by_key (map (fun kv => (kv.1, dumps kv.2)) d)))
        +:+ "}".
Proof. reflexivity. Qed.

Lemma dumps_JDict_Permutation (d d' : list (string * json)) :
  d ≡ₚ d' → NoDup (keys d) → dumps (JDict d) = dumps (JDict d').
Proof.
  intros Hperm Hnodup. rewrite !dumps_JDict. do 4 f_equal.
  apply sort_by_key_Permutation.
  - now apply Permutation_map.
  - unfold keys in Hnodup. now rewrite map_map.
Qed.

(** X4: the canonical JSON of a mapping does not depend on the order in
    which its keys were inserted: two dicts with distinct keys and the same
    items serialise to the same text. *)
Theorem dumps_ignores_key_order (d d' : list (string * json)) :
  d ≡ₚ d' → NoDup (keys d) → dumps (JDict d) = dumps (JDict d').
Proof. apply dumps_JDict_Permutation. Qed.

Lemma dumps_ignores_key_order_witness :
  dumps (JDict [("type", JStr "mfcc"); ("window", JFloat "0.025")])
  = dumps (JDict [("window", JFloat "0.025"); ("type", JStr "mfcc")]).
Proof.
  apply dumps_ignores_key_order.
  - apply perm_swap.
  - apply NoDup_cons. split.
    + rewrite list_elem_of_singleton. discriminate.
    + apply NoDup_singleton.
Defined.

Lemma config_checksum_Some (config : list (string * json)) (k : string)
    (features datasets : json) :
  dict_get config "features" = Some features →
  dict_get config "datasets" = Some datasets →
  config_checksum config k
  = Ok (dumps (JDict [("features", features); ("datasets", datasets)]) +:+ newline,
        MD5.hexdigest
          (dumps (JDict [("features", features); ("datasets", datasets)])
           +:+ newline)).
Proof.
  intros Hf Hd. unfold config_checksum, getitem. now rewrite Hf, Hd.
Qed.

(** X5: writing the keys of the feature-extraction parameters in another
    order does not change the fingerprint: the canonical JSON and the digest
    are the same. *)
Theorem config_checksum_ignores_key_order
    (config config' : list (string * json)) (features features' : list (string * json))
    (k k' : string) :
  dict_get config "features" = Some (JDict features) →
  dict_get config' "features" = Some (JDict features') →
  features ≡ₚ features' → NoDup (keys features) →
  dict_get config "datasets" = dict_get config' "datasets" →
  config_checksum config k = config_checksum config' k'.
Proof.
  intros Hf Hf' Hperm Hnodup Hd.
  destruct (dict_get config "datasets") as [datasets|] eqn:Hds.
  - rewrite (config_checksum_Some _ _ _ _ Hf Hds).
    rewrite (config_checksum_Some _ _ _ _ Hf' (eq_sym Hd)).
    assert (Hjson :
      dumps (JDict [("features", JDict features); ("datasets", datasets)])
      = dumps (JDict [("features", JDict features'); ("datasets", datasets)])).
    { rewrite (dumps_JDict [("features", JDict features); ("datasets", datasets)]).
      rewrite (dumps_JDict [("features", JDict features'); ("datasets", datasets)]).
      cbn [map fst snd].
      now rewrite (dumps_JDict_Permutation _ _ Hperm Hnodup). }
    now rewrite Hjson.
  - unfold config_checksum, getitem. now rewrite Hf, Hf', <- Hd, Hds.
Qed.

Lemma config_checksum_ignores_key_order_witness :
  config_checksum
    [("features", JDict [("type", JStr "mfcc"); ("window", JFloat "0.025")]);
     ("datasets", JList [])] "train"
  = config_checksum
      [("datasets", JList []);
       ("features", JDict [("window", JFloat "0.025"); ("type", JStr "mfcc")])]
      "test".
Proof.
  apply (config_checksum_ignores_key_order _ _
           [("type", JStr "mfcc"); ("window", JFloat "0.025")]
           [("window", JFloat "0.025"); ("type", JStr "mfcc")]).
  - reflexivity.
  - reflexivity.
  - apply perm_swap.
  - apply NoDup_cons. split.
    + rewrite list_elem_of_singleton. discriminate.
    + apply NoDup_singleton.
  - reflexivity.
Defined.


(** ** Label encoding, continued *)

Lemma dict_get_zip_lookup (labels : list string) :
  ∀ (values : list Z) (i : nat) (l : string) (v : Z),
    NoDup labels → labels !! i = Some l → values !! i = Some v →
    dict_get (zip labels values) l = Some v.
Proof.
  induction labels as [|x labels IH]; intros values i l v Hnodup Hl Hv;
    [discriminate|].
  destruct values as [|y values]; [destruct i; discriminate|].
  apply NoDup_cons in Hnodup as [Hx Hnodup]. simpl.
  destruct i as [|i]; simpl in Hl, Hv.
  - injection Hl as ->. injection Hv as ->. now rewrite String.eqb_refl.
  - destruct (String.eqb l x) eqn:E.
    + apply String.eqb_eq in E. subst x. exfalso. apply Hx.
      eapply list_elem_of_lookup_2. exact Hl.
    + eapply IH; eassumption.
Qed.

Lemma one_hot_row (i L : nat) :
  (i < L)%nat →
  map (fun j => if Z.of_nat i =? j then 1 else 0) (tf.range L)
  = <[i := 1]> (replicate L 0).
Proof.
  intros Hi. unfold tf.range. apply list_eq. intros j.
  rewrite !list_lookup_fmap.
  destruct (decide (j < L)%nat) as [Hj|Hj].
  - rewrite lookup_seq_lt by assumption. simpl.
    destruct (decide (i = j)) as [->|Hne].
    + rewrite Z.eqb_refl, list_lookup_insert_eq; [reflexivity|].
      now rewrite length_replicate.
    + rewrite list_lookup_insert_ne by assumption.
      rewrite lookup_replicate_2 by assumption.
      cbn [Nat.add].
      destruct (Z.eqb_spec (Z.of_nat i) (Z.of_nat j)); [lia | reflexivity].
  - rewrite lookup_seq_ge by lia. simpl. symmetry. apply lookup_ge_None.
    rewrite length_insert, length_replicate. lia.
Qed.

Lemma label2onehot_at_index (labels : list string) (i : nat) (l : string) :
  NoDup labels → labels !! i = Some l →
  label2onehot labels None l = Ok (<[i := 1]> (replicate (length labels) 0)).
Proof.
  intros Hnodup Hl. unfold label2onehot, make_label2onehot.
  pose proof (lookup_lt_Some _ _ _ Hl) as Hi.
  assert (Hlookup :
    tf.lookup {| tf.initializer := zip labels (tf.range (length labels));
                 tf.default_value := Z.of_nat (length labels) |} l
    = Z.of_nat i).
  { unfold tf.lookup. cbn [tf.initializer tf.default_value].
    rewrite (dict_get_zip_lookup labels _ i l (Z.of_nat i) Hnodup Hl); [reflexivity|].
    unfold tf.range. rewrite list_lookup_fmap, lookup_seq_lt by assumption.
    reflexivity. }
  rewrite Hlookup. unfold tf.getitem.
  destruct (Z.ltb_spec (Z.of_nat i) 0) as [|_]; [lia|].
  rewrite one_hot_length, range_length.
  destruct (Z.leb_spec 0 (Z.of_nat i)) as [_|]; [|lia].
  destruct (Z.ltb_spec (Z.of_nat i) (Z.of_nat (length labels))) as [_|]; [|lia].
  cbn [andb]. rewrite Nat2Z.id. unfold tf.one_hot.
  rewrite list_lookup_fmap.
  replace (tf.range (length labels) !! i) with (Some (Z.of_nat i)).
  - simpl. now rewrite one_hot_row.
  - unfold tf.range. rewrite list_lookup_fmap, lookup_seq_lt by assumption.
    reflexivity.
Qed.

(** X7: with distinct vocabulary labels and no [onehot_dims], the label at
    position [i] is encoded as the vector of the vocabulary's length that is
    1 at [i] and 0 elsewhere. *)
Theorem label2onehot_unit_vector (labels : list string) (i : nat) (l : string) :
  NoDup labels → labels !! i = Some l →
  label2onehot labels None l = Ok (<[i := 1]> (replicate (length labels) 0)).
Proof.
  apply label2onehot_at_index.
Qed.

Lemma label2onehot_unit_vector_witness :
  label2onehot ["en"; "fr"; "de"] None "de" = Ok [0; 0; 1].
Proof.
  apply (label2onehot_unit_vector ["en"; "fr"; "de"] 2 "de"); [|reflexivity].
  repeat (apply NoDup_cons; split;
          [rewrite ?elem_of_cons, elem_of_nil; intros H;
           repeat destruct H as [H|H]; discriminate || contradiction|]).
  apply NoDup_nil_2.
Defined.

(** X8: with a non-zero [onehot_dims] the encoder never returns a vector,
    whatever the vocabulary and the label: every path through it ends in an
    exception. *)
Theorem label2onehot_with_dims_raises
    (labels : list string) (dims : Z) (l : string) :
  dims ≠ 0 → raises (label2onehot labels (Some dims) l).
Proof.
  intros Hdims. unfold label2onehot, make_label2onehot.
  destruct (Z.eqb_spec dims 0) as [|_]; [contradiction|].
  destruct (tf.getitem _ _) as [e|o]; [now exists e|]. cbn [rbind].
  destruct (tf.zeros _) as [e|z]; [now exists e|]. cbn [rbind].
  eexists. reflexivity.
Qed.

Lemma label2onehot_with_dims_raises_witness :
  raises (label2onehot ["en"; "fr"; "de"] (Some 3) "fr").
Proof. apply label2onehot_with_dims_raises. discriminate. Defined.


(** ** Manifest rows *)

Lemma split_on_nonempty (p : ascii → bool) (s : string) : split_on p s ≠ [].
Proof.
  destruct s as [|c s]; simpl; [discriminate|].
  destruct (p c); [discriminate|]. now destruct (split_on p s).
Qed.

Lemma str_join_cons_char (sep : string) (c : ascii) (w : string) (ws : list string) :
  str_join sep (String c w :: ws) = String c (str_join sep (w :: ws)).
Proof. destruct ws; reflexivity. Qed.

Lemma str_join_split_on (s : string) : str_join " " (split_on is_blank s) = s.
Proof.
  induction s as [|c s IH]; [reflexivity|]. cbn [split_on].
  pose proof (split_on_nonempty is_blank s) as Hne.
  destruct (is_blank c) eqn:E.
  - unfold is_blank in E. apply Ascii.eqb_eq in E. subst c.
    destruct (split_on is_blank s) as [|w ws]; [contradiction|].
    change (str_join " " (EmptyString :: w :: ws))
      with (String " " (str_join " " (w :: ws))).
    now rewrite IH.
  - destruct (split_on is_blank s) as [|w ws]; [contradiction|].
    rewrite str_join_cons_char. now rewrite IH.
Qed.

Lemma split_on_fields_atomic (s : string) :
  Forall (λ f, split_on is_blank f = [f]) (split_on is_blank s).
Proof.
  induction s as [|c s IH]; [repeat constructor|]. cbn [split_on].
  pose proof (split_on_nonempty is_blank s) as Hne.
  destruct (is_blank c) eqn:E; [constructor; [reflexivity | exact IH]|].
  destruct (split_on is_blank s) as [|w ws]; [contradiction|].
  apply Forall_cons in IH as [Hw Hws]. constructor; [|exact Hws].
  cbn [split_on]. now rewrite E, Hw.
Qed.

Lemma is_blank_is_space (c : ascii) : is_blank c = true → is_space c = true.
Proof.
  unfold is_blank. intros E. apply Ascii.eqb_eq in E. now subst c.
Qed.

Lemma lstrip_head (s : string) :
  lstrip s = EmptyString ∨ ∃ c t, lstrip s = String c t ∧ is_space c = false.
Proof.
  induction s as [|c s IH]; [now left|]. simpl.
  destruct (is_space c) eqn:E; [exact IH|]. right. eauto.
Qed.

Lemma rstrip_cons (c : ascii) (t : string) :
  is_space c = false → rstrip (String c t) = String c (rstrip t).
Proof. intros E. simpl. now rewrite E. Qed.

Lemma rstrip_idempotent (s : string) : rstrip (rstrip s) = rstrip s.
Proof.
  induction s as [|c s IH]; [reflexivity|]. simpl.
  destruct (is_space c && str_is_empty (rstrip s)) eqn:E; [reflexivity|].
  simpl. rewrite IH. now rewrite E.
Qed.

Lemma strip_idempotent (s : string) : strip (strip s) = strip s.
Proof.
  unfold strip. destruct (lstrip_head s) as [->|(c & t & -> & Hc)]; [reflexivity|].
  rewrite rstrip_cons by assumption. cbn [lstrip]. rewrite Hc.
  rewrite rstrip_cons by assumption. now rewrite rstrip_idempotent.
Qed.

Lemma strip_head (s : string) :
  strip s = EmptyString ∨ ∃ c t, strip s = String c t ∧ is_space c = false.
Proof.
  unfold strip. destruct (lstrip_head s) as [->|(c & t & -> & Hc)]; [now left|].
  right. rewrite rstrip_cons by assumption. eauto.
Qed.

(** X9: every row that [parse_space_separated] yields comes from a line
    that is not blank: the row has a first field, which is not empty; no
    field contains a space; and joining the fields with single spaces
    gives back a line without surrounding whitespace. *)
Theorem parsed_rows_are_stripped_lines
    (fs : gmap string string) (path : string) (rows : list (list string)) :
  parse_space_separated fs path = Ok rows →
  Forall (λ row,
            (∃ f rest, row = f :: rest ∧ f ≠ EmptyString) ∧
            Forall (λ f, split_on is_blank f = [f]) row ∧
            str_join " " row ≠ EmptyString ∧
            strip (str_join " " row) = str_join " " row)
         rows.
Proof.
  unfold parse_space_separated. destruct (fs !! path) as [content|]; [|discriminate].
  intros [= <-]. apply Forall_fmap, Forall_forall. intros line Hline.
  apply list_elem_of_filter in Hline as [Hne Hline].
  apply list_elem_of_fmap in Hline as (raw & -> & _). cbn [compose].
  rewrite str_join_split_on.
  destruct (strip_head raw) as [E|(c & t & E & Hc)].
  { rewrite E in Hne. contradiction. }
  split; [|split; [|split]].
  - rewrite E. cbn [split_on].
    destruct (is_blank c) eqn:Eb.
    { apply is_blank_is_space in Eb. congruence. }
    pose proof (split_on_nonempty is_blank t) as Ht.
    destruct (split_on is_blank t) as [|w ws]; [contradiction|].
    exists (String c w), ws. split; [reflexivity | discriminate].
  - apply split_on_fields_atomic.
  - rewrite E. discriminate.
  - apply strip_idempotent.
Qed.

Lemma parsed_rows_are_stripped_lines_witness :
  Forall (λ row,
            (∃ f rest, row = f :: rest ∧ f ≠ EmptyString) ∧
            Forall (λ f, split_on is_blank f = [f]) row ∧
            str_join " " row ≠ EmptyString ∧
            strip (str_join " " row) = str_join " " row)
         [["a"; "en"]; ["b"; EmptyString; "fr"; "extra"]].
Proof.
  apply (parsed_rows_are_stripped_lines
           (Examples.files ["a en"; "  "; "b  fr extra"] [])
           "/data/train/utt2label").
  apply parse_space_separated_example.
Defined.
(** ** Registry construction, continued *)

Section RegistryProperties.
Context {float : Type}.
Variable float_of_string : string → option float.
Variable minus_one : float.
Variable random_shuffle : list string → list string.

Local Abbreviation build_registry' :=
  (build_registry float float_of_string minus_one random_shuffle).
Local Abbreviation extract_features' :=
  (extract_features float float_of_string minus_one random_shuffle).
Local Abbreviation merge_datasets' :=
  (merge_datasets float float_of_string minus_one).
Local Abbreviation dataset_step' := (dataset_step float float_of_string minus_one).
Local Abbreviation label_step' := (label_step float minus_one).
Local Abbreviation duration_step' := (duration_step float float_of_string).
Local Abbreviation select_utterances' := (select_utterances float random_shuffle).
Local Abbreviation order_in_effect' := (order_in_effect random_shuffle).

Ltac raise_or_continue :=
  repeat match goal with
         | |- raises (rbind ?m _) =>
             let e := fresh "e" in
             destruct m as [e|?]; [now exists e | cbn [rbind]]
         | |- raises (match ?x with (_, _) => _ end) => destruct x
         end.

(** X10: for the types "sparsespeech" and "kaldi", [extract_features] never
    returns a feature source: whatever the manifests and the configuration
    hold, the call ends in an exception. *)
Theorem precomputed_backends_raise
    (fs : gmap string string) (a : args) (datasets : list ds_config)
    (config : list (string * json)) (datagroup_key : string)
    (trim_audio debug_squeeze_last_dim : bool) (ty : string) :
  getitem config "type" = Ok (JStr ty) →
  ty = "sparsespeech" ∨ ty = "kaldi" →
  raises (extract_features' fs a datasets config datagroup_key trim_audio
                            debug_squeeze_last_dim).
Proof.
  intros Hty Hcase. unfold extract_features.
  destruct (build_registry' fs a datasets datagroup_key)
    as [e|[[[ul paths] metas] dg]]; [now exists e|].
  cbn [rbind]. unfold dispatch. rewrite Hty. cbn [rbind Ok].
  destruct Hcase as [-> | ->]; cbn [json_eq_str String.eqb Ascii.eqb Bool.eqb].
  - raise_or_continue. eexists; reflexivity.
  - cbn [rbind Ok json_eq_str String.eqb Ascii.eqb Bool.eqb].
    raise_or_continue. eexists; reflexivity.
Qed.

(** X11: with an empty list of datasets, [extract_features] raises
    [NameError] unless shuffling is forced on the command line and the
    verbosity is at most 1: it reads variables that only the loop over
    datasets binds. *)
Theorem no_datasets_is_an_error
    (fs : gmap string string) (a : args) (config : list (string * json))
    (datagroup_key : string) (trim_audio debug_squeeze_last_dim : bool) :
  shuffle_utt2path a = false ∨ 1 < verbosity a →
  ∃ name,
    extract_features' fs a [] config datagroup_key trim_audio
                      debug_squeeze_last_dim
    = Raise (NameError name).
Proof.
  intros Hcase. unfold extract_features, build_registry, merge_datasets.
  cbn [foldM rbind Ok]. unfold report_totals.
  destruct (Z.ltb_spec 1 (verbosity a)) as [Hv|Hv].
  - eexists. reflexivity.
  - destruct Hcase as [Hshuffle|Hv']; [|lia].
    cbn [rbind Ok]. unfold select_utterances.
    replace (same_key_sets [] []) with true by reflexivity.
    cbn [assert rbind Ok]. rewrite Hshuffle. eexists. reflexivity.
Qed.

(** *** What the registry holds *)

Lemma build_registry_Ok (fs : gmap string string) (a : args)
    (datasets : list ds_config) (datagroup_key : string)
    (utterance_list paths : list string)
    (metas : list (string * string * string * float)) (dg : option datagroup) :
  build_registry' fs a datasets datagroup_key
  = Ok (utterance_list, paths, metas, dg) →
  ∃ p m,
    merge_datasets' fs datagroup_key datasets = Ok (p, m, dg) ∧
    select_utterances' a (p, m, dg) = Ok utterance_list ∧
    collect_paths float p m utterance_list = Ok (paths, metas).
Proof.
  intros Hbuild. unfold build_registry in Hbuild.
  apply rbind_Ok in Hbuild as ([[p m] dg0] & Hmerge & Hbuild).
  apply rbind_Ok in Hbuild as (u & _ & Hbuild).
  apply rbind_Ok in Hbuild as (ul & Hselect & Hbuild).
  apply rbind_Ok in Hbuild as ([paths0 metas0] & Hcollect & Hbuild).
  injection Hbuild as <- <- <- <-. eauto.
Qed.

Lemma order_in_effect_Permutation (a : args) (dg : option datagroup)
    (l : list string) :
  (∀ l, random_shuffle l ≡ₚ l) → order_in_effect' a dg l ≡ₚ l.
Proof.
  intros Hperm. unfold order_in_effect.
  now destruct (shuffle_enabled a dg).
Qed.

(** X12: without a file limit, and with a shuffle that only reorders, the
    registry lists every utterance id kept from the path manifests exactly
    once, and these are exactly the ids kept from the label manifests. *)
Theorem registry_without_limit_is_complete
    (fs : gmap string string) (a : args) (datasets : list ds_config)
    (datagroup_key : string) (utterance_list paths : list string)
    (metas : list (string * string * string * float)) (dg : option datagroup) :
  (∀ l, random_shuffle l ≡ₚ l) →
  file_limit a = None ∨ file_limit a = Some 0 →
  build_registry' fs a datasets datagroup_key
  = Ok (utterance_list, paths, metas, dg) →
  utterance_list ≡ₚ path_defs fs datagroup_key datasets ∧
  NoDup utterance_list ∧
  list_to_set utterance_list = label_ids fs datagroup_key datasets.
Proof.
  intros Hperm Hlimit Hbuild.
  apply build_registry_Ok in Hbuild as (p & m & Hmerge & Hselect & _).
  destruct (merge_keys _ _ _ _ _ _ _ _ Hmerge) as [Hm Hp].
  destruct (merge_defs_distinct _ _ _ _ _ _ Hmerge) as [_ Hnodup].
  apply select_utterances_Ok in Hselect as [Hsame Hul].
  assert (Horder : utterance_list ≡ₚ path_defs fs datagroup_key datasets).
  { rewrite <- Hp, Hul.
    destruct Hlimit as [-> | ->]; cbn [Z.eqb];
      now apply order_in_effect_Permutation. }
  split; [exact Horder|]. split; [now rewrite Horder|].
  unfold same_key_sets in Hsame. apply bool_decide_eq_true in Hsame.
  unfold label_ids. rewrite <- Hm, <- Hsame, Hp.
  apply set_eq. intros x. rewrite !elem_of_list_to_set. now rewrite Horder.
Qed.

(** X13: with a file limit [N > 0] and a shuffle that only reorders, the
    registry holds [min N k] distinct utterances, where [k] is the number of
    ids kept from the path manifests; a limit above [k] drops nothing. *)
Theorem registry_size_with_limit
    (fs : gmap string string) (a : args) (datasets : list ds_config)
    (datagroup_key : string) (N : Z) (utterance_list paths : list string)
    (metas : list (string * string * string * float)) (dg : option datagroup) :
  (∀ l, random_shuffle l ≡ₚ l) →
  file_limit a = Some N → 0 < N →
  build_registry' fs a datasets datagroup_key
  = Ok (utterance_list, paths, metas, dg) →
  length utterance_list
  = Nat.min (Z.to_nat N) (length (path_defs fs datagroup_key datasets)) ∧
  length paths = length utterance_list ∧
  length metas = length utterance_list ∧
  NoDup utterance_list ∧
  utterance_list ⊆ path_defs fs datagroup_key datasets.
Proof.
  intros Hperm Hlimit HN Hbuild.
  apply build_registry_Ok in Hbuild as (p & m & Hmerge & Hselect & Hcollect).
  destruct (merge_keys _ _ _ _ _ _ _ _ Hmerge) as [_ Hp].
  destruct (merge_defs_distinct _ _ _ _ _ _ Hmerge) as [_ Hnodup].
  apply select_utterances_Ok in Hselect as [_ Hul].
  rewrite Hlimit, Hp in Hul.
  destruct (Z.eqb_spec N 0) as [->|_]; [lia|].
  unfold slice_to in Hul. destruct (Z.leb_spec 0 N) as [_|]; [|lia].
  pose proof (order_in_effect_Permutation a dg
                (path_defs fs datagroup_key datasets) Hperm) as Horder.
  apply collect_paths_Ok in Hcollect as [Hids Hpaths].
  apply (f_equal length) in Hids, Hpaths. rewrite !length_map in Hids, Hpaths.
  split; [|split; [|split; [|split]]].
  - rewrite Hul, length_take. now rewrite Horder.
  - now rewrite length_map in Hpaths.
  - exact Hids.
  - rewrite Hul. eapply sublist_NoDup; [|apply sublist_take]. now rewrite Horder.
  - rewrite Hul. intros x Hx. rewrite <- Horder.
    eapply (subseteq_take _ _ _ Hx).
Qed.

(** X14: a negative file limit [-k] is a slice bound, not a count: the
    registry keeps all but the last [k] ids of the order in effect. *)
Theorem negative_file_limit_drops_the_tail
    (fs : gmap string string) (a : args) (datasets : list ds_config)
    (datagroup_key : string) (N : Z) (utterance_list paths : list string)
    (metas : list (string * string * string * float)) (dg : option datagroup) :
  file_limit a = Some N → N < 0 →
  build_registry' fs a datasets datagroup_key
  = Ok (utterance_list, paths, metas, dg) →
  let order := order_in_effect' a dg (path_defs fs datagroup_key datasets) in
  utterance_list = take (length order - Z.to_nat (- N)) order.
Proof.
  intros Hlimit HN Hbuild order.
  apply build_registry_Ok in Hbuild as (p & m & Hmerge & Hselect & _).
  destruct (merge_keys _ _ _ _ _ _ _ _ Hmerge) as [_ Hp].
  apply select_utterances_Ok in Hselect as [_ Hul].
  rewrite Hlimit, Hp in Hul. fold order in Hul.
  destruct (Z.eqb_spec N 0) as [->|_]; [lia|].
  unfold slice_to in Hul. destruct (Z.leb_spec 0 N) as [|_]; [lia|].
  rewrite Hul. f_equal. lia.
Qed.

(** *** Where the entries come from *)

Lemma dict_get_setitem {V} (d : list (string * V)) (k k' : string) (v : V) :
  dict_get (setitem d k v) k'
  = if String.eqb k' k then Some v else dict_get d k'.
Proof.
  induction d as [|[k0 v0] d IH]; simpl.
  - reflexivity.
  - destruct (String.eqb k k0) eqn:E; simpl.
    + apply String.eqb_eq in E. subst k0.
      now destruct (String.eqb k' k).
    + rewrite IH. destruct (String.eqb k' k0) eqn:E0; [|reflexivity].
      apply String.eqb_eq in E0. subst k0.
      now rewrite String.eqb_sym, E.
Qed.

Lemma foldM_invariant_in {A S} (P : S → Prop) (f : S → A → result S) (l : list A) :
  (∀ s x s', x ∈ l → P s → f s x = Ok s' → P s') →
  ∀ s s', P s → foldM f s l = Ok s' → P s'.
Proof.
  induction l as [|x l IH]; intros Hstep s s' Hs Hfold; simpl in Hfold.
  - injection Hfold as <-. exact Hs.
  - apply rbind_Ok in Hfold as (s1 & Hf & Hfold).
    eapply IH; [| |exact Hfold].
    + intros s0 y s0' Hy. apply Hstep. now right.
    + eapply Hstep; [left|exact Hs|exact Hf].
Qed.

Lemma label_loop_sound (fs : gmap string string) (datagroup_key : string)
    (datasets : list ds_config) (ds : ds_config) (dg : datagroup)
    (rows : list (list string)) (st st' : gset string * list (string * meta float)) :
  ds ∈ datasets → dict_get (ds_datagroups ds) datagroup_key = Some dg →
  rows ⊆ manifest_rows fs (utt2label_path dg) →
  (∀ utt x, dict_get st.2 utt = Some x →
            labelled_by fs datagroup_key datasets utt (label float x)
                        (dataset float x)) →
  foldM (label_step' (list_to_set (ds_labels ds)) (ds_key ds)) st rows = Ok st' →
  ∀ utt x, dict_get st'.2 utt = Some x →
           labelled_by fs datagroup_key datasets utt (label float x)
                       (dataset float x).
Proof.
  intros Hds Hdg Hrows Hst Hfold.
  refine (foldM_invariant_in
            (λ s, ∀ utt x, dict_get s.2 utt = Some x →
                           labelled_by fs datagroup_key datasets utt
                                       (label float x) (dataset float x))
            _ rows _ st st' Hst Hfold).
  intros [sk m] row [sk' m'] Hrow Hinv Hstep. cbn [snd] in *.
  destruct row as [|u [|l rest]]; try discriminate Hstep.
  unfold label_step in Hstep.
  destruct (bool_decide (l ∈ (list_to_set (ds_labels ds) : gset string))) eqn:El;
    cbn [negb] in Hstep.
  - apply rbind_Ok in Hstep as (tt0 & _ & Hstep). injection Hstep as <- <-.
    intros utt x. rewrite dict_get_setitem.
    destruct (String.eqb utt u) eqn:E; [|apply Hinv].
    apply String.eqb_eq in E. subst u. intros [= <-]. cbn [label dataset].
    exists ds, dg, rest. repeat split; try assumption.
    + now apply Hrows.
    + apply bool_decide_eq_true in El. now apply elem_of_list_to_set in El.
  - now injection Hstep as <- <-.
Qed.

Lemma duration_loop_sound (P : string → meta float → Prop)
    (rows : list (list string)) (m m' : list (string * meta float)) :
  (∀ utt x d, P utt x →
              P utt {| label := label float x; dataset := dataset float x;
                       duration_sec := d |}) →
  (∀ utt x, dict_get m utt = Some x → P utt x) →
  foldM duration_step' m rows = Ok m' →
  ∀ utt x, dict_get m' utt = Some x → P utt x.
Proof.
  intros HP Hm Hfold.
  refine (foldM_invariant (λ s, ∀ utt x, dict_get s utt = Some x → P utt x)
            _ rows _ m m' Hm Hfold).
  intros s row s' Hinv Hstep.
  destruct row as [|u [|duration rest]]; try discriminate Hstep.
  unfold duration_step in Hstep.
  apply rbind_Ok in Hstep as (tt0 & _ & Hstep).
  destruct (float_of_string duration) as [d|]; [|discriminate Hstep].
  destruct (dict_get s u) as [y|] eqn:Ey; [|discriminate Hstep].
  injection Hstep as <-. intros utt x. rewrite dict_get_setitem.
  destruct (String.eqb utt u) eqn:E; [|apply Hinv].
  apply String.eqb_eq in E. subst u. intros [= <-]. apply HP. now apply Hinv.
Qed.

Lemma path_loop_sound (fs : gmap string string) (datagroup_key : string)
    (datasets : list ds_config) (ds : ds_config) (dg : datagroup)
    (skipped : gset string) (rows : list (list string))
    (p p' : list (string * string)) :
  ds ∈ datasets → dict_get (ds_datagroups ds) datagroup_key = Some dg →
  rows ⊆ manifest_rows fs (utt2path_path dg) →
  (∀ utt path, dict_get p utt = Some path →
               located_by fs datagroup_key datasets utt path) →
  foldM (path_step skipped) p rows = Ok p' →
  ∀ utt path, dict_get p' utt = Some path →
              located_by fs datagroup_key datasets utt path.
Proof.
  intros Hds Hdg Hrows Hp Hfold.
  refine (foldM_invariant_in
            (λ s, ∀ utt path, dict_get s utt = Some path →
                              located_by fs datagroup_key datasets utt path)
            _ rows _ p p' Hp Hfold).
  intros s row s' Hrow Hinv Hstep.
  destruct row as [|u [|path0 rest]]; try discriminate Hstep.
  unfold path_step in Hstep. destruct (bool_decide (u ∈ skipped)).
  - now injection Hstep as <-.
  - apply rbind_Ok in Hstep as (tt0 & _ & Hstep). injection Hstep as <-.
    intros utt path. rewrite dict_get_setitem.
    destruct (String.eqb utt u) eqn:E; [|apply Hinv].
    apply String.eqb_eq in E. subst u. intros [= <-].
    exists ds, dg, rest. repeat split; try assumption. now apply Hrows.
Qed.

Lemma dataset_step_sound (fs : gmap string string) (datagroup_key : string)
    (datasets : list ds_config) (ds : ds_config) (st st' : merge_state float) :
  ds ∈ datasets → backed_by_rows fs datagroup_key datasets st →
  dataset_step' fs datagroup_key st ds = Ok st' →
  backed_by_rows fs datagroup_key datasets st'.
Proof.
  destruct st as [[p m] dg0], st' as [[p' m'] dg']. intros Hds [Hp Hm] Hstep.
  cbn [fst snd] in Hp, Hm. unfold dataset_step in Hstep.
  apply rbind_Ok in Hstep as (g & Hdg & Hstep). apply getitem_dict_get in Hdg.
  apply rbind_Ok in Hstep as (lrows & Hlrows & Hstep).
  apply rbind_Ok in Hstep as ([skipped m1] & Hlabels & Hstep).
  apply rbind_Ok in Hstep as (m2 & Hdur & Hstep).
  apply rbind_Ok in Hstep as (prows & Hprows & Hstep).
  apply rbind_Ok in Hstep as (p1 & Hpaths & Hstep).
  injection Hstep as <- <- <-. split; cbn [fst snd].
  - eapply path_loop_sound; [exact Hds|exact Hdg| |exact Hp|exact Hpaths].
    now rewrite (manifest_rows_parsed _ _ _ Hprows).
  - assert (Hm1 : ∀ utt x, dict_get m1 utt = Some x →
                           labelled_by fs datagroup_key datasets utt
                                       (label float x) (dataset float x)).
    { eapply (label_loop_sound fs datagroup_key datasets ds g lrows (∅, m)
                (skipped, m1)); try eassumption.
      now rewrite (manifest_rows_parsed _ _ _ Hlrows). }
    destruct (fs !! utt2dur_path g); [|now injection Hdur as <-].
    apply rbind_Ok in Hdur as (drows & _ & Hdur).
    eapply (duration_loop_sound
              (λ utt x, labelled_by fs datagroup_key datasets utt
                                    (label float x) (dataset float x)));
      [|exact Hm1|exact Hdur].
    intros utt x d H. exact H.
Qed.

Lemma merge_sound (fs : gmap string string) (datagroup_key : string)
    (datasets : list ds_config) (st : merge_state float) :
  merge_datasets' fs datagroup_key datasets = Ok st →
  backed_by_rows fs datagroup_key datasets st.
Proof.
  intros Hmerge. unfold merge_datasets in Hmerge.
  refine (foldM_invariant_in (backed_by_rows fs datagroup_key datasets)
            _ datasets _ _ st _ Hmerge).
  - intros s ds s' Hds Hs Hstep. eapply dataset_step_sound; eassumption.
  - split; intros utt x H; discriminate H.
Qed.

Lemma collect_paths_entries (p : list (string * string))
    (m : list (string * meta float)) (utts paths : list string)
    (metas : list (string * string * string * float)) :
  collect_paths float p m utts = Ok (paths, metas) →
  Forall2 (λ path e,
             dict_get p (meta_id e) = Some path ∧
             ∃ x, dict_get m (meta_id e) = Some x ∧
                  e = (meta_id e, label float x, dataset float x,
                       duration_sec float x))
          paths metas.
Proof.
  unfold collect_paths. intros Hfold.
  refine (foldM_invariant
            (λ acc, Forall2 (λ path e,
                       dict_get p (meta_id e) = Some path ∧
                       ∃ x, dict_get m (meta_id e) = Some x ∧
                            e = (meta_id e, label float x, dataset float x,
                                 duration_sec float x)) acc.1 acc.2)
            _ utts _ ([], []) (paths, metas) _ Hfold).
  - intros [ps ms] utt [ps' ms'] Hacc Hstep. cbn [fst snd] in *.
    apply rbind_Ok in Hstep as (path & Hpath & Hstep).
    apply rbind_Ok in Hstep as (x & Hx & Hstep). injection Hstep as <- <-.
    apply getitem_dict_get in Hpath, Hx.
    apply Forall2_app; [exact Hacc|]. constructor; [|constructor].
    split; [exact Hpath|]. exists x. split; [exact Hx | reflexivity].
  - constructor.
Qed.

(** X15: every entry of the registry is backed by manifest rows: its path is
    the path a path manifest gives its utterance id, and its label is the
    label a label manifest gives that id, enabled in the dataset whose key
    the entry carries. *)
Theorem registry_entries_come_from_manifests
    (fs : gmap string string) (a : args) (datasets : list ds_config)
    (datagroup_key : string) (utterance_list paths : list string)
    (metas : list (string * string * string * float)) (dg : option datagroup) :
  build_registry' fs a datasets datagroup_key
  = Ok (utterance_list, paths, metas, dg) →
  Forall2 (λ path '(utt, l, key, duration),
             located_by fs datagroup_key datasets utt path ∧
             labelled_by fs datagroup_key datasets utt l key)
          paths metas.
Proof.
  intros Hbuild.
  apply build_registry_Ok in Hbuild as (p & m & Hmerge & _ & Hcollect).
  apply merge_sound in Hmerge as [Hp Hm]. cbn [fst snd] in Hp, Hm.
  apply collect_paths_entries in Hcollect.
  eapply Forall2_impl; [exact Hcollect|].
  intros path [[[utt l] key] duration] [Hpath (x & Hx & Heq)].
  unfold meta_id in *. cbn [fst snd] in *. injection Heq as -> -> _.
  split; [now apply Hp | now apply Hm].
Qed.

(** *** Durations *)

Lemma label_loop_durations (enabled : gset string) (key : string)
    (rows : list (list string)) (st st' : gset string * list (string * meta float)) :
  durations_are minus_one st.2 →
  foldM (label_step' enabled key) st rows = Ok st' →
  durations_are minus_one st'.2.
Proof.
  intros Hst Hfold.
  refine (foldM_invariant (λ s, durations_are minus_one s.2) _ rows _ st st' Hst Hfold).
  intros [sk m] row [sk' m'] Hinv Hstep. cbn [snd] in *.
  destruct row as [|u [|l rest]]; try discriminate Hstep.
  unfold label_step in Hstep. destruct (negb _).
  - now injection Hstep as <- <-.
  - apply rbind_Ok in Hstep as (tt0 & _ & Hstep). injection Hstep as <- <-.
    intros utt x. rewrite dict_get_setitem.
    destruct (String.eqb utt u); [|apply Hinv]. now intros [= <-].
Qed.

Lemma merge_durations (fs : gmap string string) (datagroup_key : string)
    (datasets : list ds_config) (st : merge_state float) :
  (∀ ds dg, ds ∈ datasets →
            dict_get (ds_datagroups ds) datagroup_key = Some dg →
            fs !! utt2dur_path dg = None) →
  merge_datasets' fs datagroup_key datasets = Ok st →
  durations_are minus_one st.1.2.
Proof.
  intros Hnone Hmerge. unfold merge_datasets in Hmerge.
  refine (foldM_invariant_in (λ s, durations_are minus_one s.1.2)
            _ datasets _ _ st _ Hmerge).
  - intros [[p m] dg0] ds [[p' m'] dg'] Hds Hs Hstep. cbn [fst snd] in *.
    unfold dataset_step in Hstep.
    apply rbind_Ok in Hstep as (g & Hdg & Hstep). apply getitem_dict_get in Hdg.
    apply rbind_Ok in Hstep as (lrows & _ & Hstep).
    apply rbind_Ok in Hstep as ([skipped m1] & Hlabels & Hstep).
    rewrite (Hnone ds g Hds Hdg) in Hstep. cbn [rbind Ok] in Hstep.
    apply rbind_Ok in Hstep as (prows & _ & Hstep).
    apply rbind_Ok in Hstep as (p1 & _ & Hstep). injection Hstep as <- <- <-.
    exact (label_loop_durations _ _ lrows (∅, m) (skipped, m1) Hs Hlabels).
  - intros utt x H. discriminate H.
Qed.

(** X16: when no dataset of the run has a duration manifest, every entry of
    the registry carries the duration -1.0. *)
Theorem missing_durations_are_minus_one
    (fs : gmap string string) (a : args) (datasets : list ds_config)
    (datagroup_key : string) (utterance_list paths : list string)
    (metas : list (string * string * string * float)) (dg : option datagroup) :
  (∀ ds g, ds ∈ datasets →
           dict_get (ds_datagroups ds) datagroup_key = Some g →
           fs !! utt2dur_path g = None) →
  build_registry' fs a datasets datagroup_key
  = Ok (utterance_list, paths, metas, dg) →
  Forall (λ e, e.2 = minus_one) metas.
Proof.
  intros Hnone Hbuild.
  apply build_registry_Ok in Hbuild as (p & m & Hmerge & _ & Hcollect).
  apply (merge_durations _ _ _ _ Hnone) in Hmerge. cbn [fst snd] in Hmerge.
  apply collect_paths_entries in Hcollect.
  apply Forall2_Forall_r with (Q := λ e, e.2 = minus_one) in Hcollect;
    [exact Hcollect|].
  apply Forall_true. intros path e [_ (x & Hx & ->)]. cbn [snd].
  now apply (Hmerge _ _ Hx).
Qed.

Lemma duration_loop_raises (utt : string) (rows : list (list string)) :
  ∀ m : list (string * meta float),
    utt ∉ keys m → (∃ d rest, (utt :: d :: rest) ∈ rows) →
    raises (foldM duration_step' m rows).
Proof.
  induction rows as [|row rows IH]; intros m Hnotin (d & rest & Hin).
  - now apply elem_of_nil in Hin.
  - simpl. destruct (duration_step' m row) as [e|m1] eqn:Hstep; [now exists e|].
    cbn [rbind]. apply elem_of_cons in Hin as [<-|Hin].
    + exfalso. unfold duration_step in Hstep.
      apply not_contains_keys in Hnotin. rewrite Hnotin in Hstep.
      discriminate Hstep.
    + apply IH; [|eauto].
      assert (Hkeys : keys m1 = keys m).
      { apply (duration_loop_keys float_of_string [row]). simpl.
        now rewrite Hstep. }
      now rewrite Hkeys.
Qed.

Lemma label_defs_app (fs : gmap string string) (datagroup_key : string)
    (l1 l2 : list ds_config) :
  label_defs fs datagroup_key (l1 ++ l2)
  = (label_defs fs datagroup_key l1 ++ label_defs fs datagroup_key l2)%list.
Proof. unfold label_defs. now rewrite map_app, concat_app. Qed.

(** X17: a row of a duration manifest whose utterance id has no enabled
    label row, in its own dataset or in a dataset read before it, makes
    the merging pass raise. *)
Theorem duration_without_label_is_fatal
    (fs : gmap string string) (datagroup_key : string)
    (before after : list ds_config) (ds : ds_config) (g : datagroup)
    (rows : list (list string)) (utt d : string) (rest : list string) :
  dict_get (ds_datagroups ds) datagroup_key = Some g →
  parse_space_separated fs (utt2dur_path g) = Ok rows →
  (utt :: d :: rest) ∈ rows →
  utt ∉ label_defs fs datagroup_key (before ++ [ds]) →
  raises (merge_datasets' fs datagroup_key (before ++ ds :: after)).
Proof.
  intros Hg Hrows Hin Hnotin. unfold merge_datasets. rewrite foldM_app.
  destruct (foldM _ _ before) as [e|[[p m] dg0]] eqn:Hbefore; [now exists e|].
  cbn [rbind foldM].
  destruct (dataset_step' fs datagroup_key (p, m, dg0) ds) as [e|st] eqn:Hstep;
    [now exists e|].
  exfalso. unfold dataset_step in Hstep.
  apply rbind_Ok in Hstep as (g' & Hg' & Hstep). apply getitem_dict_get in Hg'.
  rewrite Hg in Hg'. injection Hg' as <-.
  apply rbind_Ok in Hstep as (lrows & Hlrows & Hstep).
  apply rbind_Ok in Hstep as ([skipped m1] & Hlabels & Hstep).
  apply rbind_Ok in Hstep as (m2 & Hdur & _).
  assert (Hfile : is_Some (fs !! utt2dur_path g)).
  { unfold parse_space_separated in Hrows.
    destruct (fs !! utt2dur_path g); [eauto | discriminate Hrows]. }
  destruct Hfile as [content Hfile]. rewrite Hfile, Hrows in Hdur.
  cbn [rbind Ok] in Hdur.
  destruct (duration_loop_raises utt rows m1) as [e He];
    [|eauto|rewrite He in Hdur; discriminate Hdur].
  apply label_loop_keys in Hlabels as [Hkeys _]. rewrite Hkeys.
  apply merge_keys_from in Hbefore as (Hm & _ & _). rewrite Hm. cbn [keys map app].
  rewrite label_defs_app in Hnotin. unfold label_defs at 2 in Hnotin.
  cbn [map concat] in Hnotin. rewrite app_nil_r in Hnotin.
  unfold dataset_label_defs in Hnotin.
  now rewrite Hg, (manifest_rows_parsed _ _ _ Hlrows) in Hnotin.
Qed.
End RegistryProperties.

Lemma precomputed_backends_raise_witness :
  raises (extract_features string Examples.float_of_string Examples.minus_one
            Examples.reversing_shuffle
            (Examples.files ["a en"] ["a /x"]) Examples.plain_args
            [Examples.d1] [("type", JStr "kaldi")] "train" false false).
Proof.
  apply (precomputed_backends_raise Examples.float_of_string Examples.minus_one
           Examples.reversing_shuffle _ _ _ _ _ _ _ "kaldi").
  - reflexivity.
  - now right.
Defined.

Lemma no_datasets_is_an_error_witness :
  ∃ name,
    extract_features string Examples.float_of_string Examples.minus_one
      Examples.reversing_shuffle ∅ Examples.plain_args [] Examples.mfcc "train"
      false false
    = Raise (NameError name).
Proof. apply no_datasets_is_an_error. now left. Defined.

Lemma reversing_shuffle_Permutation (l : list string) :
  Examples.reversing_shuffle l ≡ₚ l.
Proof. apply reverse_Permutation. Qed.

Lemma registry_without_limit_is_complete_witness :
  ["a"] ≡ₚ path_defs (Examples.files ["a en"; "b fr"] ["a /x"; "b /y"]) "train"
                     [Examples.d1] ∧
  NoDup ["a"] ∧
  list_to_set ["a"]
  = label_ids (Examples.files ["a en"; "b fr"] ["a /x"; "b /y"]) "train"
              [Examples.d1].
Proof.
  apply (registry_without_limit_is_complete Examples.float_of_string
           Examples.minus_one Examples.reversing_shuffle _ Examples.plain_args
           _ _ ["a"] ["/x"] [("a", "en", "d1", "-1.0")] (Some Examples.train_dg)).
  - apply reversing_shuffle_Permutation.
  - now left.
  - apply registry_keeps_enabled_labels.
Defined.

Lemma registry_size_with_limit_witness :
  length ["e"; "d"]
  = Nat.min (Z.to_nat 2)
      (length (path_defs (Examples.files ["a en"; "b en"; "c fr"; "d en"; "e fr"]
                                         ["a /a"; "b /b"; "c /c"; "d /d"; "e /e"])
                         "train" [Examples.d5])) ∧
  length ["/e"; "/d"] = length ["e"; "d"] ∧
  length [("e", "fr", "d5", "-1.0"); ("d", "en", "d5", "-1.0")] = length ["e"; "d"] ∧
  NoDup ["e"; "d"] ∧
  ["e"; "d"] ⊆ path_defs (Examples.files ["a en"; "b en"; "c fr"; "d en"; "e fr"]
                                         ["a /a"; "b /b"; "c /c"; "d /d"; "e /e"])
                         "train" [Examples.d5].
Proof.
  apply (registry_size_with_limit Examples.float_of_string Examples.minus_one
           Examples.reversing_shuffle _ (Examples.limit_args 2) _ _ 2
           ["e"; "d"] ["/e"; "/d"] _ (Some Examples.shuffled_dg)).
  - apply reversing_shuffle_Permutation.
  - reflexivity.
  - lia.
  - apply registry_shuffled_then_truncated.
Defined.

Example registry_with_negative_limit :
  Examples.registry (Examples.files ["a en"; "b en"; "c fr"; "d en"; "e fr"]
                                    ["a /a"; "b /b"; "c /c"; "d /d"; "e /e"])
                    (Examples.limit_args (-2)) [Examples.d5] "train"
  = Ok (["e"; "d"; "c"], ["/e"; "/d"; "/c"],
        [("e", "fr", "d5", "-1.0"); ("d", "en", "d5", "-1.0");
         ("c", "fr", "d5", "-1.0")],
        Some Examples.shuffled_dg).
Proof. vm_compute. reflexivity. Qed.

Lemma negative_file_limit_drops_the_tail_witness :
  let order :=
    order_in_effect Examples.reversing_shuffle (Examples.limit_args (-2))
      (Some Examples.shuffled_dg)
      (path_defs (Examples.files ["a en"; "b en"; "c fr"; "d en"; "e fr"]
                                 ["a /a"; "b /b"; "c /c"; "d /d"; "e /e"])
                 "train" [Examples.d5]) in
  ["e"; "d"; "c"] = take (length order - Z.to_nat (- -2)) order.
Proof.
  apply (negative_file_limit_drops_the_tail Examples.float_of_string
           Examples.minus_one Examples.reversing_shuffle _
           (Examples.limit_args (-2)) _ _ (-2) _ ["/e"; "/d"; "/c"]
           [("e", "fr", "d5", "-1.0"); ("d", "en", "d5", "-1.0");
            ("c", "fr", "d5", "-1.0")] (Some Examples.shuffled_dg)).
  - reflexivity.
  - lia.
  - apply registry_with_negative_limit.
Defined.

Example registry_with_two_labels :
  Examples.registry (Examples.files ["a en"; "b fr"] ["a /x"; "b /y"])
                    Examples.plain_args [Examples.d5] "train"
  = Ok (["b"; "a"], ["/y"; "/x"],
        [("b", "fr", "d5", "-1.0"); ("a", "en", "d5", "-1.0")],
        Some Examples.shuffled_dg).
Proof. vm_compute. reflexivity. Qed.

Lemma registry_entries_come_from_manifests_witness :
  Forall2 (λ path '(utt, l, key, duration),
             located_by (Examples.files ["a en"; "b fr"] ["a /x"; "b /y"])
                        "train" [Examples.d5] utt path ∧
             labelled_by (Examples.files ["a en"; "b fr"] ["a /x"; "b /y"])
                         "train" [Examples.d5] utt l key)
          ["/y"; "/x"]
          [("b", "fr", "d5", "-1.0"); ("a", "en", "d5", "-1.0")].
Proof.
  apply (registry_entries_come_from_manifests Examples.float_of_string
           Examples.minus_one Examples.reversing_shuffle _ Examples.plain_args
           _ _ ["b"; "a"] _ _ (Some Examples.shuffled_dg)).
  apply registry_with_two_labels.
Defined.

Lemma missing_durations_are_minus_one_witness :
  Forall (λ e : string * string * string * string, e.2 = "-1.0")
         [("b", "fr", "d5", "-1.0"); ("a", "en", "d5", "-1.0")].
Proof.
  apply (missing_durations_are_minus_one Examples.float_of_string
           Examples.minus_one Examples.reversing_shuffle
           (Examples.files ["a en"; "b fr"] ["a /x"; "b /y"]) Examples.plain_args
           [Examples.d5] "train" ["b"; "a"] ["/y"; "/x"] _
           (Some Examples.shuffled_dg)).
  - intros ds g Hds Hg. apply list_elem_of_singleton in Hds. subst ds.
    injection Hg as <-. reflexivity.
  - apply registry_with_two_labels.
Defined.

Lemma duration_without_label_is_fatal_witness :
  raises (Examples.merge
            (<["/data/train/utt2dur" := "b 1.5"]>
               (Examples.files ["a en"] ["a /x"]))
            "train" ([] ++ Examples.d1 :: [])).
Proof.
  apply (duration_without_label_is_fatal Examples.float_of_string
           Examples.minus_one _ "train" [] [] Examples.d1 Examples.train_dg
           [["b"; "1.5"]] "b" "1.5" []).
  - reflexivity.
  - vm_compute. reflexivity.
  - left.
  - replace (label_defs _ _ _) with ["a"] by (vm_compute; reflexivity).
    rewrite list_elem_of_singleton. discriminate.
Defined.

(** ** Prediction *)

Lemma pairs_of_rows_app (rows1 rows2 : list (list string)) :
  pairs_of_rows (rows1 ++ rows2)
  = rbind (pairs_of_rows rows1) (fun d =>
      foldM (fun d row =>
               match row with
               | k :: v :: _ => Ok (setitem d k v)
               | _ => Raise (ValueError "dictionary update sequence element has length 1; 2 is required")
               end) d rows2).
Proof. unfold pairs_of_rows. apply foldM_app. Qed.

Lemma pairs_loop_keeps (k : string) (v : string) (rows : list (list string)) :
  ∀ d d' : list (string * string),
    (∀ row, row ∈ rows → head row ≠ Some k) →
    dict_get d k = Some v →
    foldM (fun d row =>
             match row with
             | k :: v :: _ => Ok (setitem d k v)
             | _ => Raise (ValueError "dictionary update sequence element has length 1; 2 is required")
             end) d rows = Ok d' →
    dict_get d' k = Some v.
Proof.
  induction rows as [|row rows IH]; intros d d' Hrows Hd Hfold.
  - now injection Hfold as <-.
  - simpl in Hfold. apply rbind_Ok in Hfold as (d1 & Hstep & Hfold).
    eapply IH; [| |exact Hfold].
    + intros r Hr. apply Hrows. now right.
    + destruct row as [|k' [|v' rest]]; try discriminate Hstep.
      injection Hstep as <-. rewrite dict_get_setitem.
      destruct (String.eqb k k') eqn:E; [|exact Hd].
      apply String.eqb_eq in E. subst k'. exfalso.
      apply (Hrows (k :: v' :: rest)); [left | reflexivity].
Qed.

Lemma pairs_loop_NoDup (rows : list (list string)) :
  ∀ d d' : list (string * string),
    NoDup (keys d) →
    foldM (fun d row =>
             match row with
             | k :: v :: _ => Ok (setitem d k v)
             | _ => Raise (ValueError "dictionary update sequence element has length 1; 2 is required")
             end) d rows = Ok d' →
    NoDup (keys d').
Proof.
  intros d d' Hd Hfold.
  refine (foldM_invariant (λ s, NoDup (keys s)) _ rows _ d d' Hd Hfold).
  intros s row s' Hs Hstep.
  destruct row as [|k [|v rest]]; try discriminate Hstep.
  injection Hstep as <-. now apply NoDup_keys_setitem.
Qed.

(** X18: the ordered dicts of the prediction path keep one entry per
    utterance id, and a repeated id is not an error there: the value of its
    last row is the one that is kept. *)
Theorem pairs_of_rows_last_row_wins
    (before after : list (list string)) (k v : string) (rest : list string)
    (d : list (string * string)) :
  pairs_of_rows (before ++ (k :: v :: rest) :: after) = Ok d →
  (∀ row, row ∈ after → head row ≠ Some k) →
  dict_get d k = Some v ∧ NoDup (keys d).
Proof.
  intros Hd Hafter. split.
  - rewrite pairs_of_rows_app in Hd. apply rbind_Ok in Hd as (d0 & _ & Hd).
    cbn [foldM rbind Ok] in Hd.
    eapply pairs_loop_keeps; [exact Hafter| |exact Hd].
    rewrite dict_get_setitem. now rewrite String.eqb_refl.
  - eapply pairs_loop_NoDup; [|exact Hd]. apply NoDup_nil_2.
Qed.

Lemma pairs_of_rows_last_row_wins_witness :
  dict_get [("a", "/y"); ("b", "/z")] "a" = Some "/y" ∧
  NoDup (keys [("a", "/y"); ("b", "/z")]).
Proof.
  apply (pairs_of_rows_last_row_wins [["a"; "/x"]; ["b"; "/z"]] [] "a" "/y" []).
  - reflexivity.
  - intros row Hrow. now apply elem_of_nil in Hrow.
Defined.

Lemma Predict_select_loop (utt2path utt2label : list (string * string))
    (int2label utts : list string) :
  ∀ paths0 metas0 paths metas,
    foldM (Predict_select_step utt2path utt2label (list_to_set int2label))
          (paths0, metas0) utts = Ok (paths, metas) →
    ∃ paths1 metas1,
      paths = (paths0 ++ paths1)%list ∧ metas = (metas0 ++ metas1)%list ∧
      metas1 = omap (Predict_kept utt2label int2label) utts ∧
      Forall2 (λ path e, dict_get utt2path e.1 = Some path) paths1 metas1.
Proof.
  induction utts as [|utt utts IH]; intros paths0 metas0 paths metas Hfold.
  - injection Hfold as <- <-. exists [], []. rewrite !app_nil_r.
    repeat split. constructor.
  - simpl in Hfold. apply rbind_Ok in Hfold as ([paths1 metas1] & Hstep & Hfold).
    apply IH in Hfold as (paths2 & metas2 & -> & -> & Hmetas & Hpaths).
    unfold Predict_select_step in Hstep.
    apply rbind_Ok in Hstep as (l & Hl & Hstep). apply getitem_dict_get in Hl.
    cbn [omap list_omap]. unfold Predict_kept at 1. rewrite Hl.
    rewrite (bool_decide_ext (l ∈ (list_to_set int2label : gset string))
                             (l ∈ int2label)) in Hstep
      by apply elem_of_list_to_set.
    destruct (bool_decide (l ∈ int2label)); cbn [negb] in Hstep.
    + apply rbind_Ok in Hstep as (path & Hpath & Hstep).
      apply getitem_dict_get in Hpath. injection Hstep as <- <-.
      exists (path :: paths2), ((utt, l) :: metas2).
      rewrite <- !app_assoc. repeat split.
      * now rewrite <- Hmetas.
      * constructor; [exact Hpath | exact Hpaths].
    + injection Hstep as <- <-. exists paths2, metas2. repeat split.
      * exact Hmetas.
      * exact Hpaths.
Qed.

(** X19: the prediction set is the utterance list filtered by the
    vocabulary: it holds, in manifest order, exactly the utterances whose
    label is one of the model's labels, each with that label and with the
    path its id has in [utt2path]. *)
Theorem Predict_select_filters_by_vocabulary
    (a : args) (utt2path utt2label : list (string * string))
    (int2label paths : list string) (metas : list (string * string)) :
  file_limit a = None →
  Predict_select a utt2path utt2label int2label = Ok (paths, metas) →
  metas = omap (Predict_kept utt2label int2label) (keys utt2path) ∧
  Forall2 (λ path e, dict_get utt2path e.1 = Some path) paths metas ∧
  Forall (λ e, dict_get utt2label e.1 = Some e.2 ∧ e.2 ∈ int2label) metas.
Proof.
  intros Hlimit Hselect. unfold Predict_select in Hselect. rewrite Hlimit in Hselect.
  apply Predict_select_loop in Hselect as (paths1 & metas1 & -> & -> & Hmetas & Hpaths).
  cbn [app]. split; [exact Hmetas|]. split; [exact Hpaths|].
  rewrite Hmetas. apply Forall_forall. intros [utt l] He.
  apply list_elem_of_omap in He as (u & _ & He). unfold Predict_kept in He.
  destruct (dict_get utt2label u) as [l'|] eqn:El; [|discriminate He].
  destruct (bool_decide (l' ∈ int2label)) eqn:Ein; [|discriminate He].
  injection He as <- <-. cbn [fst snd]. split; [exact El|].
  now apply bool_decide_eq_true in Ein.
Qed.

Lemma Predict_select_filters_by_vocabulary_witness :
  [("a", "en")]
  = omap (Predict_kept [("a", "en"); ("b", "es")] ["en"; "fr"])
         (keys [("a", "/x"); ("b", "/y")]) ∧
  Forall2 (λ path e, dict_get [("a", "/x"); ("b", "/y")] e.1 = Some path)
          ["/x"] [("a", "en")] ∧
  Forall (λ e, dict_get [("a", "en"); ("b", "es")] e.1 = Some e.2
               ∧ e.2 ∈ ["en"; "fr"]) [("a", "en")].
Proof.
  apply (Predict_select_filters_by_vocabulary Examples.plain_args).
  - reflexivity.
  - vm_compute. reflexivity.
Defined.

Lemma Predict_select_loop_labelled (utt2path utt2label : list (string * string))
    (labels_set : gset string) (utts : list string) :
  ∀ acc,
    utts ⊆ keys utt2path →
    Forall (λ u, is_Some (dict_get utt2label u)) utts →
    returns (foldM (Predict_select_step utt2path utt2label labels_set) acc utts).
Proof.
  induction utts as [|utt utts IH]; intros [paths0 metas0] Hsub Hlab.
  - eexists. reflexivity.
  - apply Forall_cons in Hlab as [[l Hl] Hlab]. simpl.
    unfold Predict_select_step at 1. unfold getitem at 1. rewrite Hl.
    cbn [rbind Ok].
    assert (Hrest : utts ⊆ keys utt2path) by (intros u Hu; apply Hsub; now right).
    destruct (negb (bool_decide (l ∈ labels_set))); cbn [rbind Ok].
    + now apply IH.
    + destruct (getitem_keys utt2path utt) as [path ->]; [apply Hsub; left|].
      cbn [rbind Ok]. now apply IH.
Qed.

(** X20: on the prediction path an utterance of [utt2path] that has no row
    in [utt2label] is reported as a [KeyError] on its id, raised when the
    selection loop reaches it. *)
Theorem Predict_select_unlabelled_utterance
    (a : args) (utt2path utt2label : list (string * string))
    (int2label before after : list string) (utt : string) :
  file_limit a = None →
  keys utt2path = (before ++ utt :: after)%list →
  Forall (λ u, is_Some (dict_get utt2label u)) before →
  dict_get utt2label utt = None →
  Predict_select a utt2path utt2label int2label = Raise (KeyError utt).
Proof.
  intros Hlimit Hkeys Hbefore Hnone. unfold Predict_select.
  rewrite Hlimit, Hkeys, foldM_app.
  destruct (Predict_select_loop_labelled utt2path utt2label
              (list_to_set int2label) before ([], [])) as [[paths metas] ->].
  - rewrite Hkeys. intros u Hu. apply elem_of_app. now left.
  - exact Hbefore.
  - cbn [rbind foldM]. unfold Predict_select_step at 1. unfold getitem at 1.
    now rewrite Hnone.
Qed.

Lemma Predict_select_unlabelled_utterance_witness :
  Predict_select Examples.plain_args [("a", "/x"); ("b", "/y")] [("a", "en")]
                 ["en"; "fr"]
  = Raise (KeyError "b").
Proof.
  apply (Predict_select_unlabelled_utterance _ _ _ _ ["a"] [] "b").
  - reflexivity.
  - reflexivity.
  - constructor; [eexists; reflexivity | constructor].
  - reflexivity.
Defined.

(** ** Model callbacks *)

Lemma dict_get_dict_update {V} (e : list (string * V)) :
  ∀ (d : list (string * V)) (k : string),
    NoDup (keys e) →
    dict_get (dict_update d e) k
    = match dict_get e k with
      | Some v => Some v
      | None => dict_get d k
      end.
Proof.
  unfold dict_update. induction e as [|[k0 v0] e IH]; intros d k Hnodup;
    [reflexivity|].
  cbn [keys map fst] in Hnodup. apply NoDup_cons in Hnodup as [Hk0 Hnodup].
  cbn [fold_left fst snd]. rewrite (IH _ _ Hnodup). cbn [dict_get].
  rewrite dict_get_setitem. destruct (String.eqb k k0) eqn:E; [|reflexivity].
  apply String.eqb_eq in E. subst k0.
  apply not_contains_keys in Hk0. unfold contains in Hk0.
  now destruct (dict_get e k).
Qed.

Lemma dict_get_dict_remove {V} (d : list (string * V)) (k k' : string) :
  NoDup (keys d) →
  dict_get (dict_remove d k) k'
  = if String.eqb k' k then None else dict_get d k'.
Proof.
  induction d as [|[k0 v0] d IH]; intros Hnodup; cbn [dict_remove dict_get].
  - now destruct (String.eqb k' k).
  - cbn [keys map fst] in Hnodup. apply NoDup_cons in Hnodup as [Hk0 Hnodup].
    destruct (String.eqb k k0) eqn:E.
    + apply String.eqb_eq in E. subst k0.
      destruct (String.eqb k' k) eqn:E'; [|reflexivity].
      apply String.eqb_eq in E'. subst k'.
      apply not_contains_keys in Hk0. unfold contains in Hk0.
      now destruct (dict_get d k).
    + cbn [dict_get]. rewrite (IH Hnodup).
      destruct (String.eqb k' k0) eqn:E0; [|reflexivity].
      apply String.eqb_eq in E0. subst k0.
      destruct (String.eqb k' k) eqn:E'; [|reflexivity].
      apply String.eqb_eq in E'. subst k'. now rewrite String.eqb_refl in E.
Qed.

Lemma NoDup_keys_dict_remove {V} (d : list (string * V)) (k : string) :
  NoDup (keys d) → NoDup (keys (dict_remove d k)).
Proof.
  induction d as [|[k0 v0] d IH]; intros Hnodup; cbn [dict_remove]; [exact Hnodup|].
  cbn [keys map fst] in Hnodup. apply NoDup_cons in Hnodup as [Hk0 Hnodup].
  destruct (String.eqb k k0); [exact Hnodup|].
  cbn [keys map fst]. apply NoDup_cons. split; [|now apply IH].
  intros Hin. apply Hk0. apply contains_keys in Hin. apply contains_keys.
  unfold contains in *. rewrite dict_get_dict_remove in Hin by assumption.
  now destruct (String.eqb k0 k).
Qed.

(** X22: the checkpoint settings handed to the model wrapper never contain
    the "format" key; their "filepath" is the one the configuration sets,
    and otherwise the checkpoint directory joined with the configured
    format, or with "epoch{epoch:06d}.hdf5" when none is configured. *)
Theorem checkpoints_config_filepath
    (cache_dir model_id now : string) (config : model_config)
    (kwargs : list (string * json)) (left_over : option (list (string * json))) :
  NoDup (keys (get_default (mc_checkpoints config) [])) →
  callbacks_kwargs cache_dir model_id now config = Ok (kwargs, left_over) →
  ∃ checkpoints_config format,
    dict_get kwargs "checkpoints" = Some (JDict checkpoints_config) ∧
    dict_get checkpoints_config "format" = None ∧
    JStr format
    = get_default (dict_get (get_default (mc_checkpoints config) []) "format")
                  (JStr default_checkpoint_format) ∧
    dict_get checkpoints_config "filepath"
    = Some (get_default
              (dict_get (get_default (mc_checkpoints config) []) "filepath")
              (JStr (os_path_join (get_checkpoint_dir cache_dir model_id)
                                  [format]))).
Proof.
  intros Hnodup Hkw. unfold callbacks_kwargs in Hkw.
  apply rbind_Ok in Hkw as ([fmt cks] & Hfmt & Hkw).
  apply rbind_Ok in Hkw as (format & Hformat & Hkw).
  injection Hkw as <- <-. eexists. exists format. split; [reflexivity|].
  destruct fmt; try discriminate Hformat. injection Hformat as ->.
  destruct (mc_checkpoints config) as [c|]; cbn [get_default] in *.
  - unfold contains in Hfmt. destruct (dict_get c "format") as [f|] eqn:Ef.
    + unfold dict_pop, getitem in Hfmt. rewrite Ef in Hfmt. cbn [rbind Ok] in Hfmt.
      injection Hfmt as -> <-. cbn [get_default].
      rewrite !dict_get_dict_update by now apply NoDup_keys_dict_remove.
      rewrite !dict_get_dict_remove by assumption. cbn [String.eqb Ascii.eqb Bool.eqb].
      repeat split. cbn [dict_get String.eqb Ascii.eqb Bool.eqb].
      now destruct (dict_get c "filepath").
    + injection Hfmt as <- <-. cbn [get_default].
      rewrite !dict_get_dict_update by assumption. rewrite Ef.
      repeat split. cbn [dict_get String.eqb Ascii.eqb Bool.eqb].
      now destruct (dict_get c "filepath").
  - injection Hfmt as <- <-. repeat split.
Qed.

Lemma checkpoints_config_filepath_witness :
  ∃ checkpoints_config format,
    dict_get
      [("checkpoints",
        JDict [("filepath", JStr "/cache/m/checkpoints/best.hdf5");
               ("monitor", JStr "val_loss")]);
       ("early_stopping", JNull);
       ("tensorboard",
        JDict [("log_dir", JStr "/cache/m/tensorboard/logs/1");
               ("profile_batch", JInt 0); ("histogram_freq", JInt 1)]);
       ("other_callbacks", JList [])] "checkpoints"
    = Some (JDict checkpoints_config) ∧
    dict_get checkpoints_config "format" = None ∧
    JStr format
    = get_default
        (dict_get [("monitor", JStr "val_loss"); ("format", JStr "best.hdf5")]
                  "format")
        (JStr default_checkpoint_format) ∧
    dict_get checkpoints_config "filepath"
    = Some (get_default
              (dict_get [("monitor", JStr "val_loss"); ("format", JStr "best.hdf5")]
                        "filepath")
              (JStr (os_path_join (get_checkpoint_dir "/cache" "m") [format]))).
Proof.
  apply (checkpoints_config_filepath "/cache" "m" "1"
           {| mc_tensorboard := None;
              mc_checkpoints :=
                Some [("monitor", JStr "val_loss"); ("format", JStr "best.hdf5")];
              mc_early_stopping := None; mc_other_callbacks := None |}
           _ (Some [("monitor", JStr "val_loss")])).
  - cbn [get_default mc_checkpoints keys map fst].
    apply NoDup_cons. split; [|apply NoDup_singleton].
    rewrite list_elem_of_singleton. discriminate.
  - vm_compute. reflexivity.
Defined.

(** X23: a key of the configuration's "tensorboard" mapping overrides the
    default of the same name, and a default that the configuration does not
    mention is passed on unchanged: the log directory under the model's
    cache directory, [profile_batch] 0 and [histogram_freq] 1. *)
Theorem tensorboard_config_defaults
    (cache_dir model_id now : string) (config : model_config)
    (kwargs : list (string * json)) (left_over : option (list (string * json)))
    (k : string) :
  NoDup (keys (get_default (mc_tensorboard config) [])) →
  callbacks_kwargs cache_dir model_id now config = Ok (kwargs, left_over) →
  ∃ tensorboard_config,
    dict_get kwargs "tensorboard" = Some (JDict tensorboard_config) ∧
    dict_get tensorboard_config k
    = match dict_get (get_default (mc_tensorboard config) []) k with
      | Some v => Some v
      | None =>
          dict_get
            [("log_dir",
              JStr (os_path_join cache_dir
                      [model_id; "tensorboard"; "logs"; now]));
             ("profile_batch", JInt 0); ("histogram_freq", JInt 1)] k
      end.
Proof.
  intros Hnodup Hkw. unfold callbacks_kwargs in Hkw.
  apply rbind_Ok in Hkw as ([fmt cks] & _ & Hkw).
  apply rbind_Ok in Hkw as (format & _ & Hkw).
  injection Hkw as <- <-. eexists. split; [reflexivity|].
  now rewrite dict_get_dict_update by assumption.
Qed.

Lemma tensorboard_config_defaults_witness :
  ∃ tensorboard_config,
    dict_get
      [("checkpoints",
        JDict [("filepath", JStr "/cache/m/checkpoints/epoch{epoch:06d}.hdf5")]);
       ("early_stopping", JNull);
       ("tensorboard",
        JDict [("log_dir", JStr "/cache/m/tensorboard/logs/1");
               ("profile_batch", JInt 0); ("histogram_freq", JInt 5)]);
       ("other_callbacks", JList [])] "tensorboard"
    = Some (JDict tensorboard_config) ∧
    dict_get tensorboard_config "histogram_freq"
    = match dict_get [("histogram_freq", JInt 5)] "histogram_freq" with
      | Some v => Some v
      | None =>
          dict_get
            [("log_dir",
              JStr (os_path_join "/cache" ["m"; "tensorboard"; "logs"; "1"]));
             ("profile_batch", JInt 0); ("histogram_freq", JInt 1)]
            "histogram_freq"
      end.
Proof.
  apply (tensorboard_config_defaults "/cache" "m" "1"
           {| mc_tensorboard := Some [("histogram_freq", JInt 5)];
              mc_checkpoints := None;
              mc_early_stopping := None; mc_other_callbacks := None |}
           _ None).
  - apply NoDup_singleton.
  - vm_compute. reflexivity.
Defined.

(** ** Vocabulary of a training run with a dataset file *)

Lemma insert_sorted_Permutation (x : string) (l : list string) :
  insert_sorted x l ≡ₚ x :: l.
Proof.
  induction l as [|y l IH]; cbn [insert_sorted]; [reflexivity|].
  destruct (String.leb x y); [reflexivity|].
  rewrite IH. apply Permutation_swap.
Qed.

Lemma sorted_Permutation (l : list string) : sorted l ≡ₚ l.
Proof.
  induction l as [|x l IH]; cbn [sorted foldr]; [reflexivity|].
  fold (sorted l). now rewrite insert_sorted_Permutation, IH.
Qed.

Lemma insert_sorted_ascending (x : string) (l : list string) :
  StronglySorted (λ a b, String.leb a b = true) l →
  StronglySorted (λ a b, String.leb a b = true) (insert_sorted x l).
Proof.
  induction 1 as [|y l Hl IH Hy]; cbn [insert_sorted].
  - repeat constructor.
  - destruct (String.leb x y) eqn:E.
    + constructor; [now constructor|]. constructor; [assumption|].
      eapply Forall_impl; [exact Hy|]. intros z Hz. cbn beta in *.
      eapply string_leb_trans; eassumption.
    + constructor; [assumption|]. rewrite insert_sorted_Permutation.
      constructor; [|assumption]. now apply string_leb_false.
Qed.

Lemma sorted_ascending (l : list string) :
  StronglySorted (λ a b, String.leb a b = true) (sorted l).
Proof.
  induction l as [|x l IH]; cbn [sorted foldr]; [constructor|].
  now apply insert_sorted_ascending.
Qed.

Lemma sorted_of_Permutation (l l' : list string) :
  l ≡ₚ l' → sorted l = sorted l'.
Proof.
  intros Hperm.
  apply (StronglySorted_unique_strong (λ a b, String.leb a b = true)).
  - intros x1 x2 _ _. apply String.leb_antisym.
  - apply sorted_ascending.
  - apply sorted_ascending.
  - now rewrite !sorted_Permutation.
Qed.

Lemma ascending_distinct_is_strict (l : list string) :
  NoDup l → StronglySorted (λ a b, String.leb a b = true) l →
  StronglySorted (λ a b, String.compare a b = Lt) l.
Proof.
  intros Hnodup Hsorted. induction Hsorted as [|x l Hl IH Hx]; [constructor|].
  apply NoDup_cons in Hnodup as [Hnotin Hnodup]. constructor; [now apply IH|].
  apply Forall_forall. intros y Hy.
  rewrite Forall_forall in Hx. specialize (Hx y Hy). cbn beta in Hx.
  unfold String.leb in Hx. destruct (String.compare x y) eqn:E;
    [|reflexivity|discriminate].
  apply String.compare_eq_iff in E. now subst y.
Qed.

Lemma sorted_set_elem (l : list string) (x : string) :
  x ∈ sorted_set l ↔ x ∈ l.
Proof.
  unfold sorted_set. rewrite sorted_Permutation, elem_of_elements.
  apply elem_of_list_to_set.
Qed.

Lemma sorted_set_NoDup (l : list string) : NoDup (sorted_set l).
Proof.
  unfold sorted_set. rewrite sorted_Permutation. apply NoDup_elements.
Qed.

Lemma sorted_set_same_elements (l l' : list string) :
  (∀ x, x ∈ l ↔ x ∈ l') → sorted_set l = sorted_set l'.
Proof.
  intros Hsame. unfold sorted_set. apply sorted_of_Permutation.
  apply NoDup_Permutation; try apply NoDup_elements.
  intros x. rewrite !elem_of_elements, !elem_of_list_to_set. apply Hsame.
Qed.

Lemma selected_labels_elem (dataset_config : list ds_config)
    (enabled : list string) (l : string) :
  l ∈ concat (map ds_labels (select_datasets dataset_config enabled))
  ↔ ∃ d, d ∈ dataset_config ∧ ds_key d ∈ enabled ∧ l ∈ ds_labels d.
Proof.
  rewrite list_elem_of_In, in_concat. split.
  - intros (ls & Hls & Hl). apply in_map_iff in Hls as (d & <- & Hd).
    apply list_elem_of_In, list_elem_of_filter in Hd as [Hkey Hd].
    apply list_elem_of_In in Hl. eauto.
  - intros (d & Hd & Hkey & Hl). exists (ds_labels d).
    split; [|now apply list_elem_of_In].
    apply in_map, list_elem_of_In, list_elem_of_filter. now split.
Qed.

(** X24: with a dataset file, the labels of a training run are in strictly
    ascending order, so none is repeated, and a label is among them exactly
    when some dataset of the file whose key the experiment enables lists
    it. *)
Theorem Train_labels_sorted_vocabulary
    (dataset_config : list ds_config) (enabled : list string) :
  StronglySorted (λ a b, String.compare a b = Lt)
                 (Train_labels dataset_config enabled) ∧
  ∀ l, l ∈ Train_labels dataset_config enabled
       ↔ ∃ d, d ∈ dataset_config ∧ ds_key d ∈ enabled ∧ l ∈ ds_labels d.
Proof.
  split.
  - apply ascending_distinct_is_strict; [apply sorted_set_NoDup|].
    apply sorted_ascending.
  - intros l. unfold Train_labels. rewrite sorted_set_elem.
    apply selected_labels_elem.
Qed.

(** X25: neither the order of the datasets in the dataset file nor the
    order of the enabled keys in the experiment changes the labels of the
    run, and so the position each label gets in the encoding. *)
Theorem Train_labels_ignore_dataset_order
    (dataset_config dataset_config' : list ds_config)
    (enabled enabled' : list string) :
  dataset_config ≡ₚ dataset_config' → enabled ≡ₚ enabled' →
  Train_labels dataset_config enabled = Train_labels dataset_config' enabled'.
Proof.
  intros Hdc Hen. unfold Train_labels. apply sorted_set_same_elements.
  intros l. rewrite !selected_labels_elem.
  split; intros (d & Hd & Hkey & Hl); exists d.
  - now rewrite <- Hdc, <- Hen.
  - now rewrite Hdc, Hen.
Qed.

Lemma Train_labels_ignore_dataset_order_witness :
  Train_labels [Examples.d1; Examples.d5] ["d5"; "d1"]
  = Train_labels [Examples.d5; Examples.d1] ["d1"; "d5"].
Proof.
  apply Train_labels_ignore_dataset_order; apply Permutation_swap.
Defined.

(** X26: with a dataset file and no [onehot_dims], every label that an
    enabled dataset lists is encoded as a unit vector over the labels of the
    run, with its 1 at the label's position in their sorted order. *)
Theorem Train_labels_are_all_encoded
    (dataset_config : list ds_config) (enabled : list string)
    (d : ds_config) (l : string) :
  d ∈ dataset_config → ds_key d ∈ enabled → l ∈ ds_labels d →
  ∃ i, Train_labels dataset_config enabled !! i = Some l ∧
       label2onehot (Train_labels dataset_config enabled) None l
       = Ok (<[i := 1]>
               (replicate (length (Train_labels dataset_config enabled)) 0)).
Proof.
  intros Hd Hkey Hl.
  assert (Hin : l ∈ Train_labels dataset_config enabled).
  { unfold Train_labels. rewrite sorted_set_elem. apply selected_labels_elem.
    eauto. }
  apply list_elem_of_lookup in Hin as [i Hi]. exists i. split; [assumption|].
  apply label2onehot_at_index; [|assumption]. apply sorted_set_NoDup.
Qed.

Lemma Train_labels_are_all_encoded_witness :
  ∃ i, Train_labels [Examples.d1; Examples.d5] ["d5"] !! i = Some "fr" ∧
       label2onehot (Train_labels [Examples.d1; Examples.d5] ["d5"]) None "fr"
       = Ok (<[i := 1]>
               (replicate
                  (length (Train_labels [Examples.d1; Examples.d5] ["d5"])) 0)).
Proof.
  apply (Train_labels_are_all_encoded _ _ Examples.d5).
  - apply list_elem_of_In. cbn. auto.
  - apply list_elem_of_In. cbn. auto.
  - apply list_elem_of_In. cbn. auto.
Defined.

(** ** Settings of one datagroup *)

Lemma NoDup_keys_dict_update {V} (e : list (string * V)) :
  ∀ d : list (string * V), NoDup (keys d) → NoDup (keys (dict_update d e)).
Proof.
  unfold dict_update. induction e as [|[k v] e IH]; intros d Hd; [exact Hd|].
  cbn [fold_left]. apply IH. now apply NoDup_keys_setitem.
Qed.

Lemma dict_del_Ok {V} (d d' : list (string * V)) (k : string) :
  dict_del d k = Ok d' → d' = dict_remove d k.
Proof.
  unfold dict_del. destruct (contains d k); [|discriminate].
  now intros [= <-].
Qed.

Lemma split_config_Ok (training_config section c : list (string * json))
    (ds : string) :
  getitem training_config ds = Ok (JDict section) →
  split_config training_config ds = Ok c →
  c = dict_remove (dict_remove (dict_update training_config section) "train")
                  "validation".
Proof.
  intros Hsec Hc. unfold split_config in Hc. rewrite Hsec in Hc.
  cbn [rbind Ok as_mapping] in Hc.
  apply rbind_Ok in Hc as (c1 & Hc1 & Hc).
  apply dict_del_Ok in Hc1 as ->. now apply dict_del_Ok in Hc.
Qed.

Lemma split_config_lookup (training_config section c : list (string * json))
    (ds k : string) :
  NoDup (keys training_config) → NoDup (keys section) →
  getitem training_config ds = Ok (JDict section) →
  split_config training_config ds = Ok c →
  dict_get c k
  = if String.eqb k "validation" then None
    else if String.eqb k "train" then None
    else match dict_get section k with
         | Some v => Some v
         | None => dict_get training_config k
         end.
Proof.
  intros Htc Hsec Hget Hc. rewrite (split_config_Ok _ _ _ _ Hget Hc).
  rewrite dict_get_dict_remove
    by now apply NoDup_keys_dict_remove, NoDup_keys_dict_update.
  rewrite dict_get_dict_remove by now apply NoDup_keys_dict_update.
  now rewrite dict_get_dict_update.
Qed.

(** X27: in the settings of a datagroup, a key of the experiment's section
    for that datagroup overrides the experiment-level key of the same name,
    a key the section does not set keeps its experiment-level value, and the
    keys "train" and "validation" are gone. *)
Theorem split_settings_override_experiment
    (training_config section c : list (string * json)) (ds : string) :
  NoDup (keys training_config) → NoDup (keys section) →
  getitem training_config ds = Ok (JDict section) →
  split_config training_config ds = Ok c →
  dict_get c "train" = None ∧ dict_get c "validation" = None ∧
  ∀ k, k ≠ "train" → k ≠ "validation" →
       dict_get c k = match dict_get section k with
                      | Some v => Some v
                      | None => dict_get training_config k
                      end.
Proof.
  intros Htc Hsec Hget Hc.
  pose proof (split_config_lookup _ _ _ _ "train" Htc Hsec Hget Hc) as Htrain.
  pose proof (split_config_lookup _ _ _ _ "validation" Htc Hsec Hget Hc) as Hval.
  split; [exact Htrain|]. split; [exact Hval|]. intros k Hk1 Hk2.
  rewrite (split_config_lookup _ _ _ _ k Htc Hsec Hget Hc).
  apply String.eqb_neq in Hk1, Hk2. now rewrite Hk1, Hk2.
Qed.

Lemma split_settings_override_experiment_witness :
  dict_get example_validation_settings "train" = None ∧
  dict_get example_validation_settings "validation" = None ∧
  ∀ k, k ≠ "train" → k ≠ "validation" →
       dict_get example_validation_settings k
       = match dict_get example_validation_section k with
         | Some v => Some v
         | None => dict_get example_training_config k
         end.
Proof.
  apply (split_settings_override_experiment _ _ _ "validation").
  - apply (bool_decide_unpack _). vm_compute. exact I.
  - apply (bool_decide_unpack _). vm_compute. exact I.
  - reflexivity.
  - vm_compute. reflexivity.
Defined.

(** X28: the settings of the "train" datagroup cannot be built without a
    "validation" key: when neither the experiment nor its "train" section
    has one, the statement that deletes it raises KeyError before any
    feature is extracted. *)
Theorem training_needs_a_validation_section
    (training_config section : list (string * json)) :
  NoDup (keys training_config) → NoDup (keys section) →
  getitem training_config "train" = Ok (JDict section) →
  dict_get training_config "validation" = None →
  dict_get section "validation" = None →
  split_config training_config "train" = Raise (KeyError "validation").
Proof.
  intros Htc Hsec Hget Hval Hsval. unfold split_config. rewrite Hget.
  cbn [rbind Ok as_mapping].
  assert (Htrain : dict_get training_config "train" = Some (JDict section)).
  { unfold getitem in Hget. destruct (dict_get training_config "train");
      [now injection Hget as ->|discriminate]. }
  unfold dict_del at 1, contains. rewrite dict_get_dict_update by assumption.
  rewrite Htrain.
  replace (match match dict_get section "train" with
                 | Some v => Some v
                 | None => Some (JDict section)
                 end with Some _ => true | None => false end) with true
    by now destruct (dict_get section "train").
  cbn [rbind Ok]. unfold dict_del, contains.
  rewrite dict_get_dict_remove by now apply NoDup_keys_dict_update.
  rewrite dict_get_dict_update by assumption.
  now rewrite Hsval, Hval.
Qed.

Lemma training_needs_a_validation_section_witness :
  split_config example_config_without_validation "train"
  = Raise (KeyError "validation").
Proof.
  apply (training_needs_a_validation_section _ [("datagroup", JStr "train")]).
  - apply (bool_decide_unpack _). vm_compute. exact I.
  - apply (bool_decide_unpack _). vm_compute. exact I.
  - reflexivity.
  - reflexivity.
  - reflexivity.
Defined.

(** X29: when the section of a datagroup sets "persistent_features_cache",
    its truth value alone decides where the feature cache goes, whatever the
    experiment-level key says: under the cache directory for a true value,
    under /tmp/tensorflow-cache for a false one such as [false], [0],
    [null] or an empty string. *)
Theorem split_level_cache_setting_wins
    (training_config section c c' : list (string * json)) (ds cache_dir : string)
    (datagroup_key v : json) :
  NoDup (keys training_config) → NoDup (keys section) →
  getitem training_config ds = Ok (JDict section) →
  split_config training_config ds = Ok c →
  dict_pop c "datagroup" = Ok (datagroup_key, c') →
  dict_get section "persistent_features_cache" = Some v →
  features_cache_dir cache_dir (persistent_features_cache c')
  = if truthy v then os_path_join cache_dir ["features"]
    else "/tmp/tensorflow-cache".
Proof.
  intros Htc Hsec Hget Hc Hpop Hv.
  assert (Hnodup : NoDup (keys c)).
  { rewrite (split_config_Ok _ _ _ _ Hget Hc).
    now apply NoDup_keys_dict_remove, NoDup_keys_dict_remove,
      NoDup_keys_dict_update. }
  unfold dict_pop in Hpop. apply rbind_Ok in Hpop as (dg & _ & Hpop).
  injection Hpop as _ <-. unfold persistent_features_cache.
  rewrite dict_get_dict_remove by assumption. cbn [String.eqb Ascii.eqb Bool.eqb].
  rewrite (split_config_lookup _ _ _ _ _ Htc Hsec Hget Hc).
  cbn [String.eqb Ascii.eqb Bool.eqb]. now rewrite Hv.
Qed.

Lemma split_level_cache_setting_wins_witness :
  features_cache_dir "/cache"
    (persistent_features_cache
       [("name", JStr "m"); ("persistent_features_cache", JInt 0);
        ("batch_size", JInt 64)])
  = if truthy (JInt 0) then os_path_join "/cache" ["features"]
    else "/tmp/tensorflow-cache".
Proof.
  apply (split_level_cache_setting_wins example_training_config
           example_validation_section example_validation_settings _
           "validation" "/cache" (JStr "dev")).
  - apply (bool_decide_unpack _). vm_compute. exact I.
  - apply (bool_decide_unpack _). vm_compute. exact I.
  - reflexivity.
  - vm_compute. reflexivity.
  - vm_compute. reflexivity.
  - reflexivity.
Defined.
